(** * Session bootstrap of the common language server

    A shallow embedding of [packages/language-server/src/common/server.ts]
    ([startCommonLanguageServer]) and the properties of its handlers:
    the [initialize] request, the [initialized] notification, the
    workspace-folder change notification and the [shutdown] request.

    The handlers are written in a small state-and-exception monad over the
    closure variables of [startCommonLanguageServer].  Every call that
    leaves the file (the connection, the runtime environment, the plugin
    hooks, the project registry, [require]) is recorded in a trace, in
    call order, and may throw: an oracle carried by the server context
    says which call throws, given the calls made so far.

    Choices of the model:
    - an [await] is sequential: handlers run one after the other and are
      not interleaved;
    - a plugin factory [plugin(options)] is a function and does not throw;
    - [dispose] of a project host is the synchronous call the source
      makes, and does not change [projects.workspaces] while the
      shutdown loop runs;
    - what the collaborators return ([setupCapabilities],
      [loadTypescript], the registry behind [createWorkspaces]) is not in
      this file of the server: it is a field of the server context, and
      the properties hold for every choice of it;
    - the connection is the one of the protocol library, which is not
      part of this repository.  Of its workspace-folder event the model
      keeps what the handlers can observe: every call of
      [connection.workspace.onDidChangeWorkspaceFolders] adds a listener,
      so a handler given twice runs twice; a notification calls the
      listeners in turn and catches what one of them throws; and an
      [initialize] request of a client with workspace-folder support
      makes the connection start a new event, without listeners, before
      the [initialize] handler runs. *)

From Stdlib Require Import List String ZArith Bool Arith Lia.
Import ListNotations.
Open Scope string_scope.
Open Scope list_scope.

Set Implicit Arguments.

(** ** Data of the protocol and of the initialization options *)

(** [vscode.SemanticTokensLegend]. *)
Record SemanticTokensLegend := {
  tokenTypes : list string;
  tokenModifiers : list string;
}.

(** The constant at the end of [server.ts]. *)
Definition standardSemanticTokensLegend : SemanticTokensLegend := {|
  tokenTypes := [
    "namespace";
    "class";
    "enum";
    "interface";
    "struct";
    "typeParameter";
    "type";
    "parameter";
    "variable";
    "property";
    "enumMember";
    "decorator";
    "event";
    "function";
    "method";
    "macro";
    "label";
    "comment";
    "string";
    "keyword";
    "number";
    "regexp";
    "operator"
  ];
  tokenModifiers := [
    "declaration";
    "definition";
    "readonly";
    "static";
    "deprecated";
    "abstract";
    "async";
    "modification";
    "documentation";
    "defaultLibrary"
  ];
|}.

(** [ServerMode] is declared in [../types]; the server only compares a
    mode with [ServerMode.Syntactic]. *)
Inductive ServerMode := Semantic | PartialSemantic | Syntactic.

Record L10nOptions := { location : string }.
Record TypescriptOptions := { tsdk : string }.

(** [LanguageServerInitializationOptions], the fields [server.ts] reads.
    An optional field that is absent ([undefined]) is [None]. *)
Record LanguageServerInitializationOptions := {
  l10n : option L10nOptions;
  typescript : option TypescriptOptions;
  textDocumentSync : option Z;
  serverMode : option ServerMode;
  disableFileWatcher : option bool;
  cancellationPipeName : option string;
  semanticTokensLegend : option SemanticTokensLegend;
}.

(** [vscode.TextDocumentSyncKind.Incremental] of the protocol library. *)
Definition TextDocumentSyncKind_Incremental : Z := 2.

(** Client capabilities, the part under [workspace] that is consulted. *)
Record DidChangeWatchedFilesClientCapabilities := {
  dynamicRegistration : option bool;
}.

Record WorkspaceClientCapabilities := {
  ws_workspaceFolders : option bool;
  ws_configuration : option bool;
  ws_didChangeWatchedFiles : option DidChangeWatchedFilesClientCapabilities;
}.

Record ClientCapabilities := {
  workspace : option WorkspaceClientCapabilities;
}.

Record WorkspaceFolder := { uri : string; name : string }.

(** [vscode.InitializeParams]; [null] and [undefined] are [None]. *)
Record InitializeParams := {
  capabilities : ClientCapabilities;
  workspaceFolders : option (list WorkspaceFolder);
  rootUri : option string;
  rootPath : option string;
  locale : option string;
  initializationOptions : LanguageServerInitializationOptions;
}.

(** A [URI] of [vscode-uri] is kept as the call that built it. *)
Inductive URI :=
| URI_parse (value : string)
| URI_file (path : string).

(** Server capabilities: the sync kind set by [server.ts] and whatever
    [setupCapabilities] and the plugins put next to it. *)
Record ServerCapabilities := {
  sc_textDocumentSync : option Z;
  sc_features : list string;
}.

Record ServerInfo := { si_name : string; si_version : string }.

Record InitializeResult := {
  res_capabilities : ServerCapabilities;
  serverInfo : option ServerInfo;
}.

(** A plugin instance, as returned by a [LanguageServerPlugin]: its
    file-watcher extensions and its two optional hooks.  The first hook
    receives the mutable [result]; the second receives the language
    service getter and has no result the server uses. *)
Record PluginInstance := {
  extensions_fileWatcher : option (list string);
  onInitialize_hook : option (InitializeResult -> InitializeResult);
  onInitialized_hook : bool;
}.

Definition LanguageServerPlugin : Type :=
  LanguageServerInitializationOptions -> PluginInstance.

(** ** JavaScript truthiness of the values that are tested *)

Definition truthy_bool (b : option bool) : bool :=
  match b with Some true => true | _ => false end.

Definition truthy_string (s : option string) : bool :=
  match s with
  | Some s => negb (String.eqb s "")
  | None => false
  end.

Definition is_some {A : Type} (o : option A) : bool :=
  match o with Some _ => true | None => false end.

(** [capabilities.workspace?.workspaceFolders] and its siblings. *)
Definition cap_workspaceFolders (c : ClientCapabilities) : bool :=
  match workspace c with
  | Some w => truthy_bool (ws_workspaceFolders w)
  | None => false
  end.

Definition cap_configuration (c : ClientCapabilities) : bool :=
  match workspace c with
  | Some w => truthy_bool (ws_configuration w)
  | None => false
  end.

Definition cap_watchedFiles_dynamicRegistration (c : ClientCapabilities) : bool :=
  match workspace c with
  | Some w =>
      match ws_didChangeWatchedFiles w with
      | Some d => truthy_bool (dynamicRegistration d)
      | None => false
      end
  | None => false
  end.

(** ** Pure parts of the handlers *)

(** [getSemanticTokensLegend], with the closure variable [options] as its
    argument. *)
Definition getSemanticTokensLegend
    (options : LanguageServerInitializationOptions) : SemanticTokensLegend :=
  match semanticTokensLegend options with
  | None => standardSemanticTokensLegend
  | Some extra => {|
      tokenTypes :=
        tokenTypes standardSemanticTokensLegend ++ tokenTypes extra;
      tokenModifiers :=
        tokenModifiers standardSemanticTokensLegend ++ tokenModifiers extra;
    |}
  end.

(** The token types and modifiers a session contributes: those of the
    options' legend, none when the options carry no legend. *)
Definition contributed_tokenTypes
    (options : LanguageServerInitializationOptions) : list string :=
  match semanticTokensLegend options with
  | Some extra => tokenTypes extra
  | None => []
  end.

Definition contributed_tokenModifiers
    (options : LanguageServerInitializationOptions) : list string :=
  match semanticTokensLegend options with
  | Some extra => tokenModifiers extra
  | None => []
  end.

Definition value_of (s : option string) : string :=
  match s with Some s => s | None => "" end.

Definition folders_of (l : option (list WorkspaceFolder)) : list WorkspaceFolder :=
  match l with Some l => l | None => [] end.

(** The assignment to [roots] in the [initialize] handler; [roots] keeps
    its previous value when no branch is taken. *)
Definition initial_roots (initParams : InitializeParams) (roots : list URI)
    : list URI :=
  if cap_workspaceFolders (capabilities initParams)
     && is_some (workspaceFolders initParams)
  then map (fun folder => URI_parse (uri folder))
           (folders_of (workspaceFolders initParams))
  else if truthy_string (rootUri initParams)
  then [URI_parse (value_of (rootUri initParams))]
  else if truthy_string (rootPath initParams)
  then [URI_file (value_of (rootPath initParams))]
  else roots.

(** The literal [result] of the [initialize] handler. *)
Definition initial_result (options : LanguageServerInitializationOptions)
    : InitializeResult := {|
  res_capabilities := {|
    sc_textDocumentSync :=
      Some match textDocumentSync options with
           | Some kind => kind
           | None => TextDocumentSyncKind_Incremental
           end;
    sc_features := [];
  |};
  serverInfo := None;
|}.

(** The condition under which the [initialized] handler looks for
    extensions to watch. *)
Definition watcher_wanted (options : LanguageServerInitializationOptions)
    (initParams : InitializeParams) : bool :=
  match serverMode options with Some Syntactic => false | _ => true end
  && negb (truthy_bool (disableFileWatcher options))
  && cap_watchedFiles_dynamicRegistration (capabilities initParams).

(** [plugins.map(plugin => plugin.extensions.fileWatcher ?? []).flat()]. *)
Definition watcher_exts (plugins : list PluginInstance) : list string :=
  flat_map (fun plugin =>
              match extensions_fileWatcher plugin with
              | Some exts => exts
              | None => []
              end) plugins.

(** The template literal of the watcher's [globPattern]. *)
Definition watcher_glob (exts : list string) : string :=
  ("**/*.{" ++ String.concat "," exts ++ "}")%string.

(** ** Collaborators, events and the server state *)

Definition Error : Type := string.

(** A project host of the registry, known by its handle only. *)
Inductive Workspace := WorkspaceHandle (id : nat).

(** A promise as an [await] finds it. *)
Inductive Promise (A : Type) :=
| Resolved (a : A)
| Rejected (e : Error).

Arguments Rejected {A} e.

(** [projects.workspaces], a [Map] from root to the promise of its host,
    in insertion order. *)
Definition WorkspaceMap : Type := list (string * Promise Workspace).

Record Projects := { workspaces : WorkspaceMap }.

Inductive FileSystemHost := TheFileSystemHost.
Inductive ConfigurationHost := TheConfigurationHost.

(** The calls that leave [server.ts], with the arguments the properties
    below depend on.  Plugins are named by their position in [plugins]. *)
Inductive Event :=
| l10n_config (uri : string)
| createConfigurationHost
| setupCapabilities (legend : SemanticTokensLegend)
| loadTypescript (tsdk : string)
| createFileSystemHost
| loadTypescriptLocalized (tsdk locale : string)
| createCancellationTokenHost (pipeName : option string)
| createWorkspaces (fileSystemHost configurationHost : bool)
| projects_add (root : URI)
| projects_remove (root : URI)
| register_customFeatures
| register_languageFeatures (legend : SemanticTokensLegend)
| plugin_onInitialized (index : nat)
| require_packageJson
| plugin_onInitialize (index : nat)
| fsHost_ready
| configurationHost_ready
| onDidChangeWorkspaceFolders
| client_register_DidChangeWatchedFiles (globPattern : string)
| workspace_dispose (w : Workspace).

(** [ServerContext] and what its collaborators answer.  [throws] is the
    oracle: the error a call throws after the calls in the given trace, if
    it throws.  The other fields are the values the calls return. *)
Record ServerContext := {
  ctx_plugins : list LanguageServerPlugin;
  throws : list Event -> Event -> option Error;
  loadTypescript_returns : string -> bool;
  setupCapabilities_sets :
    ClientCapabilities -> ServerCapabilities ->
    LanguageServerInitializationOptions -> list PluginInstance ->
    SemanticTokensLegend -> ServerCapabilities;
  packageJson : ServerInfo;
  createWorkspaces_returns : WorkspaceMap;
  add_updates : URI -> WorkspaceMap -> WorkspaceMap;
  remove_updates : URI -> WorkspaceMap -> WorkspaceMap;
}.

(** The closure variables of [startCommonLanguageServer], the number of
    times the workspace-folder event of the connection holds the handler
    of the server, and the trace. *)
Record ServerState := {
  st_initParams : option InitializeParams;
  st_options : option LanguageServerInitializationOptions;
  st_roots : list URI;
  st_fsHost : option FileSystemHost;
  st_projects : option Projects;
  st_configurationHost : option ConfigurationHost;
  st_plugins : option (list PluginInstance);
  st_foldersListeners : nat;
  st_trace : list Event;
}.

(** The state when [startCommonLanguageServer] returns. *)
Definition initial_state : ServerState := {|
  st_initParams := None;
  st_options := None;
  st_roots := [];
  st_fsHost := None;
  st_projects := None;
  st_configurationHost := None;
  st_plugins := None;
  st_foldersListeners := 0;
  st_trace := [];
|}.

Definition set_initParams (v : option InitializeParams) (s : ServerState) :=
  {| st_initParams := v; st_options := st_options s; st_roots := st_roots s;
     st_fsHost := st_fsHost s; st_projects := st_projects s;
     st_configurationHost := st_configurationHost s;
     st_plugins := st_plugins s; st_foldersListeners := st_foldersListeners s;
     st_trace := st_trace s |}.

Definition set_options (v : option LanguageServerInitializationOptions)
    (s : ServerState) :=
  {| st_initParams := st_initParams s; st_options := v; st_roots := st_roots s;
     st_fsHost := st_fsHost s; st_projects := st_projects s;
     st_configurationHost := st_configurationHost s;
     st_plugins := st_plugins s; st_foldersListeners := st_foldersListeners s;
     st_trace := st_trace s |}.

Definition set_roots (v : list URI) (s : ServerState) :=
  {| st_initParams := st_initParams s; st_options := st_options s; st_roots := v;
     st_fsHost := st_fsHost s; st_projects := st_projects s;
     st_configurationHost := st_configurationHost s;
     st_plugins := st_plugins s; st_foldersListeners := st_foldersListeners s;
     st_trace := st_trace s |}.

Definition set_fsHost (v : option FileSystemHost) (s : ServerState) :=
  {| st_initParams := st_initParams s; st_options := st_options s;
     st_roots := st_roots s; st_fsHost := v; st_projects := st_projects s;
     st_configurationHost := st_configurationHost s;
     st_plugins := st_plugins s; st_foldersListeners := st_foldersListeners s;
     st_trace := st_trace s |}.

Definition set_projects (v : option Projects) (s : ServerState) :=
  {| st_initParams := st_initParams s; st_options := st_options s;
     st_roots := st_roots s; st_fsHost := st_fsHost s; st_projects := v;
     st_configurationHost := st_configurationHost s;
     st_plugins := st_plugins s; st_foldersListeners := st_foldersListeners s;
     st_trace := st_trace s |}.

Definition set_configurationHost (v : option ConfigurationHost)
    (s : ServerState) :=
  {| st_initParams := st_initParams s; st_options := st_options s;
     st_roots := st_roots s; st_fsHost := st_fsHost s;
     st_projects := st_projects s; st_configurationHost := v;
     st_plugins := st_plugins s; st_foldersListeners := st_foldersListeners s;
     st_trace := st_trace s |}.

Definition set_plugins (v : option (list PluginInstance)) (s : ServerState) :=
  {| st_initParams := st_initParams s; st_options := st_options s;
     st_roots := st_roots s; st_fsHost := st_fsHost s;
     st_projects := st_projects s;
     st_configurationHost := st_configurationHost s;
     st_plugins := v; st_foldersListeners := st_foldersListeners s;
     st_trace := st_trace s |}.

Definition set_foldersListeners (v : nat) (s : ServerState) :=
  {| st_initParams := st_initParams s; st_options := st_options s;
     st_roots := st_roots s; st_fsHost := st_fsHost s;
     st_projects := st_projects s;
     st_configurationHost := st_configurationHost s;
     st_plugins := st_plugins s; st_foldersListeners := v;
     st_trace := st_trace s |}.

(** [log evs s] appends the calls [evs] to the trace. *)
Definition log (evs : list Event) (s : ServerState) :=
  {| st_initParams := st_initParams s; st_options := st_options s;
     st_roots := st_roots s; st_fsHost := st_fsHost s;
     st_projects := st_projects s;
     st_configurationHost := st_configurationHost s;
     st_plugins := st_plugins s; st_foldersListeners := st_foldersListeners s;
     st_trace := st_trace s ++ evs |}.

(** ** The monad of the handlers *)

Inductive Outcome (A : Type) :=
| Returned (a : A)
| Thrown (e : Error).

Arguments Thrown {A} e.

Definition M (A : Type) : Type := ServerState -> Outcome A * ServerState.

Definition ret {A : Type} (a : A) : M A := fun s => (Returned a, s).

Definition bind {A B : Type} (m : M A) (f : A -> M B) : M B :=
  fun s =>
    match m s with
    | (Returned a, s') => f a s'
    | (Thrown e, s') => (Thrown e, s')
    end.

Definition throw {A : Type} (e : Error) : M A := fun s => (Thrown e, s).

(** [try { m } catch { }]: the state changes made before the throw stay. *)
Definition try_catch {A : Type} (m : M A) (handler : M A) : M A :=
  fun s =>
    match m s with
    | (Returned a, s') => (Returned a, s')
    | (Thrown _, s') => handler s'
    end.

Definition gets {A : Type} (f : ServerState -> A) : M A :=
  fun s => (Returned (f s), s).

Definition modify (f : ServerState -> ServerState) : M unit :=
  fun s => (Returned tt, f s).

(** Reading a property of a closure variable that is still [undefined]
    is a [TypeError]. *)
Definition read {A : Type} (f : ServerState -> option A) : M A :=
  fun s =>
    match f s with
    | Some a => (Returned a, s)
    | None => (Thrown "TypeError", s)
    end.

Declare Scope monad_scope.
Delimit Scope monad_scope with monad.
Notation "x <- m ;; k" := (bind m (fun x => k))
  (at level 61, m at next level, right associativity) : monad_scope.
Notation "m ;; k" := (bind m (fun _ => k))
  (at level 61, right associativity) : monad_scope.
Open Scope monad_scope.

(** [for (const a of l) body(a)]. *)
Fixpoint for_each {A : Type} (body : A -> M unit) (l : list A) : M unit :=
  match l with
  | [] => ret tt
  | a :: l' => body a ;; for_each body l'
  end.

(** A loop that updates a local variable of the handler. *)
Fixpoint for_each_acc {A R : Type} (body : A -> R -> M R) (l : list A) (r : R)
    : M R :=
  match l with
  | [] => ret r
  | a :: l' => r' <- body a r ;; for_each_acc body l' r'
  end.

(** The elements of an array with their positions, from [start]. *)
Fixpoint indexed_from {A : Type} (start : nat) (l : list A) : list (nat * A) :=
  match l with
  | [] => []
  | a :: l' => (start, a) :: indexed_from (S start) l'
  end.

Definition indexed {A : Type} (l : list A) : list (nat * A) := indexed_from 0 l.

(** [await p]. *)
Definition await {A : Type} (p : Promise A) : M A :=
  match p with
  | Resolved a => ret a
  | Rejected e => throw e
  end.

(** ** The handlers of [startCommonLanguageServer] *)

Section Server.

Variable context : ServerContext.

(** A call to a collaborator: it is recorded, and it throws when the
    oracle says so. *)
Definition call (ev : Event) : M unit :=
  fun s =>
    match throws context (st_trace s) ev with
    | Some e => (Thrown e, log [ev] s)
    | None => (Returned tt, log [ev] s)
    end.

(** [projects.add(root)] on the registry held in [projects]. *)
Definition registry_add (projects : Projects) (root : URI) : M unit :=
  call (projects_add root) ;;
  modify (set_projects
            (Some {| workspaces := add_updates context root (workspaces projects) |})).

Definition registry_remove (projects : Projects) (root : URI) : M unit :=
  call (projects_remove root) ;;
  modify (set_projects
            (Some {| workspaces := remove_updates context root (workspaces projects) |})).

(** [createLanguageServiceHost]. *)
Definition createLanguageServiceHost : M unit :=
  options <- read st_options ;;
  ts <- match typescript options with
        | Some t =>
            call (loadTypescript (tsdk t)) ;;
            ret (loadTypescript_returns context (tsdk t))
        | None => ret false
        end ;;
  (if ts
   then (_ <- read st_initParams ;;
         call createFileSystemHost ;;
         modify (set_fsHost (Some TheFileSystemHost)))
   else modify (set_fsHost None)) ;;
  match typescript options with
  | Some t =>
      initParams <- read st_initParams ;;
      if truthy_string (locale initParams)
      then call (loadTypescriptLocalized (tsdk t) (value_of (locale initParams)))
      else ret tt
  | None => ret tt
  end ;;
  call (createCancellationTokenHost (cancellationPipeName options)) ;;
  fsHost <- gets st_fsHost ;;
  configurationHost <- gets st_configurationHost ;;
  call (createWorkspaces (is_some fsHost) (is_some configurationHost)) ;;
  modify (set_projects
            (Some {| workspaces := createWorkspaces_returns context |})) ;;
  roots <- gets st_roots ;;
  for_each (fun root =>
              projects <- read st_projects ;;
              registry_add projects root) roots ;;
  call register_customFeatures ;;
  call (register_languageFeatures (getSemanticTokensLegend options)) ;;
  plugins <- read st_plugins ;;
  for_each (fun ip : nat * PluginInstance =>
              if onInitialized_hook (snd ip)
              then call (plugin_onInitialized (fst ip))
              else ret tt) (indexed plugins).

(** The [try] block around [require('../package.json')]. *)
Definition load_serverInfo (result : InitializeResult) : M InitializeResult :=
  try_catch
    (call require_packageJson ;;
     ret {| res_capabilities := res_capabilities result;
            serverInfo := Some (packageJson context) |})
    (ret result).

(** The handler given to [connection.onInitialize]. *)
Definition onInitialize (_params : InitializeParams) : M InitializeResult :=
  modify (set_initParams (Some _params)) ;;
  let options := initializationOptions _params in
  modify (set_options (Some options)) ;;
  let plugins := map (fun plugin => plugin options) (ctx_plugins context) in
  modify (set_plugins (Some plugins)) ;;
  match l10n options with
  | Some l => call (l10n_config (location l))
  | None => ret tt
  end ;;
  modify (fun s => set_roots (initial_roots _params (st_roots s)) s) ;;
  let result := initial_result options in
  (if cap_configuration (capabilities _params)
   then (call createConfigurationHost ;;
         modify (set_configurationHost (Some TheConfigurationHost)))
   else modify (set_configurationHost None)) ;;
  call (setupCapabilities (getSemanticTokensLegend options)) ;;
  let result := {|
    res_capabilities :=
      setupCapabilities_sets context (capabilities _params)
        (res_capabilities result) options plugins
        (getSemanticTokensLegend options);
    serverInfo := serverInfo result |} in
  createLanguageServiceHost ;;
  result <- load_serverInfo result ;;
  result <- for_each_acc
              (fun (ip : nat * PluginInstance) (result : InitializeResult) =>
                 match onInitialize_hook (snd ip) with
                 | Some hook =>
                     call (plugin_onInitialize (fst ip)) ;;
                     ret (hook result)
                 | None => ret result
                 end) (indexed plugins) result ;;
  ret result.

(** The handler given to [connection.workspace.onDidChangeWorkspaceFolders]. *)
Definition didChangeWorkspaceFolders_handler
    (added removed : list WorkspaceFolder) : M unit :=
  for_each (fun folder =>
              projects <- gets st_projects ;;
              match projects with
              | Some projects => registry_add projects (URI_parse (uri folder))
              | None => ret tt
              end) added ;;
  for_each (fun folder =>
              projects <- gets st_projects ;;
              match projects with
              | Some projects => registry_remove projects (URI_parse (uri folder))
              | None => ret tt
              end) removed.

(** The handler given to [connection.onInitialized]. *)
Definition onInitialized : M unit :=
  fsHost <- gets st_fsHost ;;
  (if is_some fsHost then call fsHost_ready else ret tt) ;;
  configurationHost <- gets st_configurationHost ;;
  (if is_some configurationHost then call configurationHost_ready else ret tt) ;;
  initParams <- read st_initParams ;;
  (if cap_workspaceFolders (capabilities initParams)
   then (call onDidChangeWorkspaceFolders ;;
         modify (fun s => set_foldersListeners (S (st_foldersListeners s)) s))
   else ret tt) ;;
  options <- read st_options ;;
  if watcher_wanted options initParams
  then
    plugins <- read st_plugins ;;
    let exts := watcher_exts plugins in
    match exts with
    | _ :: _ => call (client_register_DidChangeWatchedFiles (watcher_glob exts))
    | [] => ret tt
    end
  else ret tt.

(** The body of the loop of the shutdown handler:
    [(await workspace[1]).dispose()]. *)
Definition dispose_workspace (workspace : string * Promise Workspace) : M unit :=
  w <- await (snd workspace) ;;
  call (workspace_dispose w).

(** The handler given to [connection.onShutdown]. *)
Definition onShutdown : M unit :=
  projects <- gets st_projects ;;
  match projects with
  | Some projects => for_each dispose_workspace (workspaces projects)
  | None => ret tt
  end.

(** ** Sessions

    The messages of a client and their dispatch by the connection.  An
    error thrown by the handler of a request goes back to the client; the
    server state stays as the handler left it. *)
Inductive Message :=
| Initialize (params : InitializeParams)
| Initialized
| DidChangeWorkspaceFolders (added removed : list WorkspaceFolder)
| Shutdown.

(** The event of the connection fires: each of its [listeners] runs
    [listener], one after the other; what a run throws is caught by the
    connection, and the next listener runs in the state that run left. *)
Fixpoint fire (listeners : nat) (listener : M unit) : M unit :=
  match listeners with
  | 0 => ret tt
  | S listeners' => try_catch listener (ret tt) ;; fire listeners' listener
  end.

(** The dispatch of a workspace-folder notification: the handler runs
    once for every time it was given to the connection. *)
Definition didChangeWorkspaceFolders (added removed : list WorkspaceFolder)
    : M unit :=
  listeners <- gets st_foldersListeners ;;
  fire listeners (didChangeWorkspaceFolders_handler added removed).

(** What the connection does with an [initialize] request before it calls
    the handler: for a client with workspace-folder support it starts a
    new workspace-folder event, which has no listener. *)
Definition connection_initialize (params : InitializeParams) (s : ServerState)
    : ServerState :=
  if cap_workspaceFolders (capabilities params)
  then set_foldersListeners 0 s
  else s.

Definition handle (msg : Message) (s : ServerState) : ServerState :=
  match msg with
  | Initialize params => snd (onInitialize params (connection_initialize params s))
  | Initialized => snd (onInitialized s)
  | DidChangeWorkspaceFolders added removed =>
      snd (didChangeWorkspaceFolders added removed s)
  | Shutdown => snd (onShutdown s)
  end.

Definition run (msgs : list Message) (s : ServerState) : ServerState :=
  fold_left (fun s msg => handle msg s) msgs s.

End Server.

(** ** The calls of a handshake

    The calls the [initialize] handler makes when none aborts it, in
    order, as a function of the request and of the state it starts from. *)

Definition typescript_loaded (context : ServerContext)
    (options : LanguageServerInitializationOptions) : bool :=
  match typescript options with
  | Some t => loadTypescript_returns context (tsdk t)
  | None => false
  end.

Definition onInitialized_calls (l : list (nat * PluginInstance)) : list Event :=
  flat_map (fun ip : nat * PluginInstance =>
              if onInitialized_hook (snd ip)
              then [plugin_onInitialized (fst ip)] else []) l.

Definition onInitialize_calls (l : list (nat * PluginInstance)) : list Event :=
  flat_map (fun ip : nat * PluginInstance =>
              match onInitialize_hook (snd ip) with
              | Some _ => [plugin_onInitialize (fst ip)]
              | None => []
              end) l.

(** The result after the first hook of every plugin has seen it. *)
Definition apply_hooks (l : list (nat * PluginInstance)) (r : InitializeResult)
    : InitializeResult :=
  fold_left (fun r (ip : nat * PluginInstance) =>
               match onInitialize_hook (snd ip) with
               | Some hook => hook r
               | None => r
               end) l r.

(** The registry after [projects.add] of each root in turn. *)
Definition registry_after_adds (context : ServerContext) (roots : list URI)
    (m : WorkspaceMap) : WorkspaceMap :=
  fold_left (fun m root => add_updates context root m) roots m.

Definition registry_after_removes (context : ServerContext) (roots : list URI)
    (m : WorkspaceMap) : WorkspaceMap :=
  fold_left (fun m root => remove_updates context root m) roots m.

(** The calls of [createLanguageServiceHost] up to [createWorkspaces]. *)
Definition engine_calls (context : ServerContext)
    (options : LanguageServerInitializationOptions)
    (initParams : InitializeParams) (configured : bool) : list Event :=
  match typescript options with
  | Some t => [loadTypescript (tsdk t)]
  | None => []
  end ++
  (if typescript_loaded context options then [createFileSystemHost] else []) ++
  match typescript options with
  | Some t =>
      if truthy_string (locale initParams)
      then [loadTypescriptLocalized (tsdk t) (value_of (locale initParams))]
      else []
  | None => []
  end ++
  [createCancellationTokenHost (cancellationPipeName options);
   createWorkspaces (typescript_loaded context options) configured].

Definition host_calls (context : ServerContext)
    (options : LanguageServerInitializationOptions)
    (initParams : InitializeParams) (configured : bool) (roots : list URI)
    (plugins : list PluginInstance) : list Event :=
  engine_calls context options initParams configured ++
  map projects_add roots ++
  [register_customFeatures;
   register_languageFeatures (getSemanticTokensLegend options)] ++
  onInitialized_calls (indexed plugins).

Definition session_plugins (context : ServerContext) (_params : InitializeParams)
    : list PluginInstance :=
  map (fun plugin => plugin (initializationOptions _params))
      (ctx_plugins context).

(** The calls before [createLanguageServiceHost]. *)
Definition negotiation_calls (_params : InitializeParams) : list Event :=
  match l10n (initializationOptions _params) with
  | Some l => [l10n_config (location l)]
  | None => []
  end ++
  (if cap_configuration (capabilities _params)
   then [createConfigurationHost] else []) ++
  [setupCapabilities (getSemanticTokensLegend (initializationOptions _params))].

Definition handshake_calls (context : ServerContext)
    (_params : InitializeParams) (roots : list URI) : list Event :=
  negotiation_calls _params ++
  host_calls context (initializationOptions _params) _params
    (cap_configuration (capabilities _params))
    (initial_roots _params roots) (session_plugins context _params) ++
  [require_packageJson] ++
  onInitialize_calls (indexed (session_plugins context _params)).

(** The capabilities after [setupCapabilities]. *)
Definition negotiated_capabilities (context : ServerContext)
    (_params : InitializeParams) : ServerCapabilities :=
  setupCapabilities_sets context (capabilities _params)
    (res_capabilities (initial_result (initializationOptions _params)))
    (initializationOptions _params) (session_plugins context _params)
    (getSemanticTokensLegend (initializationOptions _params)).

(** The closure variables after a handshake that ran to its end. *)
Definition handshake_state (context : ServerContext)
    (_params : InitializeParams) (s : ServerState) : ServerState := {|
  st_initParams := Some _params;
  st_options := Some (initializationOptions _params);
  st_roots := initial_roots _params (st_roots s);
  st_fsHost :=
    if typescript_loaded context (initializationOptions _params)
    then Some TheFileSystemHost else None;
  st_projects :=
    Some {| workspaces :=
              registry_after_adds context (initial_roots _params (st_roots s))
                (createWorkspaces_returns context) |};
  st_configurationHost :=
    if cap_configuration (capabilities _params)
    then Some TheConfigurationHost else None;
  st_plugins := Some (session_plugins context _params);
  st_foldersListeners := st_foldersListeners s;
  st_trace := st_trace s ++ handshake_calls context _params (st_roots s);
|}.


(** The [serverInfo] the [try] block leaves in [result], when the calls
    in [tr] were made before it. *)
Definition serverInfo_after (context : ServerContext) (tr : list Event)
    : option ServerInfo :=
  match throws context tr require_packageJson with
  | Some _ => None
  | None => Some (packageJson context)
  end.

(** The response of a handshake that ran to its end from state [s]. *)
Definition handshake_result (context : ServerContext)
    (_params : InitializeParams) (s : ServerState) : InitializeResult :=
  apply_hooks (indexed (session_plugins context _params))
    {| res_capabilities := negotiated_capabilities context _params;
       serverInfo :=
         serverInfo_after context
           (st_trace s ++
            negotiation_calls _params ++
            host_calls context (initializationOptions _params) _params
              (cap_configuration (capabilities _params))
              (initial_roots _params (st_roots s))
              (session_plugins context _params)) |}.


(** ** A program logic for the handlers

    [triple m s evs Q] describes one run of [m] from [s]: a run that
    returns has made exactly the calls [evs] and ends in a state
    satisfying [Q]; a run that throws has made a prefix of [evs] and was
    aborted by its last call, which is not the guarded [require]. *)

Definition uncaught (ev : Event) : Prop := ev <> require_packageJson.

Definition triple {A : Type} (context : ServerContext) (m : M A)
    (s : ServerState) (evs : list Event) (Q : A -> ServerState -> Prop) : Prop :=
  match m s with
  | (Returned a, s') => st_trace s' = st_trace s ++ evs /\ Q a s'
  | (Thrown e, s') =>
      exists pre ev rest,
        evs = pre ++ ev :: rest /\
        st_trace s' = st_trace s ++ pre ++ [ev] /\
        throws context (st_trace s ++ pre) ev = Some e /\
        uncaught ev
  end.

(** ** The calls of the [initialized] handler

    The calls the handler makes from state [s] when none aborts it.  A
    closure variable that is still [undefined] ends the handler with a
    [TypeError] where it is first read. *)
Definition initialized_calls (s : ServerState) : list Event :=
  (if is_some (st_fsHost s) then [fsHost_ready] else []) ++
  (if is_some (st_configurationHost s) then [configurationHost_ready] else []) ++
  match st_initParams s with
  | None => []
  | Some initParams =>
      (if cap_workspaceFolders (capabilities initParams)
       then [onDidChangeWorkspaceFolders] else []) ++
      match st_options s with
      | None => []
      | Some options =>
          if watcher_wanted options initParams
          then
            match st_plugins s with
            | None => []
            | Some plugins =>
                match watcher_exts plugins with
                | _ :: _ =>
                    [client_register_DidChangeWatchedFiles
                       (watcher_glob (watcher_exts plugins))]
                | [] => []
                end
            end
          else []
      end
  end.

(** The watcher extensions as the specification words them: the base set
    and the contributions of the plugins, without duplicates. *)
Definition spec_watcher_exts (base : list string)
    (plugins : list PluginInstance) : list string :=
  nodup string_dec (base ++ watcher_exts plugins).

(** [emits m s evs Q]: a run of [m] from [s] that returns has made
    exactly the calls [evs] and ends in a state satisfying [Q]; a run
    that throws, for whatever reason, has made a prefix of [evs]. *)
Definition emits {A : Type} (m : M A) (s : ServerState) (evs : list Event)
    (Q : A -> ServerState -> Prop) : Prop :=
  match m s with
  | (Returned a, s') => st_trace s' = st_trace s ++ evs /\ Q a s'
  | (Thrown e, s') =>
      exists pre rest, evs = pre ++ rest /\ st_trace s' = st_trace s ++ pre
  end.

(** [preserves I m]: every run of [m], returning or throwing, keeps the
    state property [I]. *)
Definition preserves {A : Type} (I : ServerState -> Prop) (m : M A) : Prop :=
  forall s, I s -> I (snd (m s)).

(** [calls_only K m]: every call a run of [m] makes, returning or
    throwing, satisfies [K]. *)
Definition calls_only {A : Type} (K : Event -> Prop) (m : M A) : Prop :=
  forall s, exists calls,
    st_trace (snd (m s)) = st_trace s ++ calls /\ Forall K calls.

(** The calls of the two hooks of the plugins. *)
Definition is_plugin_hook (ev : Event) : bool :=
  match ev with
  | plugin_onInitialized _ | plugin_onInitialize _ => true
  | _ => false
  end.

(** ** Reading a trace *)

(** The roots given to [projects.add], to [projects.remove], and the hosts
    disposed, in call order. *)
Definition added_roots (calls : list Event) : list URI :=
  flat_map (fun ev => match ev with projects_add root => [root] | _ => [] end)
           calls.

Definition removed_roots (calls : list Event) : list URI :=
  flat_map (fun ev => match ev with projects_remove root => [root] | _ => [] end)
           calls.

Definition disposed (calls : list Event) : list Workspace :=
  flat_map (fun ev => match ev with workspace_dispose w => [w] | _ => [] end)
           calls.

(** ** Example sessions *)

Definition registry_key (root : URI) : string :=
  match root with
  | URI_parse value => value
  | URI_file path => ("file://" ++ path)%string
  end.

(** Collaborators that never throw, with a registry that keeps one host
    per added root. *)
Definition quiet_context (plugins : list LanguageServerPlugin) : ServerContext := {|
  ctx_plugins := plugins;
  throws := fun _ _ => None;
  loadTypescript_returns := fun _ => true;
  setupCapabilities_sets := fun _ caps _ _ _ => caps;
  packageJson :=
    {| si_name := "@volar/language-server"; si_version := "1.0.0" |};
  createWorkspaces_returns := [];
  add_updates := fun root m =>
    m ++ [(registry_key root, Resolved (WorkspaceHandle (List.length m)))];
  remove_updates := fun root m =>
    filter (fun kv => negb (String.eqb (fst kv) (registry_key root))) m;
|}.

(** The same collaborators with another oracle. *)
Definition with_throws (oracle : list Event -> Event -> option Error)
    (context : ServerContext) : ServerContext := {|
  ctx_plugins := ctx_plugins context;
  throws := oracle;
  loadTypescript_returns := loadTypescript_returns context;
  setupCapabilities_sets := setupCapabilities_sets context;
  packageJson := packageJson context;
  createWorkspaces_returns := createWorkspaces_returns context;
  add_updates := add_updates context;
  remove_updates := remove_updates context;
|}.

Definition example_options : LanguageServerInitializationOptions := {|
  l10n := None;
  typescript := Some {| tsdk := "node_modules/typescript/lib" |};
  textDocumentSync := None;
  serverMode := None;
  disableFileWatcher := None;
  cancellationPipeName := None;
  semanticTokensLegend := None;
|}.

Definition example_capabilities : ClientCapabilities := {|
  workspace := Some {|
    ws_workspaceFolders := Some true;
    ws_configuration := Some true;
    ws_didChangeWatchedFiles := Some {| dynamicRegistration := Some true |};
  |};
|}.

Definition example_params : InitializeParams := {|
  capabilities := example_capabilities;
  workspaceFolders :=
    Some [{| uri := "file:///a"; name := "a" |};
          {| uri := "file:///b"; name := "b" |}];
  rootUri := Some "file:///a";
  rootPath := None;
  locale := None;
  initializationOptions := example_options;
|}.

(** A client without workspace capabilities that names one root. *)
Definition plain_params : InitializeParams := {|
  capabilities := {| workspace := None |};
  workspaceFolders := None;
  rootUri := Some "file:///a";
  rootPath := None;
  locale := None;
  initializationOptions := example_options;
|}.

(** A plugin that watches [vue] files and declares both hooks; its first
    hook adds a feature to the capabilities. *)
Definition vue_plugin : LanguageServerPlugin := fun _ => {|
  extensions_fileWatcher := Some ["vue"];
  onInitialize_hook := Some (fun result => {|
    res_capabilities := {|
      sc_textDocumentSync := sc_textDocumentSync (res_capabilities result);
      sc_features := "vue" :: sc_features (res_capabilities result) |};
    serverInfo := serverInfo result |});
  onInitialized_hook := true;
|}.

(** A plugin whose first hook asks for full-document sync,
    [TextDocumentSyncKind.Full] (1). *)
Definition full_sync_plugin : LanguageServerPlugin := fun _ => {|
  extensions_fileWatcher := None;
  onInitialize_hook := Some (fun result => {|
    res_capabilities := {|
      sc_textDocumentSync := Some 1%Z;
      sc_features := sc_features (res_capabilities result) |};
    serverInfo := serverInfo result |});
  onInitialized_hook := false;
|}.

(** An oracle under which only the package metadata fails to load. *)
Definition metadata_missing (tr : list Event) (ev : Event) : option Error :=
  match ev with
  | require_packageJson => Some "Cannot find module '../package.json'"
  | _ => None
  end.

(** An oracle under which disposing the first host fails. *)
Definition first_dispose_fails (tr : list Event) (ev : Event) : option Error :=
  match ev with
  | workspace_dispose (WorkspaceHandle 0) => Some "dispose failed"
  | _ => None
  end.

(** An oracle under which the hook that receives the response throws. *)
Definition first_hook_fails (tr : list Event) (ev : Event) : option Error :=
  match ev with
  | plugin_onInitialize _ => Some "hook failed"
  | _ => None
  end.

(** ** The order of the hooks, as the specification words it

    The first hook of the specification is the one that receives the
    response, [onInitialize]; the second is the one that receives the
    language service getter, [onInitialized].  [first_hook_before_second]
    says of a trace that whenever the second hook of a plugin is called,
    the first hook of that plugin was called before. *)
Definition first_hook_before_second (calls : list Event) : Prop :=
  forall i before after,
    calls = before ++ plugin_onInitialized i :: after ->
    In (plugin_onInitialize i) before.

(** ** More example data *)

(** An oracle under which the localisation bundle fails to load. *)
Definition l10n_fails (tr : list Event) (ev : Event) : option Error :=
  match ev with
  | l10n_config _ => Some "l10n failed"
  | _ => None
  end.

(** An oracle under which the registry refuses the root [file:///c]. *)
Definition add_of_c_fails (tr : list Event) (ev : Event) : option Error :=
  match ev with
  | projects_add (URI_parse "file:///c") => Some "add failed"
  | _ => None
  end.

(** Options that ask for a localisation bundle. *)
Definition l10n_options : LanguageServerInitializationOptions := {|
  l10n := Some {| location := "file:///l10n" |};
  typescript := None;
  textDocumentSync := None;
  serverMode := None;
  disableFileWatcher := None;
  cancellationPipeName := None;
  semanticTokensLegend := None;
|}.

Definition l10n_params : InitializeParams := {|
  capabilities := example_capabilities;
  workspaceFolders := None;
  rootUri := Some "file:///a";
  rootPath := None;
  locale := None;
  initializationOptions := l10n_options;
|}.

(** A request that names no root at all. *)
Definition rootless_params : InitializeParams := {|
  capabilities := {| workspace := None |};
  workspaceFolders := None;
  rootUri := None;
  rootPath := None;
  locale := None;
  initializationOptions := example_options;
|}.

(** A client with workspace-folder support that sends an empty folder
    list next to a [rootUri]. *)
Definition empty_folders_params : InitializeParams := {|
  capabilities := example_capabilities;
  workspaceFolders := Some [];
  rootUri := Some "file:///a";
  rootPath := None;
  locale := None;
  initializationOptions := example_options;
|}.

(** A plugin without hooks and without watched extensions. *)
Definition bare_plugin : LanguageServerPlugin := fun _ => {|
  extensions_fileWatcher := None;
  onInitialize_hook := None;
  onInitialized_hook := false;
|}.

(** A state whose registry holds three hosts, the second of which failed
    to load. *)
Definition state_with_rejected_host : ServerState :=
  set_projects
    (Some {| workspaces :=
               [("file:///a", Resolved (WorkspaceHandle 0));
                ("file:///b", Rejected "load failed");
                ("file:///c", Resolved (WorkspaceHandle 2))] |})
    initial_state.

(** ** The report-stats command of the editor extension

    [register] of the client-side module: it registers a command whose
    callback sends the [ReportStats] notification to every client, one
    after the other, and then toggles the output panel.  The calls to the
    editor and to the clients are recorded in a trace and may throw
    (reject), as an oracle says. *)

Inductive LanguageClient := ClientHandle (id : nat).

Inductive EditorEvent :=
| registerCommand (cmd : string)
| sendNotification_ReportStats (client : LanguageClient)
| executeCommand (command : string).

Definition Editor (A : Type) : Type :=
  list EditorEvent -> Outcome A * list EditorEvent.

Definition editor_ret {A : Type} (a : A) : Editor A :=
  fun tr => (Returned a, tr).

Definition editor_bind {A B : Type} (m : Editor A) (k : A -> Editor B)
    : Editor B :=
  fun tr =>
    match m tr with
    | (Returned a, tr') => k a tr'
    | (Thrown e, tr') => (Thrown e, tr')
    end.

Definition editor_call
    (rejects : list EditorEvent -> EditorEvent -> option Error)
    (ev : EditorEvent) : Editor unit :=
  fun tr =>
    match rejects tr ev with
    | Some e => (Thrown e, tr ++ [ev])
    | None => (Returned tt, tr ++ [ev])
    end.

Fixpoint editor_for_each {A : Type} (body : A -> Editor unit) (l : list A)
    : Editor unit :=
  match l with
  | [] => editor_ret tt
  | a :: l' => editor_bind (body a) (fun _ => editor_for_each body l')
  end.

(** The callback given to [vscode.commands.registerCommand]. *)
Definition reportStats_callback
    (rejects : list EditorEvent -> EditorEvent -> option Error)
    (clients : list LanguageClient) : Editor unit :=
  editor_bind
    (editor_for_each
       (fun client => editor_call rejects (sendNotification_ReportStats client))
       clients)
    (fun _ =>
       editor_call rejects (executeCommand "workbench.action.output.toggleOutput")).

(** What [registerCommand] keeps: the command and its callback. *)
Record Registration := {
  reg_command : string;
  reg_callback : Editor unit;
}.

(** [register(cmd, clients)]. *)
Definition register
    (rejects : list EditorEvent -> EditorEvent -> option Error)
    (cmd : string) (clients : list LanguageClient) : Editor Registration :=
  editor_bind (editor_call rejects (registerCommand cmd))
    (fun _ =>
       editor_ret {| reg_command := cmd;
                     reg_callback := reportStats_callback rejects clients |}).

(** The clients notified in a trace, in call order, and the commands
    executed. *)
Definition notified (tr : list EditorEvent) : list LanguageClient :=
  flat_map (fun ev =>
              match ev with
              | sendNotification_ReportStats client => [client]
              | _ => []
              end) tr.

Definition executed (tr : list EditorEvent) : list string :=
  flat_map (fun ev =>
              match ev with
              | executeCommand command => [command]
              | _ => []
              end) tr.

(** An oracle under which the second client rejects the notification. *)
Definition second_client_rejects (tr : list EditorEvent) (ev : EditorEvent)
    : option Error :=
  match ev with
  | sendNotification_ReportStats (ClientHandle 1) => Some "client stopped"
  | _ => None
  end.

(** ** Rules of the program logic *)

Section Logic.

Variable context : ServerContext.

Lemma triple_ret {A : Type} (a : A) s (Q : A -> ServerState -> Prop) :
  Q a s -> triple context (ret a) s [] Q.
Proof.
  intros HQ. unfold triple, ret. split; [now rewrite app_nil_r | exact HQ].
Qed.

Lemma triple_call ev s (Q : unit -> ServerState -> Prop) :
  uncaught ev -> Q tt (log [ev] s) ->
  triple context (call context ev) s [ev] Q.
Proof.
  intros Hu HQ. unfold triple, call.
  destruct (throws context (st_trace s) ev) as [e|] eqn:Hthrows.
  - exists [], ev, []. simpl. rewrite app_nil_r. auto.
  - simpl. auto.
Qed.

Lemma triple_bind {A B : Type} (m : M A) (f : A -> M B) s e1 e2
    (Q1 : A -> ServerState -> Prop) (Q2 : B -> ServerState -> Prop) :
  triple context m s e1 Q1 ->
  (forall a s1, Q1 a s1 -> st_trace s1 = st_trace s ++ e1 ->
                triple context (f a) s1 e2 Q2) ->
  triple context (bind m f) s (e1 ++ e2) Q2.
Proof.
  unfold triple, bind. intros Hm Hf.
  destruct (m s) as [[a|e] s1].
  - destruct Hm as [Htr HQ1]. specialize (Hf a s1 HQ1 Htr).
    destruct (f a s1) as [[b|e] s2].
    + destruct Hf as [Htr2 HQ2]. split; [|exact HQ2].
      rewrite Htr2, Htr. now rewrite app_assoc.
    + destruct Hf as (pre & ev & rest & -> & Htr2 & Hthrows & Hu).
      exists (e1 ++ pre), ev, rest. repeat split.
      * now rewrite <- app_assoc.
      * rewrite Htr2, Htr. now rewrite <- !app_assoc.
      * rewrite app_assoc, <- Htr. exact Hthrows.
      * exact Hu.
  - destruct Hm as (pre & ev & rest & -> & Htr & Hthrows & Hu).
    exists pre, ev, (rest ++ e2). repeat split; auto.
    now rewrite <- app_assoc.
Qed.

Lemma triple_conseq {A : Type} (m : M A) s evs
    (Q Q' : A -> ServerState -> Prop) :
  triple context m s evs Q -> (forall a s', Q a s' -> Q' a s') ->
  triple context m s evs Q'.
Proof.
  unfold triple. intros Hm HQ. destruct (m s) as [[a|e] s']; [|exact Hm].
  destruct Hm; split; auto.
Qed.

(** A call followed by the rest of the handler. *)
Lemma triple_call_bind {B : Type} ev (k : unit -> M B) s evs
    (Q : B -> ServerState -> Prop) :
  uncaught ev ->
  triple context (k tt) (log [ev] s) evs Q ->
  triple context (bind (call context ev) k) s (ev :: evs) Q.
Proof.
  intros Hu Hk. change (ev :: evs) with ([ev] ++ evs).
  apply triple_bind with (Q1 := fun _ s1 => s1 = log [ev] s).
  - now apply triple_call.
  - intros [] s1 -> _. exact Hk.
Qed.

(** Steps that make no call: they run by computation. *)
Lemma triple_pure_bind {A B : Type} (m : M A) (k : A -> M B) s a s1 evs
    (Q : B -> ServerState -> Prop) :
  m s = (Returned a, s1) -> st_trace s1 = st_trace s ->
  triple context (k a) s1 evs Q ->
  triple context (bind m k) s evs Q.
Proof.
  unfold triple, bind. intros -> Htr. rewrite Htr. auto.
Qed.

(** What a run tells when it returns, and when no call throws. *)
Lemma triple_returned {A : Type} (m : M A) s evs Q a s' :
  triple context m s evs Q -> m s = (Returned a, s') ->
  st_trace s' = st_trace s ++ evs /\ Q a s'.
Proof. unfold triple. intros H Hrun. now rewrite Hrun in H. Qed.

Lemma triple_prefix {A : Type} (m : M A) s evs Q :
  triple context m s evs Q ->
  exists rest, st_trace s ++ evs = st_trace (snd (m s)) ++ rest.
Proof.
  unfold triple. destruct (m s) as [[a|e] s']; simpl.
  - intros [-> _]. exists []. now rewrite app_nil_r.
  - intros (pre & ev & rest & -> & -> & _). exists rest.
    now rewrite <- !app_assoc.
Qed.

Lemma triple_progress {A : Type} (m : M A) s evs Q :
  triple context m s evs Q ->
  (forall tr ev, uncaught ev -> throws context tr ev = None) ->
  exists a s', m s = (Returned a, s') /\
               st_trace s' = st_trace s ++ evs /\ Q a s'.
Proof.
  unfold triple. intros H Hquiet. destruct (m s) as [[a|e] s'].
  - exists a, s'. tauto.
  - destruct H as (pre & ev & rest & _ & _ & Hthrows & Hu).
    rewrite (Hquiet _ _ Hu) in Hthrows. discriminate.
Qed.

Lemma triple_modify (f : ServerState -> ServerState) s
    (Q : unit -> ServerState -> Prop) :
  st_trace (f s) = st_trace s -> Q tt (f s) ->
  triple context (modify f) s [] Q.
Proof.
  intros Htr HQ. unfold triple, modify. rewrite Htr, app_nil_r. auto.
Qed.

Lemma triple_bind_ret {A : Type} (m : M A) s evs
    (Q : A -> ServerState -> Prop) :
  triple context m s evs Q ->
  triple context (bind m (fun a => ret a)) s evs Q.
Proof.
  unfold triple, bind, ret. now destruct (m s) as [[a|e] s'].
Qed.

End Logic.

(** One step of a handler. *)
Lemma bind_run {A B : Type} (m : M A) (k : A -> M B) s :
  bind m k s =
  match m s with
  | (Returned a, s1) => k a s1
  | (Thrown e, s1) => (Thrown e, s1)
  end.
Proof. reflexivity. Qed.

(** ** Properties of the loops *)

Lemma log_log evs1 evs2 s : log evs2 (log evs1 s) = log (evs1 ++ evs2) s.
Proof. unfold log. simpl. now rewrite app_assoc. Qed.

Lemma log_nil s : log [] s = s.
Proof. destruct s. unfold log. simpl. now rewrite app_nil_r. Qed.

Section Loops.

Variable context : ServerContext.

Lemma uncaught_plugin_onInitialized i : uncaught (plugin_onInitialized i).
Proof. discriminate. Qed.

Lemma uncaught_plugin_onInitialize i : uncaught (plugin_onInitialize i).
Proof. discriminate. Qed.

Lemma uncaught_projects_add r : uncaught (projects_add r).
Proof. discriminate. Qed.

Lemma uncaught_projects_remove r : uncaught (projects_remove r).
Proof. discriminate. Qed.

(** The loop over the second hooks calls each declared hook once, in the
    order of [plugins], and touches no closure variable. *)
Lemma onInitialized_loop l s :
  triple context
    (for_each (fun ip : nat * PluginInstance =>
                 if onInitialized_hook (snd ip)
                 then call context (plugin_onInitialized (fst ip))
                 else ret tt) l)
    s (onInitialized_calls l)
    (fun _ s' => s' = log (onInitialized_calls l) s).
Proof.
  revert s. induction l as [|[i p] l IH]; intros s.
  - apply triple_ret. now rewrite log_nil.
  - simpl. unfold onInitialized_calls. simpl.
    destruct (onInitialized_hook p).
    + apply triple_call_bind; [apply uncaught_plugin_onInitialized|].
      eapply triple_conseq; [apply IH|].
      intros _ s' ->. now rewrite log_log.
    + eapply triple_pure_bind; [reflexivity|reflexivity|]. apply IH.
Qed.

(** The loop over the first hooks calls each declared hook once, in the
    order of [plugins], and hands [result] from one hook to the next. *)
Lemma onInitialize_loop l result s :
  triple context
    (for_each_acc
       (fun (ip : nat * PluginInstance) (result : InitializeResult) =>
          match onInitialize_hook (snd ip) with
          | Some hook =>
              call context (plugin_onInitialize (fst ip)) ;; ret (hook result)
          | None => ret result
          end) l result)
    s (onInitialize_calls l)
    (fun r s' => r = apply_hooks l result /\ s' = log (onInitialize_calls l) s).
Proof.
  revert result s. induction l as [|[i p] l IH]; intros result s.
  - apply triple_ret. now rewrite log_nil.
  - simpl. unfold onInitialize_calls, apply_hooks. simpl.
    destruct (onInitialize_hook p) as [hook|].
    + change (plugin_onInitialize i :: ?l) with ([plugin_onInitialize i] ++ l).
      eapply triple_bind.
      * apply triple_call_bind; [apply uncaught_plugin_onInitialize|].
        apply triple_ret.
        instantiate (1 := fun r s1 => r = hook result /\ s1 = log [plugin_onInitialize i] s).
        simpl. auto.
      * intros r s1 [-> ->] _.
        eapply triple_conseq; [apply IH|].
        intros r s' [-> ->]. split; [reflexivity|]. now rewrite log_log.
    + eapply triple_pure_bind; [reflexivity|reflexivity|]. apply IH.
Qed.

(** The loop over the initial roots adds each root once, in order. *)
Lemma initial_roots_loop roots s projects :
  st_projects s = Some projects ->
  triple context
    (for_each (fun root =>
                 projects <- read st_projects ;;
                 registry_add context projects root) roots)
    s (map projects_add roots)
    (fun _ s' =>
       s' = log (map projects_add roots)
              (set_projects
                 (Some {| workspaces :=
                            registry_after_adds context roots
                              (workspaces projects) |}) s)).
Proof.
  revert s projects. induction roots as [|root roots IH]; intros s projects Hp.
  - apply triple_ret. simpl. rewrite log_nil.
    destruct s, projects. simpl in *. now subst.
  - simpl.
    change (projects_add root :: map projects_add roots)
      with ([projects_add root] ++ map projects_add roots).
    eapply triple_bind
      with (Q1 := fun _ s1 =>
                    s1 = log [projects_add root]
                           (set_projects
                              (Some {| workspaces :=
                                         add_updates context root
                                           (workspaces projects) |}) s)).
    + eapply triple_pure_bind with (a := projects) (s1 := s);
        [unfold read; now rewrite Hp|reflexivity|].
      unfold registry_add.
      apply triple_call_bind; [apply uncaught_projects_add|].
      apply triple_modify; reflexivity.
    + intros _ s1 -> _.
      eapply triple_conseq; [apply IH; reflexivity|].
      intros _ s' ->. unfold log, set_projects. simpl.
      now rewrite <- app_assoc.
Qed.

(** The same loop in the workspace-folder handler, where [projects] may
    still be [undefined]: then nothing is called. *)
Lemma added_folders_loop folders s projects :
  st_projects s = Some projects ->
  triple context
    (for_each (fun folder =>
                 projects <- gets st_projects ;;
                 match projects with
                 | Some projects =>
                     registry_add context projects (URI_parse (uri folder))
                 | None => ret tt
                 end) folders)
    s (map (fun folder => projects_add (URI_parse (uri folder))) folders)
    (fun _ s' =>
       s' = log (map (fun folder => projects_add (URI_parse (uri folder))) folders)
              (set_projects
                 (Some {| workspaces :=
                            registry_after_adds context
                              (map (fun folder => URI_parse (uri folder)) folders)
                              (workspaces projects) |}) s)).
Proof.
  revert s projects. induction folders as [|folder folders IH];
    intros s projects Hp.
  - apply triple_ret. simpl. rewrite log_nil.
    destruct s, projects. simpl in *. now subst.
  - simpl.
    change (projects_add (URI_parse (uri folder)) :: ?l)
      with ([projects_add (URI_parse (uri folder))] ++ l).
    eapply triple_bind
      with (Q1 := fun _ s1 =>
                    s1 = log [projects_add (URI_parse (uri folder))]
                           (set_projects
                              (Some {| workspaces :=
                                         add_updates context
                                           (URI_parse (uri folder))
                                           (workspaces projects) |}) s)).
    + eapply triple_pure_bind with (a := Some projects) (s1 := s);
        [unfold gets; now rewrite Hp|reflexivity|].
      unfold registry_add.
      apply triple_call_bind; [apply uncaught_projects_add|].
      apply triple_modify; reflexivity.
    + intros _ s1 -> _.
      eapply triple_conseq; [apply IH; reflexivity|].
      intros _ s' ->. unfold log, set_projects. simpl.
      now rewrite <- app_assoc.
Qed.

Lemma removed_folders_loop folders s projects :
  st_projects s = Some projects ->
  triple context
    (for_each (fun folder =>
                 projects <- gets st_projects ;;
                 match projects with
                 | Some projects =>
                     registry_remove context projects (URI_parse (uri folder))
                 | None => ret tt
                 end) folders)
    s (map (fun folder => projects_remove (URI_parse (uri folder))) folders)
    (fun _ s' =>
       s' = log (map (fun folder => projects_remove (URI_parse (uri folder))) folders)
              (set_projects
                 (Some {| workspaces :=
                            registry_after_removes context
                              (map (fun folder => URI_parse (uri folder)) folders)
                              (workspaces projects) |}) s)).
Proof.
  revert s projects. induction folders as [|folder folders IH];
    intros s projects Hp.
  - apply triple_ret. simpl. rewrite log_nil.
    destruct s, projects. simpl in *. now subst.
  - simpl.
    change (projects_remove (URI_parse (uri folder)) :: ?l)
      with ([projects_remove (URI_parse (uri folder))] ++ l).
    eapply triple_bind
      with (Q1 := fun _ s1 =>
                    s1 = log [projects_remove (URI_parse (uri folder))]
                           (set_projects
                              (Some {| workspaces :=
                                         remove_updates context
                                           (URI_parse (uri folder))
                                           (workspaces projects) |}) s)).
    + eapply triple_pure_bind with (a := Some projects) (s1 := s);
        [unfold gets; now rewrite Hp|reflexivity|].
      unfold registry_remove.
      apply triple_call_bind; [apply uncaught_projects_remove|].
      apply triple_modify; reflexivity.
    + intros _ s1 -> _.
      eapply triple_conseq; [apply IH; reflexivity|].
      intros _ s' ->. unfold log, set_projects. simpl.
      now rewrite <- app_assoc.
Qed.

(** With no registry the folder loops call nothing and change nothing. *)
Lemma folders_loop_without_registry
    (act : Projects -> URI -> M unit) (root_of : WorkspaceFolder -> URI)
    folders s :
  st_projects s = None ->
  for_each (fun folder =>
              projects <- gets st_projects ;;
              match projects with
              | Some projects => act projects (root_of folder)
              | None => ret tt
              end) folders s = (Returned tt, s).
Proof.
  intros Hp. induction folders as [|folder folders IH]; [reflexivity|].
  simpl. unfold bind at 1. unfold bind at 1. unfold gets at 1.
  rewrite Hp. simpl. exact IH.
Qed.

End Loops.

(** Tactics for running a handler step by step. *)
Ltac norm_state :=
  lazy beta iota delta
    [log set_initParams set_options set_roots set_fsHost set_projects
     set_configurationHost set_plugins set_foldersListeners
     st_initParams st_options st_roots st_fsHost st_projects
     st_configurationHost st_plugins st_foldersListeners st_trace].

Ltac pure_step := eapply triple_pure_bind; [reflexivity|reflexivity|].
Ltac call_step := apply triple_call_bind; [discriminate|].

(** ** The [initialize] handler *)

Section Handshake.

Variable context : ServerContext.

(** [createLanguageServiceHost], run once the handler has stored the
    request, its options and the plugin instances. *)
Lemma createLanguageServiceHost_triple s options initParams plugins :
  st_options s = Some options ->
  st_initParams s = Some initParams ->
  st_plugins s = Some plugins ->
  triple context (createLanguageServiceHost context) s
    (host_calls context options initParams (is_some (st_configurationHost s))
       (st_roots s) plugins)
    (fun _ s' =>
       s' = log (host_calls context options initParams
                   (is_some (st_configurationHost s)) (st_roots s) plugins)
              (set_projects
                 (Some {| workspaces :=
                            registry_after_adds context (st_roots s)
                              (createWorkspaces_returns context) |})
                 (set_fsHost
                    (if typescript_loaded context options
                     then Some TheFileSystemHost else None) s))).
Proof.
  intros Ho Hi Hp. unfold createLanguageServiceHost.
  eapply triple_pure_bind with (a := options) (s1 := s);
    [unfold read; now rewrite Ho|reflexivity|].
  unfold host_calls, engine_calls. rewrite <- !app_assoc.
  eapply triple_bind
    with (Q1 := fun ts s1 =>
                  ts = typescript_loaded context options /\
                  s1 = log match typescript options with
                           | Some t => [loadTypescript (tsdk t)]
                           | None => []
                           end s).
  { unfold typescript_loaded. destruct (typescript options) as [t|].
    - call_step. apply triple_ret. split; reflexivity.
    - apply triple_ret. split; [reflexivity|now rewrite log_nil]. }
  intros ts s1 [-> ->] _.
  eapply triple_bind
    with (Q1 := fun _ s2 =>
                  s2 = log (match typescript options with
                            | Some t => [loadTypescript (tsdk t)]
                            | None => []
                            end ++
                            if typescript_loaded context options
                            then [createFileSystemHost] else [])
                         (set_fsHost
                            (if typescript_loaded context options
                             then Some TheFileSystemHost else None) s)).
  { destruct (typescript_loaded context options).
    - eapply triple_pure_bind with (a := initParams);
        [unfold read; simpl; now rewrite Hi|reflexivity|].
      call_step. apply triple_modify; [reflexivity|].
      unfold log, set_fsHost. simpl. now rewrite <- app_assoc.
    - apply triple_modify; [reflexivity|].
      unfold log, set_fsHost. simpl. now rewrite app_nil_r. }
  intros _ s2 -> _.
  set (e12 := match typescript options with
              | Some t => [loadTypescript (tsdk t)]
              | None => []
              end ++
              if typescript_loaded context options
              then [createFileSystemHost] else []).
  set (fs := if typescript_loaded context options
             then Some TheFileSystemHost else None).
  set (e3 := match typescript options with
             | Some t =>
                 if truthy_string (locale initParams)
                 then [loadTypescriptLocalized (tsdk t)
                         (value_of (locale initParams))]
                 else []
             | None => []
             end).
  eapply triple_bind
    with (Q1 := fun _ s3 => s3 = log (e12 ++ e3) (set_fsHost fs s)).
  { subst e3. destruct (typescript options) as [t|].
    - eapply triple_pure_bind with (a := initParams);
        [unfold read; simpl; now rewrite Hi|reflexivity|].
      destruct (truthy_string (locale initParams)).
      + apply triple_call; [discriminate|]. now rewrite log_log.
      + apply triple_ret. now rewrite app_nil_r.
    - apply triple_ret. now rewrite app_nil_r. }
  intros _ s3 -> _.
  change ([?a; ?b] ++ ?l) with (a :: b :: l).
  call_step. pure_step. pure_step.
  change (is_some (st_fsHost _)) with (is_some fs).
  change (is_some (st_configurationHost _))
    with (is_some (st_configurationHost s)).
  replace (is_some fs) with (typescript_loaded context options)
    by (subst fs; now destruct (typescript_loaded context options)).
  call_step. pure_step. pure_step.
  eapply triple_bind; [apply initial_roots_loop; reflexivity|].
  intros _ s4 -> _. cbn [workspaces].
  change ([?a; ?b] ++ ?l) with (a :: b :: l).
  call_step. call_step.
  eapply triple_pure_bind with (a := plugins);
    [unfold read; simpl; now rewrite Hp|reflexivity|].
  eapply triple_conseq; [apply onInitialized_loop|].
  intros _ s' ->. subst e12 e3. norm_state. f_equal.
  rewrite <- !app_assoc. cbn [app]. reflexivity.
Qed.

(** The guarded [require]: it never aborts the handler. *)
Lemma load_serverInfo_triple result s :
  triple context (load_serverInfo context result) s [require_packageJson]
    (fun r s' =>
       r = {| res_capabilities := res_capabilities result;
              serverInfo :=
                match serverInfo_after context (st_trace s) with
                | Some info => Some info
                | None => serverInfo result
                end |} /\
       s' = log [require_packageJson] s).
Proof.
  unfold triple, load_serverInfo, try_catch, bind, call, serverInfo_after, ret.
  destruct (throws context (st_trace s) require_packageJson); simpl.
  - split; [reflexivity|]. split; [now destruct result|reflexivity].
  - auto.
Qed.

(** The whole handler: its calls, its response and the closure variables
    it leaves. *)
Lemma onInitialize_triple _params s :
  triple context (onInitialize context _params) s
    (handshake_calls context _params (st_roots s))
    (fun r s' =>
       r = handshake_result context _params s /\
       s' = handshake_state context _params s).
Proof.
  unfold onInitialize. pure_step. pure_step. pure_step.
  unfold handshake_calls, negotiation_calls. rewrite <- !app_assoc.
  set (options := initializationOptions _params).
  set (plugins := map (fun plugin => plugin options) (ctx_plugins context)).
  set (e1 := match l10n options with
             | Some l => [l10n_config (location l)]
             | None => []
             end).
  eapply triple_bind with (Q1 := fun _ s1 =>
    s1 = log e1 (set_plugins (Some plugins)
                   (set_options (Some options)
                      (set_initParams (Some _params) s)))).
  { subst e1. destruct (l10n options).
    - apply triple_call; [discriminate|reflexivity].
    - apply triple_ret. now rewrite log_nil. }
  intros _ s1 -> _. pure_step.
  change (st_roots (log e1 _)) with (st_roots s).
  set (roots := initial_roots _params (st_roots s)).
  set (cfg := cap_configuration (capabilities _params)).
  set (s0 := set_roots roots _).
  eapply triple_bind with (Q1 := fun _ s2 =>
    s2 = log (if cfg then [createConfigurationHost] else [])
           (set_configurationHost
              (if cfg then Some TheConfigurationHost else None) s0)).
  { destruct cfg.
    - call_step. apply triple_modify; reflexivity.
    - apply triple_modify; [reflexivity|]. now rewrite log_nil. }
  intros _ s2 -> _.
  change ([?a] ++ ?l) with (a :: l). call_step.
  replace (host_calls context options _params cfg roots
             (session_plugins context _params))
    with (host_calls context options _params
            (is_some (if cfg then Some TheConfigurationHost else None))
            roots plugins)
    by (now destruct cfg).
  eapply triple_bind.
  { apply createLanguageServiceHost_triple
      with (options := options) (initParams := _params) (plugins := plugins);
      reflexivity. }
  intros _ s3 -> _.
  eapply triple_bind; [apply load_serverInfo_triple|].
  intros r s4 [-> ->] _.
  apply triple_bind_ret.
  eapply triple_conseq; [apply onInitialize_loop|].
  intros r s5 [-> ->].
  unfold handshake_result, handshake_state, negotiated_capabilities,
    handshake_calls, negotiation_calls, session_plugins.
  subst s0 e1 roots plugins options. norm_state.
  cbn [serverInfo res_capabilities].
  replace (is_some (if cfg then Some TheConfigurationHost else None))
    with cfg by (now destruct cfg).
  subst cfg.
  rewrite <- !app_assoc. cbn [app].
  split.
  - f_equal. f_equal.
    now destruct (serverInfo_after context _).
  - reflexivity.
Qed.
End Handshake.

(** ** What a handshake leaves behind *)

Lemma onInitialize_returned context _params s r s' :
  onInitialize context _params s = (Returned r, s') ->
  r = handshake_result context _params s /\
  s' = handshake_state context _params s.
Proof.
  intros Hrun.
  pose proof (onInitialize_triple context _params s) as H.
  eapply triple_returned in H; [|exact Hrun]. tauto.
Qed.

Lemma onInitialize_quiet context _params s :
  (forall tr ev, uncaught ev -> throws context tr ev = None) ->
  onInitialize context _params s =
    (Returned (handshake_result context _params s),
     handshake_state context _params s).
Proof.
  intros Hquiet.
  pose proof (onInitialize_triple context _params s) as H.
  eapply triple_progress in H; [|exact Hquiet].
  destruct H as (r & s' & Hrun & _ & -> & ->). exact Hrun.
Qed.

Lemma onInitialize_calls_prefix context _params s :
  exists rest,
    st_trace s ++ handshake_calls context _params (st_roots s) =
    st_trace (snd (onInitialize context _params s)) ++ rest.
Proof.
  pose proof (onInitialize_triple context _params s) as H.
  now apply triple_prefix in H.
Qed.

(** *** The calls of a handshake, sorted by kind *)

Lemma in_onInitialized_calls ev l :
  In ev (onInitialized_calls l) ->
  exists i p, In (i, p) l /\ onInitialized_hook p = true /\
              ev = plugin_onInitialized i.
Proof.
  unfold onInitialized_calls. rewrite in_flat_map.
  intros [[i p] [Hin Hev]]. simpl in Hev.
  destruct (onInitialized_hook p) eqn:Hhook; [|contradiction].
  destruct Hev as [<-|[]]. eauto.
Qed.

Lemma in_onInitialize_calls ev l :
  In ev (onInitialize_calls l) ->
  exists i p, In (i, p) l /\ onInitialize_hook p <> None /\
              ev = plugin_onInitialize i.
Proof.
  unfold onInitialize_calls. rewrite in_flat_map.
  intros [[i p] [Hin Hev]]. simpl in Hev.
  destruct (onInitialize_hook p) eqn:Hhook; [|contradiction].
  destruct Hev as [<-|[]]. exists i, p. rewrite Hhook. repeat split; auto.
  discriminate.
Qed.

Lemma added_roots_app a b : added_roots (a ++ b) = added_roots a ++ added_roots b.
Proof. apply flat_map_app. Qed.

Lemma added_roots_adds roots : added_roots (map projects_add roots) = roots.
Proof.
  induction roots as [|root roots IH]; [reflexivity|].
  simpl. now rewrite IH.
Qed.

Lemma added_roots_none calls :
  (forall root, ~ In (projects_add root) calls) -> added_roots calls = [].
Proof.
  induction calls as [|ev calls IH]; [reflexivity|]. intros Hno.
  simpl. rewrite IH by (intros root Hin; apply (Hno root); now right).
  destruct ev; try reflexivity. exfalso. apply (Hno root). now left.
Qed.

Lemma negotiation_calls_kinds _params ev :
  In ev (negotiation_calls _params) ->
  (exists u, ev = l10n_config u) \/
  (ev = createConfigurationHost /\
   cap_configuration (capabilities _params) = true) \/
  ev = setupCapabilities
         (getSemanticTokensLegend (initializationOptions _params)).
Proof.
  unfold negotiation_calls. rewrite !in_app_iff. intros [H|[H|H]].
  - destruct (l10n (initializationOptions _params)); [|contradiction].
    destruct H as [<-|[]]. eauto.
  - destruct (cap_configuration (capabilities _params)); [|contradiction].
    destruct H as [<-|[]]. auto.
  - destruct H as [<-|[]]. auto.
Qed.

Lemma engine_calls_kinds context options initParams configured ev :
  In ev (engine_calls context options initParams configured) ->
  (exists t, ev = loadTypescript t) \/
  ev = createFileSystemHost \/
  (exists t l, ev = loadTypescriptLocalized t l) \/
  (exists p, ev = createCancellationTokenHost p) \/
  ev = createWorkspaces (typescript_loaded context options) configured.
Proof.
  unfold engine_calls. rewrite !in_app_iff. intros [H|[H|[H|H]]].
  - destruct (typescript options); [|contradiction].
    destruct H as [<-|[]]. eauto.
  - destruct (typescript_loaded context options); [|contradiction].
    destruct H as [<-|[]]. auto.
  - destruct (typescript options); [|contradiction].
    destruct (truthy_string (locale initParams)); [|contradiction].
    destruct H as [<-|[]]. eauto 6.
  - destruct H as [<-|[<-|[]]]; eauto 6.
Qed.

Lemma added_roots_handshake context _params roots :
  added_roots (handshake_calls context _params roots) =
  initial_roots _params roots.
Proof.
  unfold handshake_calls, host_calls. rewrite !added_roots_app.
  rewrite added_roots_adds.
  rewrite (added_roots_none (negotiation_calls _params)).
  2:{ intros root H. apply negotiation_calls_kinds in H.
      destruct H as [[u H]|[[H _]|H]]; discriminate. }
  rewrite (added_roots_none (engine_calls _ _ _ _)).
  2:{ intros root H. apply engine_calls_kinds in H.
      destruct H as [[t H]|[H|[(t & l & H)|[[p H]|H]]]]; discriminate. }
  rewrite (added_roots_none (onInitialized_calls _)).
  2:{ intros root H. apply in_onInitialized_calls in H.
      destruct H as (i & p & _ & _ & H). discriminate. }
  rewrite (added_roots_none (onInitialize_calls _)).
  2:{ intros root H. apply in_onInitialize_calls in H.
      destruct H as (i & p & _ & _ & H). discriminate. }
  cbn [added_roots flat_map app]. now rewrite !app_nil_r.
Qed.

(** ** The initial roots *)

(** C6.  In a first handshake ([roots] still empty) that runs to its end,
    the registry is built and the root set is: the workspace folders when
    the client advertises workspace-folder support and sends folders;
    otherwise the [rootUri], when it is a non-empty string; otherwise the
    [rootPath], when it is a non-empty string; otherwise empty.  The
    calls of [projects.add] made by the handshake are exactly these roots,
    one call per root, in order, and the registry holds what these adds
    produce from the one [createWorkspaces] returned. *)
Theorem handshake_adds_initial_roots context _params s r s'
    (Hfirst : st_roots s = [])
    (Hrun : onInitialize context _params s = (Returned r, s')) :
  (cap_workspaceFolders (capabilities _params) = true ->
   forall folders, workspaceFolders _params = Some folders ->
   st_roots s' = map (fun folder => URI_parse (uri folder)) folders)
  /\ ((cap_workspaceFolders (capabilities _params) = false \/
       workspaceFolders _params = None) ->
      (forall u, rootUri _params = Some u -> u <> ""%string ->
       st_roots s' = [URI_parse u])
      /\ (truthy_string (rootUri _params) = false ->
          (forall p, rootPath _params = Some p -> p <> ""%string ->
           st_roots s' = [URI_file p])
          /\ (truthy_string (rootPath _params) = false -> st_roots s' = [])))
  /\ (exists calls,
        st_trace s' = st_trace s ++ calls /\
        added_roots calls = st_roots s')
  /\ st_projects s' =
       Some {| workspaces :=
                 registry_after_adds context (st_roots s')
                   (createWorkspaces_returns context) |}.
Proof.
  destruct (onInitialize_returned _ _ _ Hrun) as [_ ->].
  unfold handshake_state. cbn [st_roots st_trace st_projects].
  rewrite Hfirst. repeat split.
  - intros Hcap folders Hfolders. unfold initial_roots.
    now rewrite Hcap, Hfolders.
  - intros u Hu Hne. unfold initial_roots.
    replace (cap_workspaceFolders (capabilities _params)
             && is_some (workspaceFolders _params)) with false
      by (destruct H as [-> | ->]; [reflexivity|now rewrite andb_false_r]).
    rewrite Hu. simpl. apply String.eqb_neq in Hne. now rewrite Hne.
  - intros p Hp Hne. unfold initial_roots.
    replace (cap_workspaceFolders (capabilities _params)
             && is_some (workspaceFolders _params)) with false
      by (destruct H as [-> | ->]; [reflexivity|now rewrite andb_false_r]).
    rewrite H0, Hp. simpl. apply String.eqb_neq in Hne. now rewrite Hne.
  - intros Hpath. unfold initial_roots.
    replace (cap_workspaceFolders (capabilities _params)
             && is_some (workspaceFolders _params)) with false
      by (destruct H as [-> | ->]; [reflexivity|now rewrite andb_false_r]).
    now rewrite H0, Hpath.
  - exists (handshake_calls context _params []). split; [reflexivity|].
    apply added_roots_handshake.
Qed.

Lemma handshake_adds_initial_roots_witness :
  let s' := handshake_state (quiet_context [vue_plugin]) example_params
              initial_state in
  st_roots s' = [URI_parse "file:///a"; URI_parse "file:///b"]
  /\ exists calls,
       st_trace s' = st_trace initial_state ++ calls /\
       added_roots calls = st_roots s'.
Proof.
  assert (Hrun :
    onInitialize (quiet_context [vue_plugin]) example_params initial_state =
    (Returned (handshake_result (quiet_context [vue_plugin]) example_params
                 initial_state),
     handshake_state (quiet_context [vue_plugin]) example_params
       initial_state)) by (vm_compute; reflexivity).
  destruct (@handshake_adds_initial_roots (quiet_context [vue_plugin])
              example_params initial_state _ _ eq_refl Hrun)
    as (Hfolders & _ & Hcalls & _).
  split; [|exact Hcalls].
  exact (Hfolders eq_refl _ eq_refl).
Defined.

(** *** Every call of a handshake *)

Lemma handshake_calls_kinds context _params roots ev :
  In ev (handshake_calls context _params roots) ->
  (exists u, ev = l10n_config u) \/
  (ev = createConfigurationHost /\
   cap_configuration (capabilities _params) = true) \/
  ev = setupCapabilities
         (getSemanticTokensLegend (initializationOptions _params)) \/
  (exists t, ev = loadTypescript t) \/
  ev = createFileSystemHost \/
  (exists t l, ev = loadTypescriptLocalized t l) \/
  (exists p, ev = createCancellationTokenHost p) \/
  ev = createWorkspaces
         (typescript_loaded context (initializationOptions _params))
         (cap_configuration (capabilities _params)) \/
  (exists root, ev = projects_add root) \/
  ev = register_customFeatures \/
  ev = register_languageFeatures
         (getSemanticTokensLegend (initializationOptions _params)) \/
  (exists i, ev = plugin_onInitialized i) \/
  ev = require_packageJson \/
  (exists i, ev = plugin_onInitialize i).
Proof.
  unfold handshake_calls, host_calls. rewrite !in_app_iff.
  intros [H|[[H|[H|[H|H]]]|[H|H]]].
  - apply negotiation_calls_kinds in H.
    destruct H as [H|[H|H]]; eauto 8.
  - apply engine_calls_kinds in H.
    destruct H as [H|[H|[H|[H|H]]]]; tauto.
  - apply in_map_iff in H. destruct H as (root & <- & _). eauto 12.
  - destruct H as [<-|[<-|[]]]; eauto 14.
  - apply in_onInitialized_calls in H.
    destruct H as (i & p & _ & _ & ->). eauto 15.
  - destruct H as [<-|[]]. tauto.
  - apply in_onInitialize_calls in H.
    destruct H as (i & p & _ & _ & ->). do 13 right. eauto.
Qed.

Ltac split_kinds H :=
  repeat match type of H with
         | _ \/ _ => destruct H as [H|H]
         | ex _ => destruct H as [? H]
         | _ /\ _ => let H' := fresh "Hcap" in destruct H as [H H']
         end.

Lemma createConfigurationHost_called context _params roots :
  In createConfigurationHost (handshake_calls context _params roots) <->
  cap_configuration (capabilities _params) = true.
Proof.
  split.
  - intros H. apply handshake_calls_kinds in H.
    split_kinds H; try discriminate. assumption.
  - intros Hcap. unfold handshake_calls, negotiation_calls.
    rewrite !in_app_iff. left. right. left. rewrite Hcap. now left.
Qed.

Lemma createWorkspaces_called context _params roots fs cfg :
  In (createWorkspaces fs cfg) (handshake_calls context _params roots) ->
  cfg = cap_configuration (capabilities _params).
Proof.
  intros H. apply handshake_calls_kinds in H.
  split_kinds H; try discriminate. now inversion H.
Qed.

(** ** The configuration host *)

(** C8.  In a handshake that runs to its end a configuration host is
    created if and only if the client advertises workspace configuration:
    [createConfigurationHost] is called exactly in that case, the closure
    variable holds a host exactly in that case, and the registry is built
    with or without a configuration host accordingly.  Without the
    capability, and when no collaborator throws, the handshake returns
    its response, with no configuration host. *)
Theorem configurationHost_iff_advertised context _params s :
  (forall r s',
     onInitialize context _params s = (Returned r, s') ->
     (st_configurationHost s' <> None <->
      cap_configuration (capabilities _params) = true)
     /\ exists calls,
          st_trace s' = st_trace s ++ calls
          /\ (In createConfigurationHost calls <->
              cap_configuration (capabilities _params) = true)
          /\ (forall fs cfg, In (createWorkspaces fs cfg) calls ->
              cfg = cap_configuration (capabilities _params)))
  /\ (cap_configuration (capabilities _params) = false ->
      (forall tr ev, throws context tr ev = None) ->
      exists r s',
        onInitialize context _params s = (Returned r, s')
        /\ st_configurationHost s' = None
        /\ exists calls,
             st_trace s' = st_trace s ++ calls
             /\ ~ In createConfigurationHost calls
             /\ In (createWorkspaces
                      (typescript_loaded context (initializationOptions _params))
                      false) calls).
Proof.
  split.
  - intros r s' Hrun. destruct (onInitialize_returned _ _ _ Hrun) as [_ ->].
    unfold handshake_state. cbn [st_configurationHost st_trace]. split.
    + destruct (cap_configuration (capabilities _params));
        split; congruence.
    + exists (handshake_calls context _params (st_roots s)).
      split; [reflexivity|]. split.
      * apply createConfigurationHost_called.
      * intros fs cfg. apply createWorkspaces_called.
  - intros Hcap Hquiet.
    exists (handshake_result context _params s),
           (handshake_state context _params s).
    split; [apply onInitialize_quiet; auto|].
    unfold handshake_state. cbn [st_configurationHost st_trace].
    rewrite Hcap. split; [reflexivity|].
    exists (handshake_calls context _params (st_roots s)).
    split; [reflexivity|]. split.
    + rewrite createConfigurationHost_called. congruence.
    + unfold handshake_calls, host_calls, engine_calls.
      rewrite Hcap, !in_app_iff. right. left. left. do 3 right.
      right. now left.
Qed.

Lemma configurationHost_iff_advertised_witness :
  exists r s',
    onInitialize (quiet_context [vue_plugin]) plain_params initial_state =
      (Returned r, s')
    /\ st_configurationHost s' = None
    /\ exists calls,
         st_trace s' = st_trace initial_state ++ calls
         /\ ~ In createConfigurationHost calls
         /\ In (createWorkspaces
                  (typescript_loaded (quiet_context [vue_plugin])
                     (initializationOptions plain_params))
                  false) calls.
Proof.
  apply (proj2 (configurationHost_iff_advertised
                  (quiet_context [vue_plugin]) plain_params initial_state)).
  - reflexivity.
  - reflexivity.
Defined.

(** ** The semantic-token legend *)

(** C1.  For every initialization options, the legend of the session is
    the standard legend followed by the contributed token types (and
    modifiers), in the order they were contributed.  Nothing is removed:
    an entry occurs in the legend as often as it occurs in the standard
    list plus as often as it was contributed, so contributing a standard
    entry again yields a duplicate.  This legend is the one every
    handshake gives to [setupCapabilities] and to the registration of the
    language features. *)
Theorem legend_appends_contributions :
  (forall options : LanguageServerInitializationOptions,
     tokenTypes (getSemanticTokensLegend options) =
       tokenTypes standardSemanticTokensLegend ++
       contributed_tokenTypes options
     /\ tokenModifiers (getSemanticTokensLegend options) =
       tokenModifiers standardSemanticTokensLegend ++
       contributed_tokenModifiers options
     /\ (forall t,
           count_occ string_dec
             (tokenTypes (getSemanticTokensLegend options)) t =
           count_occ string_dec (tokenTypes standardSemanticTokensLegend) t +
           count_occ string_dec (contributed_tokenTypes options) t)
     /\ (forall m,
           count_occ string_dec
             (tokenModifiers (getSemanticTokensLegend options)) m =
           count_occ string_dec
             (tokenModifiers standardSemanticTokensLegend) m +
           count_occ string_dec (contributed_tokenModifiers options) m))
  /\ (forall context _params s calls legend,
        st_trace (snd (onInitialize context _params s)) = st_trace s ++ calls ->
        In (setupCapabilities legend) calls \/
        In (register_languageFeatures legend) calls ->
        legend = getSemanticTokensLegend (initializationOptions _params)).
Proof.
  split.
  - intros options.
    assert (Htypes :
      tokenTypes (getSemanticTokensLegend options) =
      tokenTypes standardSemanticTokensLegend ++
      contributed_tokenTypes options).
    { unfold getSemanticTokensLegend, contributed_tokenTypes.
      destruct (semanticTokensLegend options) as [extra|];
        [reflexivity|now rewrite app_nil_r]. }
    assert (Hmods :
      tokenModifiers (getSemanticTokensLegend options) =
      tokenModifiers standardSemanticTokensLegend ++
      contributed_tokenModifiers options).
    { unfold getSemanticTokensLegend, contributed_tokenModifiers.
      destruct (semanticTokensLegend options) as [extra|];
        [reflexivity|now rewrite app_nil_r]. }
    repeat split; trivial; intros x.
    + rewrite Htypes. apply count_occ_app.
    + rewrite Hmods. apply count_occ_app.
  - intros context _params s calls legend Htrace Hin.
    destruct (onInitialize_calls_prefix context _params s) as [rest Hprefix].
    rewrite Htrace, <- app_assoc in Hprefix. apply app_inv_head in Hprefix.
    assert (Hcalls : forall ev, In ev calls ->
              In ev (handshake_calls context _params (st_roots s))).
    { intros ev Hev. rewrite Hprefix, in_app_iff. now left. }
    destruct Hin as [Hin|Hin]; apply Hcalls, handshake_calls_kinds in Hin;
      split_kinds Hin; try discriminate; now inversion Hin.
Qed.

Lemma legend_appends_contributions_witness :
  standardSemanticTokensLegend =
  getSemanticTokensLegend (initializationOptions example_params).
Proof.
  refine (proj2 legend_appends_contributions (quiet_context [vue_plugin])
            example_params initial_state
            [createConfigurationHost;
             setupCapabilities standardSemanticTokensLegend;
             loadTypescript "node_modules/typescript/lib";
             createFileSystemHost;
             createCancellationTokenHost None;
             createWorkspaces true true;
             projects_add (URI_parse "file:///a");
             projects_add (URI_parse "file:///b");
             register_customFeatures;
             register_languageFeatures standardSemanticTokensLegend;
             plugin_onInitialized 0;
             require_packageJson;
             plugin_onInitialize 0]
            standardSemanticTokensLegend _ _).
  - vm_compute. reflexivity.
  - left. right. left. reflexivity.
Defined.

(** A session that contributes the type [foo] and, again, the standard
    type [class]. *)
Example legend_with_foo_and_class :
  let options := {|
    l10n := None; typescript := None; textDocumentSync := None;
    serverMode := None; disableFileWatcher := None;
    cancellationPipeName := None;
    semanticTokensLegend :=
      Some {| tokenTypes := ["foo"; "class"]; tokenModifiers := [] |} |} in
  let legend := getSemanticTokensLegend options in
  nth_error (tokenTypes legend) 23 = Some "foo"
  /\ nth_error (tokenTypes legend) 24 = Some "class"
  /\ count_occ string_dec (tokenTypes legend) "class" = 2
  /\ List.length (tokenTypes legend) = 25.
Proof. repeat split. Qed.

(** *** Plugins and their positions *)

Lemma in_indexed_from {A : Type} (l : list A) start i a :
  In (i, a) (indexed_from start l) <->
  start <= i /\ nth_error l (i - start) = Some a.
Proof.
  revert start. induction l as [|b l IH]; intros start; simpl.
  - split; [contradiction|]. intros [_ H]. now destruct (i - start).
  - rewrite IH. split.
    + intros [H|[Hle Hnth]].
      * inversion H; subst. rewrite Nat.sub_diag. auto.
      * split; [lia|]. replace (i - start) with (S (i - S start)) by lia.
        exact Hnth.
    + intros [Hle Hnth]. destruct (Nat.eq_dec start i) as [->|Hne].
      * rewrite Nat.sub_diag in Hnth. simpl in Hnth. left. congruence.
      * right. split; [lia|].
        replace (i - start) with (S (i - S start)) in Hnth by lia.
        exact Hnth.
Qed.

Lemma in_indexed {A : Type} (l : list A) i a :
  In (i, a) (indexed l) <-> nth_error l i = Some a.
Proof.
  unfold indexed. rewrite in_indexed_from, Nat.sub_0_r.
  split; [tauto|]. split; [lia|assumption].
Qed.

(** A property of [result] kept by every first hook is kept by the loop. *)
Lemma apply_hooks_invariant (P : InitializeResult -> Prop) l r :
  P r ->
  (forall i p hook r', In (i, p) l -> onInitialize_hook p = Some hook ->
                       P r' -> P (hook r')) ->
  P (apply_hooks l r).
Proof.
  revert r. induction l as [|[i p] l IH]; intros r Hr Hhooks; [exact Hr|].
  unfold apply_hooks. simpl. apply IH.
  - destruct (onInitialize_hook p) as [hook|] eqn:Hhook; [|exact Hr].
    apply (Hhooks i p hook r); auto. now left.
  - intros j q hook r' Hin. apply (Hhooks j q). now right.
Qed.

(** ** The text-document sync kind *)

(** C9, as the code has it.  The [result] the handler builds carries the
    sync kind of the initialization options, and [Incremental] when the
    options name none.  The response of a handshake that runs to its end
    still carries it, provided [setupCapabilities] and the first hooks of
    the plugins, which receive the capabilities before the response is
    returned, leave [textDocumentSync] as they find it. *)
Theorem textDocumentSync_negotiated context _params s r s'
    (Hrun : onInitialize context _params s = (Returned r, s'))
    (Hsetup : forall caps,
       sc_textDocumentSync
         (setupCapabilities_sets context (capabilities _params) caps
            (initializationOptions _params) (session_plugins context _params)
            (getSemanticTokensLegend (initializationOptions _params))) =
       sc_textDocumentSync caps)
    (Hhooks : forall plugin hook result,
       In plugin (session_plugins context _params) ->
       onInitialize_hook plugin = Some hook ->
       sc_textDocumentSync (res_capabilities (hook result)) =
       sc_textDocumentSync (res_capabilities result)) :
  (textDocumentSync (initializationOptions _params) = None ->
   sc_textDocumentSync (res_capabilities r) =
     Some TextDocumentSyncKind_Incremental)
  /\ (forall kind,
        textDocumentSync (initializationOptions _params) = Some kind ->
        sc_textDocumentSync (res_capabilities r) = Some kind).
Proof.
  destruct (onInitialize_returned _ _ _ Hrun) as [-> _].
  assert (Hsync :
    sc_textDocumentSync
      (res_capabilities (handshake_result context _params s)) =
    sc_textDocumentSync
      (res_capabilities (initial_result (initializationOptions _params)))).
  { unfold handshake_result.
    apply apply_hooks_invariant
      with (P := fun r =>
                   sc_textDocumentSync (res_capabilities r) =
                   sc_textDocumentSync
                     (res_capabilities
                        (initial_result (initializationOptions _params)))).
    - cbn [res_capabilities]. unfold negotiated_capabilities. apply Hsetup.
    - intros i p hook r' Hin Hhook Hr'.
      rewrite (Hhooks p hook r'); auto.
      apply in_indexed in Hin. eapply nth_error_In; eauto. }
  rewrite Hsync. unfold initial_result. cbn [res_capabilities sc_textDocumentSync].
  split.
  - now intros ->.
  - now intros kind ->.
Qed.

Lemma textDocumentSync_negotiated_witness :
  sc_textDocumentSync
    (res_capabilities
       (handshake_result (quiet_context [vue_plugin]) example_params
          initial_state)) = Some 2%Z.
Proof.
  assert (Hrun :
    onInitialize (quiet_context [vue_plugin]) example_params initial_state =
    (Returned (handshake_result (quiet_context [vue_plugin]) example_params
                 initial_state),
     handshake_state (quiet_context [vue_plugin]) example_params
       initial_state)) by (vm_compute; reflexivity).
  refine (proj1 (@textDocumentSync_negotiated (quiet_context [vue_plugin])
                   example_params initial_state _ _ Hrun _ _) eq_refl).
  - intros caps. reflexivity.
  - intros plugin hook result [<-|[]] Hhook.
    simpl in Hhook. inversion Hhook; subst. reflexivity.
Defined.

(** C9, as the specification words it, fails: the options of the request
    below name no sync kind and the handshake returns, but its response
    carries the kind [Full] (1) that the first hook of the plugin wrote,
    and not [Incremental] (2). *)
Lemma hook_overrides_textDocumentSync :
  textDocumentSync (initializationOptions example_params) = None
  /\ fst (onInitialize (quiet_context [full_sync_plugin]) example_params
            initial_state) =
     Returned
       {| res_capabilities :=
            {| sc_textDocumentSync := Some 1%Z; sc_features := [] |};
          serverInfo :=
            Some {| si_name := "@volar/language-server";
                    si_version := "1.0.0" |} |}
  /\ Some 1%Z <> Some TextDocumentSyncKind_Incremental.
Proof.
  split; [reflexivity|]. split; [vm_compute; reflexivity|discriminate].
Qed.

(** ** The package metadata *)

(** C10.  A handshake is never aborted by the load of the package
    metadata: a handshake that throws was aborted by its last call, and
    that call is not the [require].  When the [require] throws and no
    other call does, the handshake returns its response: the one the
    first hooks make of the negotiated capabilities with no
    [serverInfo]. *)
Theorem metadata_failure_is_swallowed context _params s :
  (forall e s',
     onInitialize context _params s = (Thrown e, s') ->
     exists before ev,
       st_trace s' = st_trace s ++ before ++ [ev]
       /\ throws context (st_trace s ++ before) ev = Some e
       /\ ev <> require_packageJson)
  /\ ((forall tr, throws context tr require_packageJson <> None) ->
      (forall tr ev, ev <> require_packageJson -> throws context tr ev = None) ->
      exists s',
        onInitialize context _params s =
          (Returned
             (apply_hooks (indexed (session_plugins context _params))
                {| res_capabilities := negotiated_capabilities context _params;
                   serverInfo := None |}),
           s')
        /\ exists before after,
             st_trace s' = st_trace s ++ before ++ require_packageJson :: after).
Proof.
  split.
  - intros e s' Hrun.
    pose proof (onInitialize_triple context _params s) as H.
    unfold triple in H. rewrite Hrun in H.
    destruct H as (pre & ev & rest & _ & Htr & Hthrows & Hu). eauto.
  - intros Hmeta Hothers.
    exists (handshake_state context _params s). split.
    + rewrite onInitialize_quiet by exact Hothers.
      unfold handshake_result, serverInfo_after.
      destruct (throws context _ require_packageJson) eqn:Hthrows;
        [reflexivity|]. now apply Hmeta in Hthrows.
    + unfold handshake_state, handshake_calls. cbn [st_trace].
      exists (negotiation_calls _params ++
              host_calls context (initializationOptions _params) _params
                (cap_configuration (capabilities _params))
                (initial_roots _params (st_roots s))
                (session_plugins context _params)),
             (onInitialize_calls (indexed (session_plugins context _params))).
      now rewrite <- !app_assoc.
Qed.

Lemma metadata_failure_is_swallowed_witness :
  exists s',
    onInitialize (with_throws metadata_missing (quiet_context [vue_plugin]))
      example_params initial_state =
      (Returned
         {| res_capabilities :=
              {| sc_textDocumentSync := Some 2%Z; sc_features := ["vue"] |};
            serverInfo := None |},
       s').
Proof.
  destruct (proj2 (metadata_failure_is_swallowed
                     (with_throws metadata_missing (quiet_context [vue_plugin]))
                     example_params initial_state))
    as (s' & Hrun & _).
  - intros tr. discriminate.
  - intros tr ev Hev. destruct ev; try reflexivity. now elim Hev.
  - exists s'. exact Hrun.
Defined.

(** ** What a handler calls *)

Section CallsOnly.

Variable context : ServerContext.
Variable K : Event -> Prop.

Lemma calls_only_pure {A : Type} (m : M A) :
  (forall s, st_trace (snd (m s)) = st_trace s) -> calls_only K m.
Proof. intros Hm s. exists []. rewrite app_nil_r. auto. Qed.

Lemma calls_only_ret {A : Type} (a : A) : calls_only K (ret a).
Proof. now apply calls_only_pure. Qed.

Lemma calls_only_throw {A : Type} (e : Error) : calls_only K (@throw A e).
Proof. now apply calls_only_pure. Qed.

Lemma calls_only_gets {A : Type} (f : ServerState -> A) : calls_only K (gets f).
Proof. now apply calls_only_pure. Qed.

Lemma calls_only_read {A : Type} (f : ServerState -> option A) :
  calls_only K (read f).
Proof. apply calls_only_pure. intros s. unfold read. now destruct (f s). Qed.

Lemma calls_only_await {A : Type} (p : Promise A) : calls_only K (await p).
Proof. apply calls_only_pure. intros s. now destruct p. Qed.

Lemma calls_only_modify (f : ServerState -> ServerState) :
  (forall s, st_trace (f s) = st_trace s) -> calls_only K (modify f).
Proof. intros Hf. now apply calls_only_pure. Qed.

Lemma calls_only_call ev : K ev -> calls_only K (call context ev).
Proof.
  intros HK s. exists [ev]. unfold call.
  destruct (throws context (st_trace s) ev); simpl; auto.
Qed.

Lemma calls_only_bind {A B : Type} (m : M A) (k : A -> M B) :
  calls_only K m -> (forall a, calls_only K (k a)) -> calls_only K (bind m k).
Proof.
  intros Hm Hk s. destruct (Hm s) as (c1 & H1 & F1). rewrite bind_run.
  destruct (m s) as [[a|e] s1]; cbn [snd] in *.
  - destruct (Hk a s1) as (c2 & H2 & F2). exists (c1 ++ c2).
    rewrite H2, H1, app_assoc. split; [reflexivity|]. now apply Forall_app.
  - eauto.
Qed.

Lemma calls_only_try_catch {A : Type} (m handler : M A) :
  calls_only K m -> calls_only K handler -> calls_only K (try_catch m handler).
Proof.
  intros Hm Hh s. destruct (Hm s) as (c1 & H1 & F1). unfold try_catch.
  destruct (m s) as [[a|e] s1]; cbn [snd] in *.
  - eauto.
  - destruct (Hh s1) as (c2 & H2 & F2). exists (c1 ++ c2).
    rewrite H2, H1, app_assoc. split; [reflexivity|]. now apply Forall_app.
Qed.

Lemma calls_only_for_each {A : Type} (body : A -> M unit) l :
  (forall a, calls_only K (body a)) -> calls_only K (for_each body l).
Proof.
  intros Hbody. induction l as [|a l IH]; simpl.
  - apply calls_only_ret.
  - apply calls_only_bind; auto.
Qed.

Lemma calls_only_fire listeners (listener : M unit) :
  calls_only K listener -> calls_only K (fire listeners listener).
Proof.
  intros Hlistener. induction listeners as [|listeners IH]; simpl.
  - apply calls_only_ret.
  - apply calls_only_bind; [|intros _; exact IH].
    apply calls_only_try_catch; [exact Hlistener|apply calls_only_ret].
Qed.

End CallsOnly.

Ltac calls_step :=
  lazymatch goal with
  | |- calls_only _ (ret _) => apply calls_only_ret
  | |- calls_only _ (throw _) => apply calls_only_throw
  | |- calls_only _ (gets _) => apply calls_only_gets
  | |- calls_only _ (read _) => apply calls_only_read
  | |- calls_only _ (await _) => apply calls_only_await
  | |- calls_only _ (call _ _) => apply calls_only_call
  | |- calls_only _ (bind _ _) => apply calls_only_bind
  | |- calls_only _ (try_catch _ _) => apply calls_only_try_catch
  | |- calls_only _ (for_each _ _) => apply calls_only_for_each
  | |- calls_only _ (fire _ _) => apply calls_only_fire
  | |- calls_only _ (modify _) => apply calls_only_modify
  | |- calls_only _ (match ?x with _ => _ end) => destruct x
  | |- calls_only _ _ => progress cbv beta
  | |- forall _, _ => intro
  end.

(** The plugin hooks are called by the [initialize] handler alone. *)
Lemma later_handlers_call_no_hook context msg s :
  (forall p, msg <> Initialize p) ->
  exists calls,
    st_trace (handle context msg s) = st_trace s ++ calls
    /\ Forall (fun ev => is_plugin_hook ev = false) calls.
Proof.
  intros Hmsg. destruct msg as [p| |added removed|]; unfold handle.
  - now elim (Hmsg p).
  - assert (H : calls_only (fun ev => is_plugin_hook ev = false)
                  (onInitialized context))
      by (unfold onInitialized; repeat calls_step; reflexivity).
    apply H.
  - assert (H : calls_only (fun ev => is_plugin_hook ev = false)
                  (didChangeWorkspaceFolders context added removed))
      by (unfold didChangeWorkspaceFolders, didChangeWorkspaceFolders_handler,
            registry_add, registry_remove;
          repeat calls_step; reflexivity).
    apply H.
  - assert (H : calls_only (fun ev => is_plugin_hook ev = false)
                  (onShutdown context))
      by (unfold onShutdown, dispose_workspace; repeat calls_step;
          reflexivity).
    apply H.
Qed.

(** ** The order of the plugin hooks *)

Lemma split_after_absent {A : Type} (x : A) l1 l2 before after :
  l1 ++ l2 = before ++ x :: after -> ~ In x l1 ->
  exists mid, before = l1 ++ mid /\ l2 = mid ++ x :: after.
Proof.
  revert before. induction l1 as [|a l1 IH]; intros before Heq Hnot.
  - exists before. auto.
  - destruct before as [|b before]; simpl in Heq.
    + inversion Heq; subst. exfalso. apply Hnot. now left.
    + inversion Heq; subst.
      destruct (IH before H1) as (mid & -> & ->).
      * intros Hin. apply Hnot. now right.
      * exists mid. auto.
Qed.

Lemma split_before_absent {A : Type} (x : A) l1 l2 before after :
  l1 ++ l2 = before ++ x :: after -> ~ In x l2 ->
  exists mid, l1 = before ++ x :: mid /\ after = mid ++ l2.
Proof.
  revert l1. induction before as [|b before IH]; intros l1 Heq Hnot.
  - destruct l1 as [|a l1]; simpl in Heq.
    + exfalso. apply Hnot. rewrite Heq. now left.
    + inversion Heq; subst. exists l1. auto.
  - destruct l1 as [|a l1]; simpl in Heq.
    + exfalso. apply Hnot. rewrite Heq. right.
      apply in_app_iff. right. now left.
    + inversion Heq; subst.
      destruct (IH l1 H1 Hnot) as (mid & -> & ->). exists mid. auto.
Qed.

(** The calls of a handshake up to and including the [require]: none of
    them is a first hook. *)
Lemma no_first_hook_before_require context _params roots j :
  ~ In (plugin_onInitialize j)
       (negotiation_calls _params ++
        host_calls context (initializationOptions _params) _params
          (cap_configuration (capabilities _params))
          (initial_roots _params roots) (session_plugins context _params) ++
        [require_packageJson]).
Proof.
  intros H.
  assert (Hin : In (plugin_onInitialize j)
                   (handshake_calls context _params roots)).
  { unfold handshake_calls. rewrite !in_app_iff in *. tauto. }
  rewrite !in_app_iff in H. destruct H as [H|[H|H]].
  - apply negotiation_calls_kinds in H. split_kinds H; discriminate.
  - unfold host_calls in H. rewrite !in_app_iff in H.
    destruct H as [H|[H|[H|H]]].
    + apply engine_calls_kinds in H. split_kinds H; discriminate.
    + apply in_map_iff in H. destruct H as (root & H & _). discriminate.
    + destruct H as [H|[H|[]]]; discriminate.
    + apply in_onInitialized_calls in H.
      destruct H as (i & p & _ & _ & H). discriminate.
  - destruct H as [H|[]]. discriminate.
Qed.

(** The calls of a handshake up to the registration of the features:
    none of them is a hook, and none is the [require]. *)
Lemma no_hook_before_features context _params roots ev :
  In ev (negotiation_calls _params ++
         engine_calls context (initializationOptions _params) _params
           (cap_configuration (capabilities _params)) ++
         map projects_add (initial_roots _params roots) ++
         [register_customFeatures;
          register_languageFeatures
            (getSemanticTokensLegend (initializationOptions _params))]) ->
  is_plugin_hook ev = false /\ ev <> require_packageJson.
Proof.
  rewrite !in_app_iff. intros [H|[H|[H|H]]].
  - apply negotiation_calls_kinds in H.
    split_kinds H; subst; split; try reflexivity; discriminate.
  - apply engine_calls_kinds in H.
    split_kinds H; subst; split; try reflexivity; discriminate.
  - apply in_map_iff in H. destruct H as (root & <- & _).
    split; [reflexivity|discriminate].
  - destruct H as [<-|[<-|[]]]; split; try reflexivity; discriminate.
Qed.

(** C4, as the code has it.  Both hooks of a plugin are called by the
    [initialize] handler, and by no other handler.  In every run of the
    [initialize] handler, whether it returns or throws: when the hook
    [onInitialize] of a plugin is called, the capabilities were set up,
    the registry was built, the package metadata was asked for, and the
    hook [onInitialized] of every plugin that declares one was already
    called; no [onInitialized] hook is called after it.  When the hook
    [onInitialized] of a plugin is called, the capabilities were set up,
    the registry was built, every root of the handshake was added to it
    and the features were registered; no [onInitialize] hook was called
    yet, and the package metadata was not asked for yet.  In a run that
    returns, every declared hook of every plugin was called. *)
Theorem onInitialized_hooks_precede_onInitialize_hooks context _params s :
  (forall before j after,
     st_trace (snd (onInitialize context _params s)) =
       st_trace s ++ before ++ plugin_onInitialize j :: after ->
     (forall i plugin,
        nth_error (session_plugins context _params) i = Some plugin ->
        onInitialized_hook plugin = true ->
        In (plugin_onInitialized i) before)
     /\ (forall i, ~ In (plugin_onInitialized i) after)
     /\ In (setupCapabilities
              (getSemanticTokensLegend (initializationOptions _params))) before
     /\ In (createWorkspaces
              (typescript_loaded context (initializationOptions _params))
              (cap_configuration (capabilities _params))) before
     /\ In require_packageJson before)
  /\ (forall r s',
        onInitialize context _params s = (Returned r, s') ->
        exists calls,
          st_trace s' = st_trace s ++ calls
          /\ forall i plugin,
               nth_error (session_plugins context _params) i = Some plugin ->
               (onInitialized_hook plugin = true ->
                In (plugin_onInitialized i) calls)
               /\ (onInitialize_hook plugin <> None ->
                   In (plugin_onInitialize i) calls))
  /\ (forall before i after,
        st_trace (snd (onInitialize context _params s)) =
          st_trace s ++ before ++ plugin_onInitialized i :: after ->
        In (setupCapabilities
              (getSemanticTokensLegend (initializationOptions _params))) before
        /\ In (createWorkspaces
                 (typescript_loaded context (initializationOptions _params))
                 (cap_configuration (capabilities _params))) before
        /\ (forall root,
              In root (initial_roots _params (st_roots s)) ->
              In (projects_add root) before)
        /\ In register_customFeatures before
        /\ In (register_languageFeatures
                 (getSemanticTokensLegend (initializationOptions _params)))
              before
        /\ (forall j, ~ In (plugin_onInitialize j) before)
        /\ ~ In require_packageJson before)
  /\ (forall msg s0 calls,
        (forall p, msg <> Initialize p) ->
        st_trace (handle context msg s0) = st_trace s0 ++ calls ->
        forall i,
          ~ In (plugin_onInitialized i) calls
          /\ ~ In (plugin_onInitialize i) calls).
Proof.
  assert (Hsecond : forall i plugin,
    nth_error (session_plugins context _params) i = Some plugin ->
    onInitialized_hook plugin = true ->
    In (plugin_onInitialized i)
       (onInitialized_calls (indexed (session_plugins context _params)))).
  { intros i plugin Hnth Hhook. unfold onInitialized_calls.
    apply in_flat_map. exists (i, plugin). split; [now apply in_indexed|].
    simpl. rewrite Hhook. now left. }
  split; [|split; [|split]].
  - intros before j after Htrace.
    destruct (onInitialize_calls_prefix context _params s) as [rest Hprefix].
    rewrite Htrace, <- !app_assoc in Hprefix.
    apply app_inv_head in Hprefix. simpl in Hprefix.
    replace (handshake_calls context _params (st_roots s))
      with ((negotiation_calls _params ++
             host_calls context (initializationOptions _params) _params
               (cap_configuration (capabilities _params))
               (initial_roots _params (st_roots s))
               (session_plugins context _params) ++
             [require_packageJson]) ++
            onInitialize_calls (indexed (session_plugins context _params)))
      in Hprefix
      by (unfold handshake_calls; now rewrite <- !app_assoc).
    apply split_after_absent in Hprefix;
      [|apply no_first_hook_before_require].
    destruct Hprefix as (mid & -> & Hfirst).
    unfold host_calls, negotiation_calls, engine_calls.
    repeat split.
    + intros i plugin Hnth Hhook. rewrite !in_app_iff.
      left. right. left. do 3 right. eauto.
    + intros i Hin.
      assert (Hin' : In (plugin_onInitialized i)
                (onInitialize_calls (indexed (session_plugins context _params)))).
      { rewrite Hfirst, in_app_iff. right. right.
        rewrite in_app_iff. now left. }
      apply in_onInitialize_calls in Hin'.
      destruct Hin' as (k & p & _ & _ & H). discriminate.
    + rewrite !in_app_iff. left. left. right. right. now left.
    + rewrite !in_app_iff. left. right. left. left. do 3 right.
      right. now left.
    + rewrite !in_app_iff. left. right. right. now left.
  - intros r s' Hrun. destruct (onInitialize_returned _ _ _ Hrun) as [_ ->].
    exists (handshake_calls context _params (st_roots s)).
    split; [reflexivity|]. intros i plugin Hnth. split.
    + intros Hhook. unfold handshake_calls, host_calls. rewrite !in_app_iff.
      right. left. do 3 right. eauto.
    + intros Hhook. unfold handshake_calls. rewrite !in_app_iff.
      do 3 right. unfold onInitialize_calls.
      apply in_flat_map. exists (i, plugin). split; [now apply in_indexed|].
      simpl. destruct (onInitialize_hook plugin); [now left|congruence].
  - intros before i after Htrace.
    destruct (onInitialize_calls_prefix context _params s) as [rest Hprefix].
    rewrite Htrace, <- !app_assoc in Hprefix.
    apply app_inv_head in Hprefix. simpl in Hprefix.
    set (early :=
           negotiation_calls _params ++
           engine_calls context (initializationOptions _params) _params
             (cap_configuration (capabilities _params)) ++
           map projects_add (initial_roots _params (st_roots s)) ++
           [register_customFeatures;
            register_languageFeatures
              (getSemanticTokensLegend (initializationOptions _params))]).
    set (late :=
           [require_packageJson] ++
           onInitialize_calls (indexed (session_plugins context _params))).
    assert (Hcalls :
      handshake_calls context _params (st_roots s) =
      early ++
      onInitialized_calls (indexed (session_plugins context _params)) ++ late).
    { unfold handshake_calls, host_calls, early, late.
      now rewrite <- !app_assoc. }
    rewrite Hcalls in Hprefix.
    apply split_after_absent in Hprefix.
    2:{ intros Hin. apply no_hook_before_features in Hin.
        destruct Hin as [Hin _]. discriminate. }
    destruct Hprefix as (mid & -> & Hlater).
    apply split_before_absent in Hlater.
    2:{ unfold late. intros [Hin|Hin]; [discriminate|].
        apply in_onInitialize_calls in Hin.
        destruct Hin as (k & p & _ & _ & H). discriminate. }
    destruct Hlater as (others & Hhooks & _).
    assert (Hmid : forall ev, In ev mid -> exists k, ev = plugin_onInitialized k).
    { intros ev Hin.
      assert (Hin' : In ev (onInitialized_calls
                              (indexed (session_plugins context _params))))
        by (rewrite Hhooks, in_app_iff; now left).
      apply in_onInitialized_calls in Hin'.
      destruct Hin' as (k & p & _ & _ & ->). eauto. }
    assert (Hbefore : forall ev,
      In ev (early ++ mid) ->
      ev <> require_packageJson /\ forall j, ev <> plugin_onInitialize j).
    { intros ev Hin. apply in_app_iff in Hin. destruct Hin as [Hin|Hin].
      - apply no_hook_before_features in Hin. destruct Hin as [Hhook Hreq].
        split; [exact Hreq|]. intros j ->. discriminate.
      - destruct (Hmid ev Hin) as [k ->]. split; [discriminate|].
        intros j. discriminate. }
    split; [|split; [|split; [|split; [|split; [|split]]]]].
    + apply in_app_iff. left. unfold early, negotiation_calls.
      rewrite !in_app_iff. left. right. right. now left.
    + apply in_app_iff. left. unfold early, engine_calls.
      rewrite !in_app_iff. right. left. do 3 right. right. now left.
    + intros root Hroot. apply in_app_iff. left. unfold early.
      rewrite !in_app_iff. right. right. left. now apply in_map.
    + apply in_app_iff. left. unfold early.
      rewrite !in_app_iff. do 3 right. now left.
    + apply in_app_iff. left. unfold early.
      rewrite !in_app_iff. do 3 right. right. now left.
    + intros j Hin. apply Hbefore in Hin. destruct Hin as [_ Hin].
      now apply (Hin j).
    + intros Hin. apply Hbefore in Hin. destruct Hin as [Hin _]. now apply Hin.
  - intros msg s0 calls Hmsg Htrace i.
    destruct (later_handlers_call_no_hook context s0 Hmsg)
      as (calls' & Htrace' & Hnone).
    rewrite Htrace in Htrace'. apply app_inv_head in Htrace'. subst calls'.
    rewrite Forall_forall in Hnone.
    split; intros Hin; apply Hnone in Hin; discriminate.
Qed.

Lemma onInitialized_hooks_precede_onInitialize_hooks_witness :
  In (plugin_onInitialized 0)
     [createConfigurationHost;
      setupCapabilities standardSemanticTokensLegend;
      loadTypescript "node_modules/typescript/lib";
      createFileSystemHost;
      createCancellationTokenHost None;
      createWorkspaces true true;
      projects_add (URI_parse "file:///a");
      projects_add (URI_parse "file:///b");
      register_customFeatures;
      register_languageFeatures standardSemanticTokensLegend;
      plugin_onInitialized 0;
      require_packageJson].
Proof.
  refine (proj1 (proj1 (onInitialized_hooks_precede_onInitialize_hooks
                          (quiet_context [vue_plugin]) example_params
                          initial_state) _ 0 [] _)
            0 (vue_plugin example_options) eq_refl eq_refl).
  vm_compute. reflexivity.
Defined.

(** C4, as the specification words it, fails: in the session below the
    handshake returns, and the second hook of the only plugin is called
    before its first hook. *)
Lemma second_hook_called_before_first :
  st_trace (snd (onInitialize (quiet_context [vue_plugin]) example_params
                   initial_state)) =
    [createConfigurationHost;
     setupCapabilities standardSemanticTokensLegend;
     loadTypescript "node_modules/typescript/lib";
     createFileSystemHost;
     createCancellationTokenHost None;
     createWorkspaces true true;
     projects_add (URI_parse "file:///a");
     projects_add (URI_parse "file:///b");
     register_customFeatures;
     register_languageFeatures standardSemanticTokensLegend;
     plugin_onInitialized 0;
     require_packageJson;
     plugin_onInitialize 0]
  /\ ~ first_hook_before_second
         (st_trace (snd (onInitialize (quiet_context [vue_plugin])
                           example_params initial_state))).
Proof.
  assert (Htrace :
    st_trace (snd (onInitialize (quiet_context [vue_plugin]) example_params
                     initial_state)) =
    [createConfigurationHost;
     setupCapabilities standardSemanticTokensLegend;
     loadTypescript "node_modules/typescript/lib";
     createFileSystemHost;
     createCancellationTokenHost None;
     createWorkspaces true true;
     projects_add (URI_parse "file:///a");
     projects_add (URI_parse "file:///b");
     register_customFeatures;
     register_languageFeatures standardSemanticTokensLegend;
     plugin_onInitialized 0;
     require_packageJson;
     plugin_onInitialize 0]) by (vm_compute; reflexivity).
  split; [exact Htrace|]. rewrite Htrace. intros Hclaim.
  specialize (Hclaim 0
    [createConfigurationHost;
     setupCapabilities standardSemanticTokensLegend;
     loadTypescript "node_modules/typescript/lib";
     createFileSystemHost;
     createCancellationTokenHost None;
     createWorkspaces true true;
     projects_add (URI_parse "file:///a");
     projects_add (URI_parse "file:///b");
     register_customFeatures;
     register_languageFeatures standardSemanticTokensLegend]
    [require_packageJson; plugin_onInitialize 0] eq_refl).
  simpl in Hclaim. intuition discriminate.
Qed.

(** ** The [shutdown] handler *)

Section Shutdown.

Variable context : ServerContext.

(** A loop that returns has found every promise resolved and has
    disposed every host, in order; none of the disposals threw. *)
Lemma dispose_loop_returned ws s s' :
  for_each (dispose_workspace context) ws s = (Returned tt, s') ->
  exists hosts,
    map snd ws = map (@Resolved Workspace) hosts
    /\ s' = log (map workspace_dispose hosts) s
    /\ forall before w after,
         hosts = before ++ w :: after ->
         throws context (st_trace s ++ map workspace_dispose before)
           (workspace_dispose w) = None.
Proof.
  revert s. induction ws as [|[key p] ws IH]; intros s Hrun.
  - simpl in Hrun. inversion Hrun; subst. exists []. rewrite log_nil.
    repeat split. intros [|b before] w after H; discriminate.
  - simpl in Hrun. unfold bind at 1 in Hrun. unfold dispose_workspace at 1 in Hrun.
    destruct p as [w0|e0]; simpl in Hrun; [|discriminate].
    unfold bind at 1, ret at 1, call in Hrun.
    destruct (throws context (st_trace s) (workspace_dispose w0)) eqn:Hw0;
      [discriminate|].
    apply IH in Hrun. destruct Hrun as (hosts & Hall & -> & Hquiet).
    exists (w0 :: hosts). simpl. rewrite Hall. repeat split.
    + now rewrite log_log.
    + intros [|b before] w after Heq; inversion Heq; subst; simpl.
      * now rewrite app_nil_r.
      * specialize (Hquiet before w after eq_refl). simpl in Hquiet.
        now rewrite <- app_assoc in Hquiet.
Qed.

(** A loop that throws stopped at the first host whose promise is
    rejected or whose disposal throws: the hosts before it were disposed,
    the hosts after it were not reached. *)
Lemma dispose_loop_thrown ws s e s' :
  for_each (dispose_workspace context) ws s = (Thrown e, s') ->
  exists before failing after hosts,
    ws = before ++ failing :: after
    /\ map snd before = map (@Resolved Workspace) hosts
    /\ ((snd failing = Rejected e /\
         s' = log (map workspace_dispose hosts) s)
        \/ (exists w,
              snd failing = Resolved w
              /\ throws context (st_trace s ++ map workspace_dispose hosts)
                   (workspace_dispose w) = Some e
              /\ s' = log (map workspace_dispose hosts ++ [workspace_dispose w])
                        s)).
Proof.
  revert s. induction ws as [|[key p] ws IH]; intros s Hrun.
  - discriminate.
  - simpl in Hrun. unfold bind at 1 in Hrun. unfold dispose_workspace at 1 in Hrun.
    destruct p as [w0|e0]; simpl in Hrun.
    + unfold bind at 1, ret at 1, call in Hrun.
      destruct (throws context (st_trace s) (workspace_dispose w0)) as [e0|]
        eqn:Hw0.
      * inversion Hrun; subst.
        exists [], (key, Resolved w0), ws, []. simpl. repeat split.
        right. exists w0. rewrite app_nil_r. auto.
      * apply IH in Hrun.
        destruct Hrun as (before & failing & after & hosts & -> & Hall & Hend).
        exists ((key, Resolved w0) :: before), failing, after, (w0 :: hosts).
        simpl. rewrite Hall. repeat split.
        destruct Hend as [[Hrej ->]|(w & Hres & Hthrows & ->)].
        -- left. split; [exact Hrej|]. now rewrite log_log.
        -- right. exists w. repeat split; [exact Hres| |now rewrite log_log].
           simpl in Hthrows. now rewrite <- app_assoc in Hthrows.
    + inversion Hrun; subst.
      exists [], (key, Rejected e), ws, []. simpl. repeat split.
      left. split; [reflexivity|]. now rewrite log_nil.
Qed.

(** When every promise is resolved and no disposal throws, the loop
    returns. *)
Lemma dispose_loop_quiet ws hosts s :
  map snd ws = map (@Resolved Workspace) hosts ->
  (forall before w after,
     hosts = before ++ w :: after ->
     throws context (st_trace s ++ map workspace_dispose before)
       (workspace_dispose w) = None) ->
  for_each (dispose_workspace context) ws s =
    (Returned tt, log (map workspace_dispose hosts) s).
Proof.
  revert hosts s. induction ws as [|[key p] ws IH]; intros hosts s Hall Hquiet.
  - destruct hosts; [|discriminate]. simpl. now rewrite log_nil.
  - destruct hosts as [|w0 hosts]; [discriminate|].
    simpl in Hall. inversion Hall; subst. simpl.
    unfold bind at 1. unfold dispose_workspace at 1. simpl.
    unfold bind at 1, ret at 1, call.
    pose proof (Hquiet [] w0 hosts eq_refl) as Hw0. simpl in Hw0.
    rewrite app_nil_r in Hw0. rewrite Hw0.
    rewrite (IH hosts (log [workspace_dispose w0] s)); auto.
    + now rewrite log_log.
    + intros before w after ->.
      specialize (Hquiet (w0 :: before) w after eq_refl).
      simpl in *. now rewrite <- app_assoc.
Qed.

(** A loop whose first failure is a disposal that throws ends there. *)
Lemma dispose_loop_fails before key w after hosts e s :
  map snd before = map (@Resolved Workspace) hosts ->
  (forall pre h post,
     hosts = pre ++ h :: post ->
     throws context (st_trace s ++ map workspace_dispose pre)
       (workspace_dispose h) = None) ->
  throws context (st_trace s ++ map workspace_dispose hosts)
    (workspace_dispose w) = Some e ->
  for_each (dispose_workspace context) (before ++ (key, Resolved w) :: after) s =
    (Thrown e, log (map workspace_dispose hosts ++ [workspace_dispose w]) s).
Proof.
  revert hosts s.
  induction before as [|[key0 p0] before IH]; intros hosts s Hall Hquiet Hw.
  - destruct hosts; [|discriminate]. simpl in *.
    unfold bind at 1. unfold dispose_workspace at 1. simpl.
    unfold bind at 1, ret at 1, call.
    rewrite app_nil_r in Hw. now rewrite Hw.
  - destruct hosts as [|w0 hosts]; [discriminate|].
    simpl in Hall. inversion Hall; subst. simpl.
    unfold bind at 1. unfold dispose_workspace at 1. simpl.
    unfold bind at 1, ret at 1, call.
    pose proof (Hquiet [] w0 hosts eq_refl) as Hw0. simpl in Hw0.
    rewrite app_nil_r in Hw0. rewrite Hw0.
    rewrite (IH hosts (log [workspace_dispose w0] s)); auto.
    + now rewrite log_log.
    + intros pre h post ->.
      specialize (Hquiet (w0 :: pre) h post eq_refl).
      simpl in *. now rewrite <- app_assoc.
    + simpl. now rewrite <- app_assoc.
Qed.

Lemma onShutdown_loop s projects :
  st_projects s = Some projects ->
  onShutdown context s = for_each (dispose_workspace context) (workspaces projects) s.
Proof.
  intros Hlive. unfold onShutdown, bind at 1, gets. now rewrite Hlive.
Qed.

End Shutdown.

(** C5.  A shutdown request is answered normally only when its handler
    returns.  With a registry, a handler that returns has found the
    promise of every host of the registry resolved and has called
    [dispose] on every host, in the order of the registry, and every one
    of these calls returned; and the handler does return when every
    promise is resolved and no disposal throws.  Without a registry there
    is no host and the handler returns at once. *)
Theorem shutdown_disposes_every_host context s :
  (forall projects s',
     st_projects s = Some projects ->
     onShutdown context s = (Returned tt, s') ->
     exists hosts,
       map snd (workspaces projects) = map (@Resolved Workspace) hosts
       /\ st_trace s' = st_trace s ++ map workspace_dispose hosts
       /\ disposed (map workspace_dispose hosts) = hosts
       /\ forall before w after,
            hosts = before ++ w :: after ->
            throws context (st_trace s ++ map workspace_dispose before)
              (workspace_dispose w) = None)
  /\ (forall projects hosts,
        st_projects s = Some projects ->
        map snd (workspaces projects) = map (@Resolved Workspace) hosts ->
        (forall tr w, throws context tr (workspace_dispose w) = None) ->
        onShutdown context s =
          (Returned tt, log (map workspace_dispose hosts) s))
  /\ (st_projects s = None -> onShutdown context s = (Returned tt, s)).
Proof.
  repeat split.
  - intros projects s' Hlive Hrun. rewrite (onShutdown_loop _ _ Hlive) in Hrun.
    apply dispose_loop_returned in Hrun.
    destruct Hrun as (hosts & Hall & -> & Hquiet).
    exists hosts. repeat split; auto.
    clear. unfold disposed.
    induction hosts as [|w hosts IH]; [reflexivity|].
    simpl. now rewrite IH.
  - intros projects hosts Hlive Hall Hquiet.
    rewrite (onShutdown_loop _ _ Hlive). apply dispose_loop_quiet; auto.
  - intros Hnone. unfold onShutdown, bind, gets. now rewrite Hnone.
Qed.

Lemma shutdown_disposes_every_host_witness :
  let context := quiet_context [] in
  let s := run context [Initialize example_params] initial_state in
  onShutdown context s =
    (Returned tt,
     log [workspace_dispose (WorkspaceHandle 0);
          workspace_dispose (WorkspaceHandle 1)] s).
Proof.
  intros context s.
  refine (proj1 (proj2 (shutdown_disposes_every_host context s))
            {| workspaces := [("file:///a"%string, Resolved (WorkspaceHandle 0));
                              ("file:///b"%string, Resolved (WorkspaceHandle 1))] |}
            [WorkspaceHandle 0; WorkspaceHandle 1] _ _ _).
  - vm_compute. reflexivity.
  - reflexivity.
  - reflexivity.
Defined.

(** C2, as the code has it.  The shutdown handler disposes the hosts in
    the order of the registry and catches nothing: when the disposal of a
    host throws, after the hosts before it were disposed, the handler
    throws that same error, and the disposal that threw is its last call,
    so that no host after it is disposed. *)
Theorem disposal_failure_ends_shutdown
    context s projects before key w after hosts e
    (Hlive : st_projects s = Some projects)
    (Hregistry : workspaces projects = before ++ (key, Resolved w) :: after)
    (Hbefore : map snd before = map (@Resolved Workspace) hosts)
    (Hquiet : forall pre h post,
       hosts = pre ++ h :: post ->
       throws context (st_trace s ++ map workspace_dispose pre)
         (workspace_dispose h) = None)
    (Hfails : throws context (st_trace s ++ map workspace_dispose hosts)
                (workspace_dispose w) = Some e) :
  onShutdown context s =
    (Thrown e, log (map workspace_dispose hosts ++ [workspace_dispose w]) s)
  /\ st_trace (snd (onShutdown context s)) =
       st_trace s ++ map workspace_dispose hosts ++ [workspace_dispose w].
Proof.
  assert (Hrun : onShutdown context s =
    (Thrown e, log (map workspace_dispose hosts ++ [workspace_dispose w]) s)).
  { rewrite (onShutdown_loop _ _ Hlive), Hregistry.
    now apply dispose_loop_fails. }
  split; [exact Hrun|]. now rewrite Hrun.
Qed.

Lemma disposal_failure_ends_shutdown_witness :
  let context := with_throws first_dispose_fails (quiet_context []) in
  let s := run context [Initialize example_params] initial_state in
  onShutdown context s =
    (Thrown "dispose failed"%string,
     log [workspace_dispose (WorkspaceHandle 0)] s).
Proof.
  intros context s.
  refine (proj1 (@disposal_failure_ends_shutdown context s
            {| workspaces := [("file:///a"%string, Resolved (WorkspaceHandle 0));
                              ("file:///b"%string, Resolved (WorkspaceHandle 1))] |}
            [] "file:///a"%string (WorkspaceHandle 0)
            [("file:///b"%string, Resolved (WorkspaceHandle 1))] []
            "dispose failed"%string _ _ _ _ _)).
  - vm_compute. reflexivity.
  - reflexivity.
  - reflexivity.
  - intros [|h pre] h' post H; discriminate.
  - reflexivity.
Defined.

(** C2, as the specification words it, fails: in the session below the
    registry holds two hosts, the disposal of the first throws, the
    handler throws that error instead of returning, and the second host
    is never disposed. *)
Lemma one_disposal_failure_blocks_the_rest :
  let context := with_throws first_dispose_fails (quiet_context []) in
  let s := run context [Initialize example_params] initial_state in
  st_projects s =
    Some {| workspaces := [("file:///a"%string, Resolved (WorkspaceHandle 0));
                           ("file:///b"%string, Resolved (WorkspaceHandle 1))] |}
  /\ fst (onShutdown context s) = Thrown "dispose failed"%string
  /\ disposed (st_trace (snd (onShutdown context s))) = [WorkspaceHandle 0]
  /\ ~ In (workspace_dispose (WorkspaceHandle 1))
         (st_trace (snd (onShutdown context s))).
Proof.
  intros context s. repeat split; try (vm_compute; reflexivity).
  vm_compute. intuition discriminate.
Qed.

(** ** Runs that may end in any way *)

Section Emits.

Variable context : ServerContext.

Lemma emits_ret {A : Type} (a : A) s (Q : A -> ServerState -> Prop) :
  Q a s -> emits (ret a) s [] Q.
Proof.
  intros HQ. unfold emits, ret. split; [now rewrite app_nil_r|exact HQ].
Qed.

Lemma emits_call ev s (Q : unit -> ServerState -> Prop) :
  Q tt (log [ev] s) -> emits (call context ev) s [ev] Q.
Proof.
  intros HQ. unfold emits, call.
  destruct (throws context (st_trace s) ev).
  - exists [ev], []. auto.
  - auto.
Qed.

Lemma emits_bind {A B : Type} (m : M A) (f : A -> M B) s e1 e2
    (Q1 : A -> ServerState -> Prop) (Q2 : B -> ServerState -> Prop) :
  emits m s e1 Q1 ->
  (forall a s1, Q1 a s1 -> emits (f a) s1 e2 Q2) ->
  emits (bind m f) s (e1 ++ e2) Q2.
Proof.
  unfold emits, bind. intros Hm Hf.
  destruct (m s) as [[a|e] s1].
  - destruct Hm as [Htr HQ1]. specialize (Hf a s1 HQ1).
    destruct (f a s1) as [[b|e] s2].
    + destruct Hf as [Htr2 HQ2]. split; [|exact HQ2].
      rewrite Htr2, Htr. now rewrite app_assoc.
    + destruct Hf as (pre & rest & -> & Htr2).
      exists (e1 ++ pre), rest. split; [now rewrite app_assoc|].
      rewrite Htr2, Htr. now rewrite app_assoc.
  - destruct Hm as (pre & rest & -> & Htr).
    exists pre, (rest ++ e2). split; [now rewrite app_assoc|exact Htr].
Qed.

Lemma emits_call_bind {B : Type} ev (k : unit -> M B) s evs
    (Q : B -> ServerState -> Prop) :
  emits (k tt) (log [ev] s) evs Q ->
  emits (bind (call context ev) k) s (ev :: evs) Q.
Proof.
  intros Hk. change (ev :: evs) with ([ev] ++ evs).
  apply emits_bind with (Q1 := fun _ s1 => s1 = log [ev] s).
  - now apply emits_call.
  - intros [] s1 ->. exact Hk.
Qed.

Lemma emits_pure_bind {A B : Type} (m : M A) (k : A -> M B) s a s1 evs
    (Q : B -> ServerState -> Prop) :
  m s = (Returned a, s1) -> st_trace s1 = st_trace s ->
  emits (k a) s1 evs Q ->
  emits (bind m k) s evs Q.
Proof.
  unfold emits, bind. intros -> Htr. now rewrite Htr.
Qed.

(** A step that throws before any call ends the run there. *)
Lemma emits_thrown_bind {A B : Type} (m : M A) (k : A -> M B) s e evs
    (Q : B -> ServerState -> Prop) :
  m s = (Thrown e, s) -> emits (bind m k) s evs Q.
Proof.
  unfold emits, bind. intros ->. exists [], evs. now rewrite app_nil_r.
Qed.

Lemma emits_prefix {A : Type} (m : M A) s evs Q :
  emits m s evs Q ->
  exists rest, st_trace s ++ evs = st_trace (snd (m s)) ++ rest.
Proof.
  unfold emits. destruct (m s) as [[a|e] s']; simpl.
  - intros [-> _]. exists []. now rewrite app_nil_r.
  - intros (pre & rest & -> & ->). exists rest. now rewrite app_assoc.
Qed.

(** The [initialized] handler, from any state. *)
Lemma onInitialized_emits s :
  emits (onInitialized context) s (initialized_calls s) (fun _ _ => True).
Proof.
  unfold onInitialized, initialized_calls.
  eapply emits_pure_bind; [reflexivity|reflexivity|].
  eapply emits_bind with (Q1 := fun _ s1 =>
    s1 = log (if is_some (st_fsHost s) then [fsHost_ready] else []) s).
  { destruct (is_some (st_fsHost s)).
    - now apply emits_call.
    - apply emits_ret. now rewrite log_nil. }
  intros _ s1 ->.
  eapply emits_pure_bind; [reflexivity|reflexivity|].
  change (st_configurationHost (log _ s)) with (st_configurationHost s).
  eapply emits_bind with (Q1 := fun _ s2 =>
    st_initParams s2 = st_initParams s /\ st_options s2 = st_options s /\
    st_plugins s2 = st_plugins s).
  { destruct (is_some (st_configurationHost s)).
    - apply emits_call. auto.
    - apply emits_ret. auto. }
  intros _ s2 (Hi & Ho & Hp).
  destruct (st_initParams s) as [initParams|].
  2:{ apply emits_thrown_bind with (e := "TypeError"%string).
      unfold read. now rewrite Hi. }
  eapply emits_pure_bind with (a := initParams) (s1 := s2);
    [unfold read; now rewrite Hi|reflexivity|].
  eapply emits_bind with (Q1 := fun _ s3 =>
    st_options s3 = st_options s /\ st_plugins s3 = st_plugins s).
  { destruct (cap_workspaceFolders (capabilities initParams)).
    - apply emits_call_bind.
      unfold emits, modify. simpl. rewrite app_nil_r. auto.
    - apply emits_ret. auto. }
  intros _ s3 (Ho3 & Hp3).
  destruct (st_options s) as [options|].
  2:{ apply emits_thrown_bind with (e := "TypeError"%string).
      unfold read. now rewrite Ho3. }
  eapply emits_pure_bind with (a := options) (s1 := s3);
    [unfold read; now rewrite Ho3|reflexivity|].
  destruct (watcher_wanted options initParams).
  2:{ now apply emits_ret. }
  destruct (st_plugins s) as [plugins|].
  2:{ apply emits_thrown_bind with (e := "TypeError"%string).
      unfold read. now rewrite Hp3. }
  eapply emits_pure_bind with (a := plugins) (s1 := s3);
    [unfold read; now rewrite Hp3|reflexivity|].
  destruct (watcher_exts plugins) as [|ext exts].
  - now apply emits_ret.
  - now apply emits_call.
Qed.

End Emits.

(** ** The [initialized] handler *)

(** The handler run after a stored handshake: then no closure variable it
    reads is [undefined]. *)
Lemma onInitialized_triple context s initParams options plugins :
  st_initParams s = Some initParams ->
  st_options s = Some options ->
  st_plugins s = Some plugins ->
  triple context (onInitialized context) s (initialized_calls s)
    (fun _ s' =>
       st_foldersListeners s' =
         (if cap_workspaceFolders (capabilities initParams)
          then S (st_foldersListeners s) else st_foldersListeners s)
       /\ st_projects s' = st_projects s).
Proof.
  intros Hi Ho Hp. unfold onInitialized, initialized_calls.
  rewrite Hi, Ho, Hp. pure_step.
  eapply triple_bind with (Q1 := fun _ s1 =>
    s1 = log (if is_some (st_fsHost s) then [fsHost_ready] else []) s).
  { destruct (is_some (st_fsHost s)).
    - apply triple_call; [discriminate|reflexivity].
    - apply triple_ret. now rewrite log_nil. }
  intros _ s1 -> _. pure_step.
  change (st_configurationHost (log _ s)) with (st_configurationHost s).
  eapply triple_bind with (Q1 := fun _ s2 =>
    st_initParams s2 = st_initParams s /\ st_options s2 = st_options s /\
    st_plugins s2 = st_plugins s /\ st_foldersListeners s2 = st_foldersListeners s /\
    st_projects s2 = st_projects s).
  { destruct (is_some (st_configurationHost s)).
    - apply triple_call; [discriminate|]. repeat split.
    - apply triple_ret. repeat split. }
  intros _ s2 (Hi2 & Ho2 & Hp2 & Hf2 & Hr2) _.
  eapply triple_pure_bind with (a := initParams) (s1 := s2);
    [unfold read; now rewrite Hi2, Hi|reflexivity|].
  eapply triple_bind with (Q1 := fun _ s3 =>
    st_options s3 = st_options s /\ st_plugins s3 = st_plugins s /\
    st_foldersListeners s3 =
      (if cap_workspaceFolders (capabilities initParams)
       then S (st_foldersListeners s) else st_foldersListeners s) /\
    st_projects s3 = st_projects s).
  { destruct (cap_workspaceFolders (capabilities initParams)).
    - call_step. apply triple_modify; [reflexivity|].
      cbn. rewrite Hf2. auto.
    - apply triple_ret. auto. }
  intros _ s3 (Ho3 & Hp3 & Hf3 & Hr3) _.
  eapply triple_pure_bind with (a := options) (s1 := s3);
    [unfold read; now rewrite Ho3, Ho|reflexivity|].
  destruct (watcher_wanted options initParams).
  2:{ apply triple_ret. auto. }
  eapply triple_pure_bind with (a := plugins) (s1 := s3);
    [unfold read; now rewrite Hp3, Hp|reflexivity|].
  destruct (watcher_exts plugins) as [|ext exts].
  - apply triple_ret. auto.
  - apply triple_call; [discriminate|]. auto.
Qed.

(** *** The file watcher *)

(** C3, as the code has it.  Whenever the [initialized] handler registers
    a file watcher, the server mode is not syntactic, the file watcher is
    not disabled, the client registers watchers dynamically, and the glob
    pattern is [**/*.{e1,...,en}] where [e1 ... en] are the file-watcher
    extensions of the plugins, put one after the other in the order of
    the plugins, [n > 0].  The pattern names exactly the extensions some
    plugin contributes: there is no base set.  Nothing is removed: an
    extension is listed as often as the plugins contribute it.  When
    these conditions hold and no collaborator throws, the watcher is
    registered. *)
Theorem watcher_glob_lists_every_contribution context s :
  (forall calls glob,
     st_trace (snd (onInitialized context s)) = st_trace s ++ calls ->
     In (client_register_DidChangeWatchedFiles glob) calls ->
     exists initParams options plugins,
       st_initParams s = Some initParams
       /\ st_options s = Some options
       /\ st_plugins s = Some plugins
       /\ watcher_wanted options initParams = true
       /\ watcher_exts plugins <> []
       /\ glob = ("**/*.{" ++ String.concat "," (watcher_exts plugins) ++ "}")%string
       /\ (forall ext,
             In ext (watcher_exts plugins) <->
             exists plugin exts,
               In plugin plugins
               /\ extensions_fileWatcher plugin = Some exts
               /\ In ext exts)
       /\ forall ext,
            count_occ string_dec (watcher_exts plugins) ext =
            list_sum
              (map (fun plugin =>
                      match extensions_fileWatcher plugin with
                      | Some exts => count_occ string_dec exts ext
                      | None => 0
                      end) plugins))
  /\ (forall initParams options plugins,
        st_initParams s = Some initParams ->
        st_options s = Some options ->
        st_plugins s = Some plugins ->
        watcher_wanted options initParams = true ->
        watcher_exts plugins <> [] ->
        (forall tr ev, throws context tr ev = None) ->
        exists s' before,
          onInitialized context s = (Returned tt, s')
          /\ st_trace s' =
               st_trace s ++ before ++
               [client_register_DidChangeWatchedFiles
                  (watcher_glob (watcher_exts plugins))]).
Proof.
  split.
  - intros calls glob Htrace Hin.
    pose proof (onInitialized_emits context s) as Hprefix.
    apply emits_prefix in Hprefix. destruct Hprefix as [rest Hprefix].
    rewrite Htrace, <- app_assoc in Hprefix.
    apply app_inv_head in Hprefix.
    assert (Hin' : In (client_register_DidChangeWatchedFiles glob)
                      (initialized_calls s)).
    { rewrite Hprefix, in_app_iff. now left. }
    clear - Hin'. unfold initialized_calls in Hin'.
    rewrite !in_app_iff in Hin'. destruct Hin' as [H|[H|H]].
    + destruct (is_some (st_fsHost s)); [|contradiction].
      destruct H as [H|[]]. discriminate.
    + destruct (is_some (st_configurationHost s)); [|contradiction].
      destruct H as [H|[]]. discriminate.
    + destruct (st_initParams s) as [initParams|]; [|contradiction].
      rewrite in_app_iff in H. destruct H as [H|H].
      * destruct (cap_workspaceFolders (capabilities initParams));
          [|contradiction].
        destruct H as [H|[]]. discriminate.
      * destruct (st_options s) as [options|]; [|contradiction].
        destruct (watcher_wanted options initParams) eqn:Hwanted;
          [|contradiction].
        destruct (st_plugins s) as [plugins|]; [|contradiction].
        destruct (watcher_exts plugins) as [|ext exts] eqn:Hexts;
          [contradiction|].
        destruct H as [H|[]]. inversion H; subst.
        exists initParams, options, plugins. rewrite Hexts.
        do 3 (split; [reflexivity|]). split; [exact Hwanted|].
        split; [discriminate|]. split; [reflexivity|].
        rewrite <- Hexts. split.
        { intros x. unfold watcher_exts. rewrite in_flat_map. split.
          - intros (plugin & Hplugin & Hx).
            destruct (extensions_fileWatcher plugin) as [l|] eqn:Hl;
              [|contradiction].
            eauto.
          - intros (plugin & l & Hplugin & Hl & Hx).
            exists plugin. rewrite Hl. auto. }
        intros x. clear.
        induction plugins as [|plugin plugins IH]; [reflexivity|].
        unfold watcher_exts in *. simpl. rewrite count_occ_app, IH.
        now destruct (extensions_fileWatcher plugin).
  - intros initParams options plugins Hi Ho Hp Hwanted Hexts Hquiet.
    pose proof (onInitialized_triple context s Hi Ho Hp) as H.
    eapply triple_progress in H; [|auto].
    destruct H as ([] & s' & Hrun & Htrace & _).
    exists s'. unfold initialized_calls in Htrace.
    rewrite Hi, Ho, Hp, Hwanted in Htrace.
    destruct (watcher_exts plugins) as [|ext exts] eqn:Hexts';
      [congruence|].
    exists ((if is_some (st_fsHost s) then [fsHost_ready] else []) ++
            (if is_some (st_configurationHost s)
             then [configurationHost_ready] else []) ++
            (if cap_workspaceFolders (capabilities initParams)
             then [onDidChangeWorkspaceFolders] else [])).
    split; [exact Hrun|]. rewrite Htrace. now rewrite <- !app_assoc.
Qed.

Lemma watcher_glob_lists_every_contribution_witness :
  let context := quiet_context [vue_plugin; vue_plugin] in
  let s := run context [Initialize example_params] initial_state in
  exists s' before,
    onInitialized context s = (Returned tt, s')
    /\ st_trace s' =
         st_trace s ++ before ++
         [client_register_DidChangeWatchedFiles "**/*.{vue,vue}"].
Proof.
  intros context s.
  refine (proj2 (watcher_glob_lists_every_contribution context s)
            example_params example_options
            [vue_plugin example_options; vue_plugin example_options]
            _ _ _ _ _ _).
  - vm_compute. reflexivity.
  - vm_compute. reflexivity.
  - vm_compute. reflexivity.
  - reflexivity.
  - discriminate.
  - reflexivity.
Defined.

(** C3, as the specification words it, fails: in the session below two
    plugins contribute the extension [vue]; the watcher is registered for
    a pattern that lists [vue] twice, which is not the list of any base
    set and the contributions without duplicates. *)
Lemma watcher_glob_repeats_shared_extension :
  let context := quiet_context [vue_plugin; vue_plugin] in
  let s := run context [Initialize example_params; Initialized] initial_state in
  In (client_register_DidChangeWatchedFiles "**/*.{vue,vue}") (st_trace s)
  /\ watcher_exts (session_plugins context example_params) = ["vue"; "vue"]%string
  /\ ~ (exists base,
          watcher_exts (session_plugins context example_params) =
          spec_watcher_exts base (session_plugins context example_params))
  /\ watcher_glob (spec_watcher_exts [] (session_plugins context example_params))
       = "**/*.{vue}"%string
  /\ ~ In (client_register_DidChangeWatchedFiles "**/*.{vue}") (st_trace s).
Proof.
  intros context s. repeat split.
  - vm_compute. tauto.
  - intros [base Hbase].
    assert (Hnodup : NoDup (watcher_exts (session_plugins context example_params))).
    { rewrite Hbase. apply NoDup_nodup. }
    change (NoDup ["vue"; "vue"]%string) in Hnodup.
    inversion Hnodup as [|x l Hnotin _]; subst. apply Hnotin. now left.
  - vm_compute. intuition discriminate.
Qed.

(** ** Properties kept by every run *)

Section Preserves.

Variable context : ServerContext.
Variable I : ServerState -> Prop.
Hypothesis I_log : forall evs s, I s -> I (log evs s).

Lemma preserves_ret {A : Type} (a : A) : preserves I (ret a).
Proof. now intros s. Qed.

Lemma preserves_throw {A : Type} (e : Error) : preserves I (@throw A e).
Proof. now intros s. Qed.

Lemma preserves_gets {A : Type} (f : ServerState -> A) : preserves I (gets f).
Proof. now intros s. Qed.

Lemma preserves_read {A : Type} (f : ServerState -> option A) :
  preserves I (read f).
Proof. intros s Hs. unfold read. now destruct (f s). Qed.

Lemma preserves_await {A : Type} (p : Promise A) : preserves I (await p).
Proof. intros s Hs. now destruct p. Qed.

Lemma preserves_call ev : preserves I (call context ev).
Proof.
  intros s Hs. unfold call.
  destruct (throws context (st_trace s) ev); simpl; now apply I_log.
Qed.

Lemma preserves_modify (f : ServerState -> ServerState) :
  (forall s, I s -> I (f s)) -> preserves I (modify f).
Proof. intros Hf s Hs. now apply Hf. Qed.

Lemma preserves_bind {A B : Type} (m : M A) (k : A -> M B) :
  preserves I m -> (forall a, preserves I (k a)) -> preserves I (bind m k).
Proof.
  intros Hm Hk s Hs. unfold bind. specialize (Hm s Hs).
  destruct (m s) as [[a|e] s1]; simpl in *; [|exact Hm].
  now apply Hk.
Qed.

Lemma preserves_try_catch {A : Type} (m handler : M A) :
  preserves I m -> preserves I handler -> preserves I (try_catch m handler).
Proof.
  intros Hm Hh s Hs. unfold try_catch. specialize (Hm s Hs).
  destruct (m s) as [[a|e] s1]; simpl in *; [exact Hm|].
  now apply Hh.
Qed.

Lemma preserves_for_each {A : Type} (body : A -> M unit) l :
  (forall a, preserves I (body a)) -> preserves I (for_each body l).
Proof.
  intros Hbody. induction l as [|a l IH]; simpl.
  - apply preserves_ret.
  - apply preserves_bind; auto.
Qed.

Lemma preserves_for_each_acc {A R : Type} (body : A -> R -> M R) l r :
  (forall a r, preserves I (body a r)) -> preserves I (for_each_acc body l r).
Proof.
  intros Hbody. revert r. induction l as [|a l IH]; intros r; simpl.
  - apply preserves_ret.
  - apply preserves_bind; auto.
Qed.

Lemma preserves_fire listeners (listener : M unit) :
  preserves I listener -> preserves I (fire listeners listener).
Proof.
  intros Hlistener. induction listeners as [|listeners IH]; simpl.
  - apply preserves_ret.
  - apply preserves_bind; [|intros _; exact IH].
    apply preserves_try_catch; [exact Hlistener|apply preserves_ret].
Qed.

End Preserves.

(** Goes through a handler, leaving what its assignments must keep. *)
Ltac frame_step :=
  lazymatch goal with
  | |- preserves _ (ret _) => apply preserves_ret
  | |- preserves _ (throw _) => apply preserves_throw
  | |- preserves _ (gets _) => apply preserves_gets
  | |- preserves _ (read _) => apply preserves_read
  | |- preserves _ (await _) => apply preserves_await
  | |- preserves _ (call _ _) => apply preserves_call
  | |- preserves _ (bind _ _) => apply preserves_bind
  | |- preserves _ (try_catch _ _) => apply preserves_try_catch
  | |- preserves _ (for_each _ _) => apply preserves_for_each
  | |- preserves _ (for_each_acc _ _ _) => apply preserves_for_each_acc
  | |- preserves _ (fire _ _) => apply preserves_fire
  | |- preserves _ (modify _) => apply preserves_modify
  | |- preserves _ (match ?x with _ => _ end) => destruct x
  | |- preserves _ _ => progress cbv beta
  | |- forall _, _ => intro
  end.

Ltac frame := repeat frame_step.

Section Frames.

Variable context : ServerContext.

(** Only the [initialized] handler gives the connection the
    workspace-folder handler. *)
Lemma onInitialize_keeps_foldersListeners _params b :
  preserves (fun s => st_foldersListeners s = b) (onInitialize context _params).
Proof.
  unfold onInitialize, createLanguageServiceHost, load_serverInfo, registry_add.
  frame; auto.
Qed.

Lemma onShutdown_keeps_foldersListeners b :
  preserves (fun s => st_foldersListeners s = b) (onShutdown context).
Proof. unfold onShutdown, dispose_workspace. frame; auto. Qed.

Lemma didChangeWorkspaceFolders_keeps_foldersListeners added removed b :
  preserves (fun s => st_foldersListeners s = b)
    (didChangeWorkspaceFolders context added removed).
Proof.
  unfold didChangeWorkspaceFolders, didChangeWorkspaceFolders_handler,
    registry_add, registry_remove.
  frame; auto.
Qed.

(** Only the [initialize] handler assigns [initParams]. *)
Lemma onInitialized_keeps_initParams v :
  preserves (fun s => st_initParams s = v) (onInitialized context).
Proof. unfold onInitialized. frame; auto. Qed.

Lemma onShutdown_keeps_initParams v :
  preserves (fun s => st_initParams s = v) (onShutdown context).
Proof. unfold onShutdown, dispose_workspace. frame; auto. Qed.

Lemma didChangeWorkspaceFolders_keeps_initParams added removed v :
  preserves (fun s => st_initParams s = v)
    (didChangeWorkspaceFolders context added removed).
Proof.
  unfold didChangeWorkspaceFolders, didChangeWorkspaceFolders_handler,
    registry_add, registry_remove.
  frame; auto.
Qed.

(** Once built, the registry is never dropped. *)
Lemma onInitialize_keeps_projects _params :
  preserves (fun s => st_projects s <> None) (onInitialize context _params).
Proof.
  unfold onInitialize, createLanguageServiceHost, load_serverInfo, registry_add.
  frame; auto; cbn; discriminate.
Qed.

Lemma onInitialized_keeps_projects :
  preserves (fun s => st_projects s <> None) (onInitialized context).
Proof. unfold onInitialized. frame; auto. Qed.

Lemma onShutdown_keeps_projects :
  preserves (fun s => st_projects s <> None) (onShutdown context).
Proof. unfold onShutdown, dispose_workspace. frame; auto. Qed.

Lemma didChangeWorkspaceFolders_keeps_projects added removed :
  preserves (fun s => st_projects s <> None)
    (didChangeWorkspaceFolders context added removed).
Proof.
  unfold didChangeWorkspaceFolders, didChangeWorkspaceFolders_handler,
    registry_add, registry_remove.
  frame; auto; cbn; discriminate.
Qed.

End Frames.

(** ** Workspace-folder notifications *)

Section Folders.

Variable context : ServerContext.

(** The handler, once the registry exists: one [add] per added folder,
    then one [remove] per removed folder. *)
Lemma didChangeWorkspaceFolders_handler_triple added removed s projects :
  st_projects s = Some projects ->
  triple context (didChangeWorkspaceFolders_handler context added removed) s
    (map (fun folder => projects_add (URI_parse (uri folder))) added ++
     map (fun folder => projects_remove (URI_parse (uri folder))) removed)
    (fun _ s' =>
       st_projects s' =
         Some {| workspaces :=
                   registry_after_removes context
                     (map (fun folder => URI_parse (uri folder)) removed)
                     (registry_after_adds context
                        (map (fun folder => URI_parse (uri folder)) added)
                        (workspaces projects)) |}).
Proof.
  intros Hp. unfold didChangeWorkspaceFolders_handler.
  eapply triple_bind; [apply added_folders_loop; exact Hp|].
  intros _ s1 -> _.
  eapply triple_conseq; [apply removed_folders_loop; reflexivity|].
  intros _ s' ->. reflexivity.
Qed.

Lemma removed_roots_app a b :
  removed_roots (a ++ b) = removed_roots a ++ removed_roots b.
Proof. apply flat_map_app. Qed.

Lemma roots_of_adds roots :
  added_roots (map projects_add roots) = roots /\
  removed_roots (map projects_add roots) = [].
Proof.
  induction roots as [|root roots [IHa IHr]]; [split; reflexivity|].
  simpl. now rewrite IHa, IHr.
Qed.

Lemma roots_of_removes roots :
  added_roots (map projects_remove roots) = [] /\
  removed_roots (map projects_remove roots) = roots.
Proof.
  induction roots as [|root roots [IHa IHr]]; [split; reflexivity|].
  simpl. now rewrite IHa, IHr.
Qed.

(** Without a stored request the [initialized] handler ends with a
    [TypeError] before it reaches the workspace-folder subscription. *)
Lemma onInitialized_without_initParams s :
  st_initParams s = None ->
  st_foldersListeners (snd (onInitialized context s)) = st_foldersListeners s.
Proof.
  intros Hnone. unfold onInitialized.
  unfold bind at 1. unfold gets at 1.
  assert (Hready : forall (m : M unit) (k : unit -> M unit) s0,
    (forall s1, st_initParams s1 = None ->
                st_foldersListeners (snd (k tt s1)) = st_foldersListeners s1) ->
    preserves (fun s1 => st_initParams s1 = None /\
                         st_foldersListeners s1 = st_foldersListeners s0) m ->
    st_initParams s0 = None ->
    st_foldersListeners (snd (bind m k s0)) = st_foldersListeners s0).
  { intros m k s0 Hk Hm Hs0. unfold bind.
    specialize (Hm s0 (conj Hs0 eq_refl)).
    destruct (m s0) as [[[]|e] s1]; simpl in *.
    - destruct Hm as [Hm1 Hm2]. now rewrite Hk.
    - tauto. }
  apply Hready; [|frame; auto|exact Hnone].
  intros s1 Hs1. unfold bind at 1. unfold gets at 1.
  apply Hready; [|frame; auto|exact Hs1].
  intros s2 Hs2. unfold bind at 1. unfold read at 1. now rewrite Hs2.
Qed.

End Folders.

(** *** The subscription to workspace-folder changes *)

Section InitializedEdges.

Variable context : ServerContext.

(** The two [ready] steps in front of the handler: what follows them
    decides a property that they keep. *)
Lemma after_ready_step (P : ServerState -> Prop)
    (R : Outcome unit * ServerState -> Prop) (m : M unit) (k : unit -> M unit)
    s :
  preserves P m ->
  (forall e s1, P s1 -> R (Thrown e, s1)) ->
  (forall s1, P s1 -> R (k tt s1)) ->
  P s -> R (bind m k s).
Proof.
  intros Hm Hthrown Hk Hs. rewrite bind_run. specialize (Hm s Hs).
  destruct (m s) as [[[]|e] s1]; simpl in Hm; auto.
Qed.

(** Without a stored request the handler always throws. *)
Lemma onInitialized_throws_without_initParams s :
  st_initParams s = None ->
  exists e s', onInitialized context s = (Thrown e, s').
Proof.
  intros Hnone. unfold onInitialized.
  rewrite bind_run. unfold gets at 1. cbv beta iota.
  apply after_ready_step with (P := fun s1 => st_initParams s1 = None);
    [frame; auto|eauto| |exact Hnone].
  intros s1 Hs1. rewrite bind_run. unfold gets at 1. cbv beta iota.
  apply after_ready_step with (P := fun s2 => st_initParams s2 = None);
    [frame; auto|eauto| |exact Hs1].
  intros s2 Hs2. rewrite bind_run. unfold read at 1. rewrite Hs2. eauto.
Qed.

(** A client that did not advertise workspace-folder support is not
    subscribed. *)
Lemma onInitialized_without_capability s p :
  st_initParams s = Some p ->
  cap_workspaceFolders (capabilities p) = false ->
  st_foldersListeners (snd (onInitialized context s)) = st_foldersListeners s.
Proof.
  intros Hp Hcap. unfold onInitialized.
  rewrite bind_run. unfold gets at 1. cbv beta iota.
  apply after_ready_step
    with (P := fun s1 => st_initParams s1 = Some p /\
                         st_foldersListeners s1 = st_foldersListeners s)
         (R := fun run => st_foldersListeners (snd run) = st_foldersListeners s);
    [frame; auto|tauto| |auto].
  intros s1 [Hp1 Hf1]. rewrite bind_run. unfold gets at 1. cbv beta iota.
  apply after_ready_step
    with (P := fun s2 => st_initParams s2 = Some p /\
                         st_foldersListeners s2 = st_foldersListeners s)
         (R := fun run => st_foldersListeners (snd run) = st_foldersListeners s);
    [frame; auto|tauto| |auto].
  intros s2 [Hp2 Hf2]. rewrite bind_run. unfold read at 1. rewrite Hp2.
  cbv beta iota. rewrite Hcap.
  refine ((_ : preserves
                 (fun s3 => st_foldersListeners s3 = st_foldersListeners s) _)
            s2 Hf2).
  frame; auto.
Qed.

Lemma onInitialized_listeners s :
  st_foldersListeners (snd (onInitialized context s)) = st_foldersListeners s
  \/ exists p, st_initParams s = Some p /\
               cap_workspaceFolders (capabilities p) = true.
Proof.
  destruct (st_initParams s) as [p|] eqn:Hp.
  - destruct (cap_workspaceFolders (capabilities p)) eqn:Hcap; [eauto|].
    left. exact (onInitialized_without_capability _ Hp Hcap).
  - left. exact (onInitialized_without_initParams context s Hp).
Qed.

(** A handler that returns for a client with workspace-folder support
    has given the connection the handler once more. *)
Lemma onInitialized_subscribes_once s p :
  st_initParams s = Some p ->
  cap_workspaceFolders (capabilities p) = true ->
  fst (onInitialized context s) = Returned tt ->
  st_foldersListeners (snd (onInitialized context s)) =
    S (st_foldersListeners s).
Proof.
  intros Hp Hcap.
  cut (match onInitialized context s with
       | (Returned _, s') =>
           st_foldersListeners s' = S (st_foldersListeners s)
       | (Thrown _, _) => True
       end).
  { destruct (onInitialized context s) as [[[]|e] s']; simpl;
      [auto|discriminate]. }
  unfold onInitialized.
  rewrite bind_run. unfold gets at 1. cbv beta iota.
  apply after_ready_step
    with (P := fun s1 => st_initParams s1 = Some p /\
                         st_foldersListeners s1 = st_foldersListeners s)
         (R := fun run : Outcome unit * ServerState =>
                 match run with
                 | (Returned _, s') =>
                     st_foldersListeners s' = S (st_foldersListeners s)
                 | (Thrown _, _) => True
                 end);
    [frame; auto|auto| |auto].
  intros s1 [Hp1 Hf1]. rewrite bind_run. unfold gets at 1. cbv beta iota.
  apply after_ready_step
    with (P := fun s2 => st_initParams s2 = Some p /\
                         st_foldersListeners s2 = st_foldersListeners s)
         (R := fun run : Outcome unit * ServerState =>
                 match run with
                 | (Returned _, s') =>
                     st_foldersListeners s' = S (st_foldersListeners s)
                 | (Thrown _, _) => True
                 end);
    [frame; auto|auto| |auto].
  intros s2 [Hp2 Hf2]. rewrite bind_run. unfold read at 1. rewrite Hp2.
  cbv beta iota. rewrite Hcap. rewrite bind_run, bind_run. unfold call at 1.
  destruct (throws context (st_trace s2) onDidChangeWorkspaceFolders);
    [exact I|].
  unfold modify at 1. cbv beta iota.
  match goal with
  | |- match ?k ?s3 with _ => _ end =>
      assert (Hrest : st_foldersListeners (snd (k s3)) =
                      S (st_foldersListeners s));
        [|destruct (k s3) as [[[]|e] s4]; [exact Hrest|exact I]]
  end.
  refine ((_ : preserves
                 (fun s3 => st_foldersListeners s3 =
                            S (st_foldersListeners s)) _) _ _).
  - frame; auto.
  - cbn [st_foldersListeners set_foldersListeners]. f_equal. exact Hf2.
Qed.

(** Only the [initialize] handler assigns [initParams], and it does so
    before anything can throw. *)
Lemma onInitialize_keeps_its_initParams _params :
  preserves (fun s => st_initParams s = Some _params)
    (onInitialize context _params).
Proof.
  unfold onInitialize, createLanguageServiceHost, load_serverInfo, registry_add.
  frame; auto.
Qed.

Lemma onInitialize_sets_initParams _params s :
  st_initParams (snd (onInitialize context _params s)) = Some _params.
Proof.
  change (onInitialize context _params s)
    with (onInitialize context _params (set_initParams (Some _params) s)).
  now apply onInitialize_keeps_its_initParams.
Qed.

End InitializedEdges.

(** *** The listeners of the connection *)

Lemma fire_S listeners (listener : M unit) s :
  fire (S listeners) listener s = fire listeners listener (snd (listener s)).
Proof.
  change (fire (S listeners) listener s)
    with (bind (try_catch listener (ret tt))
               (fun _ => fire listeners listener) s).
  unfold bind, try_catch, ret. now destruct (listener s) as [[[]|e] s1].
Qed.

(** What a listener throws never leaves the connection. *)
Lemma fire_returns listeners (listener : M unit) s :
  fst (fire listeners listener s) = Returned tt.
Proof.
  revert s. induction listeners as [|listeners IH]; intros s; [reflexivity|].
  rewrite fire_S. apply IH.
Qed.

Lemma didChangeWorkspaceFolders_fires context added removed s :
  didChangeWorkspaceFolders context added removed s =
  fire (st_foldersListeners s)
       (didChangeWorkspaceFolders_handler context added removed) s.
Proof. reflexivity. Qed.

Lemma didChangeWorkspaceFolders_unregistered context added removed s :
  st_foldersListeners s = 0 ->
  didChangeWorkspaceFolders context added removed s = (Returned tt, s).
Proof.
  intros Hnone. rewrite didChangeWorkspaceFolders_fires, Hnone. reflexivity.
Qed.

Lemma handler_without_registry context added removed s :
  st_projects s = None ->
  didChangeWorkspaceFolders_handler context added removed s = (Returned tt, s).
Proof.
  intros Hnone. unfold didChangeWorkspaceFolders_handler. rewrite bind_run.
  rewrite (folders_loop_without_registry
             (registry_add context)
             (fun folder => URI_parse (uri folder)) added s Hnone).
  apply (folders_loop_without_registry
           (registry_remove context)
           (fun folder => URI_parse (uri folder)) removed s Hnone).
Qed.

Lemma fire_without_registry context added removed listeners s :
  st_projects s = None ->
  fire listeners (didChangeWorkspaceFolders_handler context added removed) s =
  (Returned tt, s).
Proof.
  intros Hnone. induction listeners as [|listeners IH]; [reflexivity|].
  rewrite fire_S, handler_without_registry by exact Hnone. exact IH.
Qed.

(** When no collaborator throws, every listener makes the calls of the
    notification. *)
Lemma fire_quiet context added removed listeners :
  (forall tr ev, throws context tr ev = None) ->
  forall s projects,
    st_projects s = Some projects ->
    exists s',
      fire listeners (didChangeWorkspaceFolders_handler context added removed) s
        = (Returned tt, s')
      /\ st_trace s' =
           st_trace s ++
           List.concat (repeat
                     (map (fun folder => projects_add (URI_parse (uri folder)))
                          added ++
                      map (fun folder => projects_remove (URI_parse (uri folder)))
                          removed) listeners).
Proof.
  intros Hquiet. induction listeners as [|listeners IH]; intros s projects Hp.
  - exists s. split; [reflexivity|]. simpl. now rewrite app_nil_r.
  - pose proof (didChangeWorkspaceFolders_handler_triple
                  context added removed s Hp) as Htriple.
    eapply triple_progress in Htriple; [|auto].
    destruct Htriple as ([] & s1 & Hrun & Htrace & Hprojects).
    destruct (IH s1 _ Hprojects) as (s' & Hfire & Htrace').
    exists s'. rewrite fire_S, Hrun. split; [exact Hfire|].
    cbn [snd] in *. rewrite Htrace', Htrace. cbn [repeat List.concat].
    now rewrite <- !app_assoc.
Qed.

(** *** Sessions *)

Lemma run_snoc context msgs msg s :
  run context (msgs ++ [msg]) s = handle context msg (run context msgs s).
Proof. unfold run. now rewrite fold_left_app. Qed.

(** The connection touches nothing but its listeners. *)
Lemma connection_initialize_keeps {A : Type} (f : ServerState -> A) p s :
  (forall v s0, f (set_foldersListeners v s0) = f s0) ->
  f (connection_initialize p s) = f s.
Proof.
  intros Hf. unfold connection_initialize.
  now destruct (cap_workspaceFolders (capabilities p)).
Qed.

Lemma handle_Initialize_listeners context p s :
  st_foldersListeners (handle context (Initialize p) s) =
  if cap_workspaceFolders (capabilities p) then 0 else st_foldersListeners s.
Proof.
  unfold handle.
  rewrite (@onInitialize_keeps_foldersListeners context p
             (st_foldersListeners (connection_initialize p s))
             (connection_initialize p s) eq_refl).
  unfold connection_initialize.
  now destruct (cap_workspaceFolders (capabilities p)).
Qed.

(** In every session, the stored request is the one of the last
    handshake request, and a listener on the workspace-folder event
    means that an [initialized] notification was handled while the
    stored request was one of a client with workspace-folder support,
    with no such request since. *)
Lemma session_invariant context msgs :
  (forall p,
     st_initParams (run context msgs initial_state) = Some p ->
     exists m1 m2,
       msgs = m1 ++ Initialize p :: m2 /\ forall q, ~ In (Initialize q) m2)
  /\ (st_foldersListeners (run context msgs initial_state) <> 0 ->
      exists m1 p m2 m3,
        msgs = m1 ++ Initialize p :: m2 ++ Initialized :: m3
        /\ cap_workspaceFolders (capabilities p) = true
        /\ (forall q, ~ In (Initialize q) m2)
        /\ (forall q, In (Initialize q) m3 ->
                      cap_workspaceFolders (capabilities q) = false)).
Proof.
  induction msgs as [|msg msgs [IHparams IHlisten]] using rev_ind.
  - split; [discriminate|intros H; now elim H].
  - rewrite run_snoc. set (s := run context msgs initial_state) in *.
    assert (Hparams' : (forall q, msg <> Initialize q) ->
              forall p, st_initParams s = Some p ->
              exists m1 m2,
                msgs ++ [msg] = m1 ++ Initialize p :: m2
                /\ forall q, ~ In (Initialize q) m2).
    { intros Hmsg p Hp. destruct (IHparams p Hp) as (m1 & m2 & -> & Hm2).
      exists m1, (m2 ++ [msg]). split; [now rewrite <- app_assoc|].
      intros q Hin. apply in_app_iff in Hin. destruct Hin as [Hin|[Hin|[]]].
      - now apply (Hm2 q).
      - now apply (Hmsg q). }
    assert (Hlisten' :
              (forall q, msg = Initialize q ->
                         cap_workspaceFolders (capabilities q) = false) ->
              st_foldersListeners s <> 0 ->
              exists m1 p m2 m3,
                msgs ++ [msg] = m1 ++ Initialize p :: m2 ++ Initialized :: m3
                /\ cap_workspaceFolders (capabilities p) = true
                /\ (forall q, ~ In (Initialize q) m2)
                /\ (forall q, In (Initialize q) m3 ->
                              cap_workspaceFolders (capabilities q) = false)).
    { intros Hmsg H.
      destruct (IHlisten H) as (m1 & p & m2 & m3 & -> & Hcap & Hm2 & Hm3).
      exists m1, p, m2, (m3 ++ [msg]).
      split; [|split; [exact Hcap|split; [exact Hm2|]]].
      - rewrite <- !app_assoc. simpl. now rewrite <- !app_assoc.
      - intros q Hin. apply in_app_iff in Hin. destruct Hin as [Hin|[Hin|[]]].
        + now apply Hm3.
        + now apply Hmsg. }
    destruct msg as [p0| |added removed|].
    + split.
      * intros p Hp. unfold handle in Hp.
        rewrite onInitialize_sets_initParams in Hp. inversion Hp; subst.
        exists msgs, []. split; [reflexivity|]. intros q [].
      * intros H. rewrite handle_Initialize_listeners in H.
        destruct (cap_workspaceFolders (capabilities p0)) eqn:Hcap0;
          [now elim H|].
        apply Hlisten'; [|exact H].
        intros q Hq. inversion Hq; subst. exact Hcap0.
    + split.
      * intros p Hp. apply Hparams'; [discriminate|].
        unfold handle in Hp.
        now rewrite <- (@onInitialized_keeps_initParams context
                          (st_initParams s) s eq_refl).
      * intros H. unfold handle in H.
        destruct (Nat.eq_dec (st_foldersListeners s) 0) as [Hzero|Hnz].
        -- destruct (onInitialized_listeners context s)
             as [Hsame|(p & Hp & Hcap)].
           ++ rewrite Hsame in H. contradiction.
           ++ destruct (IHparams p Hp) as (m1 & m2 & Hmsgs & Hm2).
              exists m1, p, m2, [].
              split; [rewrite Hmsgs; now rewrite <- app_assoc|].
              split; [exact Hcap|]. split; [exact Hm2|]. intros q [].
        -- apply Hlisten'; [discriminate|exact Hnz].
    + split.
      * intros p Hp. apply Hparams'; [discriminate|]. unfold handle in Hp.
        now rewrite <- (@didChangeWorkspaceFolders_keeps_initParams
                          context added removed (st_initParams s) s eq_refl).
      * intros H. apply Hlisten'; [discriminate|]. unfold handle in H.
        now rewrite <- (@didChangeWorkspaceFolders_keeps_foldersListeners
                          context added removed (st_foldersListeners s) s
                          eq_refl).
    + split.
      * intros p Hp. apply Hparams'; [discriminate|]. unfold handle in Hp.
        now rewrite <- (@onShutdown_keeps_initParams context
                          (st_initParams s) s eq_refl).
      * intros H. apply Hlisten'; [discriminate|]. unfold handle in H.
        now rewrite <- (@onShutdown_keeps_foldersListeners context
                          (st_foldersListeners s) s eq_refl).
Qed.

(** The registry built by a handshake is there for the rest of the
    session. *)
Lemma registry_kept context msgs s :
  st_projects s <> None -> st_projects (run context msgs s) <> None.
Proof.
  revert s. induction msgs as [|msg msgs IH]; intros s Hs; [exact Hs|].
  simpl. apply IH. destruct msg as [p| |added removed|]; unfold handle.
  - apply onInitialize_keeps_projects.
    now rewrite (connection_initialize_keeps st_projects).
  - now apply onInitialized_keeps_projects.
  - now apply didChangeWorkspaceFolders_keeps_projects.
  - now apply onShutdown_keeps_projects.
Qed.

(** Workspace-folder notifications add no listener and drop none. *)
Lemma notifications_keep_listeners context notes s :
  (forall msg, In msg notes ->
               exists added removed,
                 msg = DidChangeWorkspaceFolders added removed) ->
  st_foldersListeners (run context notes s) = st_foldersListeners s.
Proof.
  revert s. induction notes as [|msg notes IH]; intros s Hnotes;
    [reflexivity|].
  destruct (Hnotes msg (or_introl eq_refl)) as (added & removed & ->).
  change (run context (DidChangeWorkspaceFolders added removed :: notes) s)
    with (run context notes
            (snd (didChangeWorkspaceFolders context added removed s))).
  rewrite IH by (intros msg Hin; apply Hnotes; now right).
  exact (@didChangeWorkspaceFolders_keeps_foldersListeners
           context added removed (st_foldersListeners s) s eq_refl).
Qed.

(** C7, as the code has it.  The server keeps no [Ready] state: a
    workspace-folder notification reaches the handler through the
    listeners of the connection.  With no listener it has no effect; and
    in every session a listener means that an [initialized] notification
    was handled after the handshake request of a client with
    workspace-folder support, the last request before it, with no such
    request since -- whether or not that handshake returned.  Every
    listener runs the handler once.  With the registry built, a run of
    the handler that returns has made exactly one [projects.add] per
    added folder, in order, and then exactly one [projects.remove] per
    removed folder, in order, each with the folder's parsed uri; and when
    no collaborator throws, the notification makes these calls once per
    listener.  A session that begins with the handshake request of such
    a client and one [initialized] notification whose handler returns
    has one listener, and keeps it while only workspace-folder
    notifications follow.  Without a registry a notification has no
    effect; the registry is built in every session in which a handshake
    returned. *)
Theorem folder_changes_reach_the_registry context :
  (forall msgs added removed,
     (st_foldersListeners (run context msgs initial_state) = 0 ->
      didChangeWorkspaceFolders context added removed
        (run context msgs initial_state) =
        (Returned tt, run context msgs initial_state))
     /\ (st_foldersListeners (run context msgs initial_state) <> 0 ->
         exists m1 _params m2 m3,
           msgs = m1 ++ Initialize _params :: m2 ++ Initialized :: m3
           /\ cap_workspaceFolders (capabilities _params) = true
           /\ (forall p, ~ In (Initialize p) m2)
           /\ (forall p, In (Initialize p) m3 ->
                         cap_workspaceFolders (capabilities p) = false)))
  /\ (forall s projects added removed,
        st_projects s = Some projects ->
        (forall s',
           didChangeWorkspaceFolders_handler context added removed s =
             (Returned tt, s') ->
           exists calls,
             st_trace s' = st_trace s ++ calls
             /\ calls =
                  map (fun folder => projects_add (URI_parse (uri folder)))
                      added ++
                  map (fun folder => projects_remove (URI_parse (uri folder)))
                      removed
             /\ added_roots calls =
                  map (fun folder => URI_parse (uri folder)) added
             /\ removed_roots calls =
                  map (fun folder => URI_parse (uri folder)) removed)
        /\ ((forall tr ev, throws context tr ev = None) ->
            exists s',
              didChangeWorkspaceFolders context added removed s =
                (Returned tt, s')
              /\ st_trace s' =
                   st_trace s ++
                   List.concat
                     (repeat
                        (map (fun folder =>
                                projects_add (URI_parse (uri folder))) added ++
                         map (fun folder =>
                                projects_remove (URI_parse (uri folder)))
                             removed)
                        (st_foldersListeners s))))
  /\ (forall _params notes,
        cap_workspaceFolders (capabilities _params) = true ->
        fst (onInitialized context
               (handle context (Initialize _params) initial_state)) =
          Returned tt ->
        (forall msg, In msg notes ->
                     exists added removed,
                       msg = DidChangeWorkspaceFolders added removed) ->
        st_foldersListeners
          (run context (Initialize _params :: Initialized :: notes)
             initial_state) = 1)
  /\ (forall s added removed,
        st_projects s = None ->
        didChangeWorkspaceFolders context added removed s = (Returned tt, s))
  /\ (forall m1 _params m2 r,
        fst (onInitialize context _params
               (connection_initialize _params
                  (run context m1 initial_state))) = Returned r ->
        st_projects (run context (m1 ++ Initialize _params :: m2) initial_state)
          <> None).
Proof.
  split; [|split; [|split; [|split]]].
  - intros msgs added removed. split.
    + apply didChangeWorkspaceFolders_unregistered.
    + apply session_invariant.
  - intros s projects added removed Hp. split.
    + intros s' Hrun.
      pose proof (didChangeWorkspaceFolders_handler_triple
                    context added removed s Hp) as Htriple.
      eapply triple_returned in Htriple; [|exact Hrun].
      destruct Htriple as [Htrace _]. eexists. split; [exact Htrace|].
      split; [reflexivity|].
      replace (map (fun folder => projects_add (URI_parse (uri folder))) added)
        with (map projects_add
                (map (fun folder => URI_parse (uri folder)) added))
        by (now rewrite map_map).
      replace (map (fun folder => projects_remove (URI_parse (uri folder)))
                 removed)
        with (map projects_remove
                (map (fun folder => URI_parse (uri folder)) removed))
        by (now rewrite map_map).
      rewrite added_roots_app, removed_roots_app.
      destruct (roots_of_adds (map (fun folder => URI_parse (uri folder)) added))
        as [-> ->].
      destruct (roots_of_removes
                  (map (fun folder => URI_parse (uri folder)) removed))
        as [-> ->].
      now rewrite app_nil_r.
    + intros Hquiet. rewrite didChangeWorkspaceFolders_fires.
      now apply fire_quiet with (projects := projects).
  - intros p notes Hcap Hready Hnotes.
    change (run context (Initialize p :: Initialized :: notes) initial_state)
      with (run context notes
              (snd (onInitialized context
                      (handle context (Initialize p) initial_state)))).
    rewrite notifications_keep_listeners by exact Hnotes.
    rewrite onInitialized_subscribes_once with (p := p);
      [|apply onInitialize_sets_initParams|exact Hcap|exact Hready].
    now rewrite handle_Initialize_listeners, Hcap.
  - intros s added removed Hnone. rewrite didChangeWorkspaceFolders_fires.
    now apply fire_without_registry.
  - intros m1 p m2 r Hrun. unfold run. rewrite fold_left_app.
    change (fold_left (fun s msg => handle context msg s)
              (Initialize p :: m2)
              (fold_left (fun s msg => handle context msg s) m1 initial_state))
      with (run context m2
              (snd (onInitialize context p
                      (connection_initialize p
                         (run context m1 initial_state))))).
    apply registry_kept.
    destruct (onInitialize context p
                (connection_initialize p (run context m1 initial_state)))
      as [[r'|e] s'] eqn:Hrun'; [|discriminate].
    destruct (onInitialize_returned _ _ _ Hrun') as [_ ->]. discriminate.
Qed.

Lemma folder_changes_reach_the_registry_witness :
  let context := quiet_context [vue_plugin] in
  let s := run context [Initialize example_params; Initialized] initial_state in
  exists s',
    didChangeWorkspaceFolders context
      [{| uri := "file:///c"; name := "c" |}]
      [{| uri := "file:///a"; name := "a" |}] s = (Returned tt, s')
    /\ st_trace s' =
         st_trace s ++ [projects_add (URI_parse "file:///c");
                        projects_remove (URI_parse "file:///a")].
Proof.
  intros context s.
  destruct (proj2 (proj1 (proj2 (folder_changes_reach_the_registry context))
                     s
                     {| workspaces :=
                          [("file:///a"%string, Resolved (WorkspaceHandle 0));
                           ("file:///b"%string, Resolved (WorkspaceHandle 1))] |}
                     [{| uri := "file:///c"; name := "c" |}]
                     [{| uri := "file:///a"; name := "a" |}]
                     ltac:(vm_compute; reflexivity))
              ltac:(reflexivity))
    as (s' & Hrun & Htrace).
  exists s'. split; [exact Hrun|]. rewrite Htrace. vm_compute. reflexivity.
Defined.

(** C7, as the specification words it, fails twice.  In the first
    session the handshake throws, so that the session never is [Ready];
    the client sends [initialized] all the same, and the notification is
    accepted: its folder is added to the registry.  In the second session
    the client sends [initialized] twice, and the notification adds its
    one folder twice. *)
Lemma folder_changes_not_gated_by_ready :
  (fst (onInitialize (with_throws first_hook_fails (quiet_context [vue_plugin]))
          example_params initial_state) = Thrown "hook failed"%string
   /\ st_trace
        (run (with_throws first_hook_fails (quiet_context [vue_plugin]))
           [Initialize example_params; Initialized;
            DidChangeWorkspaceFolders
              [{| uri := "file:///c"; name := "c" |}] []]
           initial_state) =
      st_trace
        (run (with_throws first_hook_fails (quiet_context [vue_plugin]))
           [Initialize example_params; Initialized] initial_state) ++
      [projects_add (URI_parse "file:///c")])
  /\ st_trace
       (run (quiet_context [vue_plugin])
          [Initialize example_params; Initialized; Initialized;
           DidChangeWorkspaceFolders
             [{| uri := "file:///c"; name := "c" |}] []]
          initial_state) =
     st_trace
       (run (quiet_context [vue_plugin])
          [Initialize example_params; Initialized; Initialized]
          initial_state) ++
     [projects_add (URI_parse "file:///c");
      projects_add (URI_parse "file:///c")].
Proof. split; [split|]; vm_compute; reflexivity. Qed.

(** The session of the witness, run: the notification adds [c] and
    removes [a]. *)
Example folder_change_session :
  let context := quiet_context [vue_plugin] in
  let s := run context
             [Initialize example_params; Initialized;
              DidChangeWorkspaceFolders
                [{| uri := "file:///c"; name := "c" |}]
                [{| uri := "file:///a"; name := "a" |}]]
             initial_state in
  added_roots (st_trace s) =
    [URI_parse "file:///a"; URI_parse "file:///b"; URI_parse "file:///c"]
  /\ removed_roots (st_trace s) = [URI_parse "file:///a"]
  /\ st_projects s =
       Some {| workspaces :=
                 [("file:///b"%string, Resolved (WorkspaceHandle 1));
                  ("file:///c"%string, Resolved (WorkspaceHandle 2))] |}.
Proof. repeat split. Qed.

(** * Further properties of the code *)

(** ** The report-stats command *)

Section ReportStats.

Variable rejects : list EditorEvent -> EditorEvent -> option Error.

(** The loop over the clients: it returns after notifying every client,
    in order, and throws at the first client that rejects. *)
Lemma send_loop_returned clients tr tr' :
  editor_for_each
    (fun client => editor_call rejects (sendNotification_ReportStats client))
    clients tr = (Returned tt, tr') ->
  tr' = tr ++ map sendNotification_ReportStats clients.
Proof.
  revert tr. induction clients as [|client clients IH]; intros tr Hrun.
  - inversion Hrun. now rewrite app_nil_r.
  - simpl in Hrun. unfold editor_bind at 1, editor_call at 1 in Hrun.
    destruct (rejects tr (sendNotification_ReportStats client));
      [discriminate|].
    apply IH in Hrun. rewrite Hrun. now rewrite <- app_assoc.
Qed.

Lemma send_loop_quiet clients tr :
  (forall before client after,
     clients = before ++ client :: after ->
     rejects (tr ++ map sendNotification_ReportStats before)
       (sendNotification_ReportStats client) = None) ->
  editor_for_each
    (fun client => editor_call rejects (sendNotification_ReportStats client))
    clients tr =
  (Returned tt, tr ++ map sendNotification_ReportStats clients).
Proof.
  revert tr. induction clients as [|client clients IH]; intros tr Hquiet.
  - simpl. unfold editor_ret. now rewrite app_nil_r.
  - simpl. unfold editor_bind at 1, editor_call at 1.
    pose proof (Hquiet [] client clients eq_refl) as Hfirst.
    simpl in Hfirst. rewrite app_nil_r in Hfirst. rewrite Hfirst.
    rewrite IH.
    + now rewrite <- app_assoc.
    + intros before c after ->.
      specialize (Hquiet (client :: before) c after eq_refl).
      simpl in Hquiet. now rewrite <- app_assoc.
Qed.

Lemma send_loop_rejected before client after e tr :
  (forall pre c post,
     before = pre ++ c :: post ->
     rejects (tr ++ map sendNotification_ReportStats pre)
       (sendNotification_ReportStats c) = None) ->
  rejects (tr ++ map sendNotification_ReportStats before)
    (sendNotification_ReportStats client) = Some e ->
  editor_for_each
    (fun client => editor_call rejects (sendNotification_ReportStats client))
    (before ++ client :: after) tr =
  (Thrown e,
   tr ++ map sendNotification_ReportStats before ++
   [sendNotification_ReportStats client]).
Proof.
  revert tr. induction before as [|c0 before IH]; intros tr Hquiet Hrejects.
  - simpl in *. unfold editor_bind at 1, editor_call at 1.
    rewrite app_nil_r in Hrejects. now rewrite Hrejects.
  - simpl. unfold editor_bind at 1, editor_call at 1.
    pose proof (Hquiet [] c0 before eq_refl) as Hfirst.
    simpl in Hfirst. rewrite app_nil_r in Hfirst. rewrite Hfirst.
    rewrite IH.
    + now rewrite <- app_assoc.
    + intros pre c post ->.
      specialize (Hquiet (c0 :: pre) c post eq_refl).
      simpl in Hquiet. now rewrite <- app_assoc.
    + simpl in Hrejects. now rewrite <- app_assoc.
Qed.

Lemma notified_sends clients :
  notified (map sendNotification_ReportStats clients) = clients
  /\ executed (map sendNotification_ReportStats clients) = [].
Proof.
  induction clients as [|client clients [IHn IHe]]; [split; reflexivity|].
  simpl. now rewrite IHn, IHe.
Qed.

End ReportStats.

(** X1.  A run of the report-stats command that returns has sent the
    notification to every client exactly once, in the order of [clients],
    and has then executed the toggle-output command, once and last; with
    no client it only toggles the output.  It returns whenever no
    notification and not the toggle is rejected.  Registering the command
    sends nothing. *)
Theorem reportStats_notifies_every_client_then_toggles rejects clients tr :
  (forall tr',
     reportStats_callback rejects clients tr = (Returned tt, tr') ->
     tr' = tr ++ map sendNotification_ReportStats clients ++
           [executeCommand "workbench.action.output.toggleOutput"]
     /\ notified tr' = notified tr ++ clients
     /\ executed tr' =
          executed tr ++ ["workbench.action.output.toggleOutput"%string])
  /\ ((forall tr0 ev, rejects tr0 ev = None) ->
      reportStats_callback rejects clients tr =
        (Returned tt,
         tr ++ map sendNotification_ReportStats clients ++
         [executeCommand "workbench.action.output.toggleOutput"]))
  /\ (forall cmd reg tr',
        register rejects cmd clients tr = (Returned reg, tr') ->
        tr' = tr ++ [registerCommand cmd]
        /\ reg_command reg = cmd
        /\ reg_callback reg = reportStats_callback rejects clients).
Proof.
  split; [|split].
  - intros tr' Hrun. unfold reportStats_callback, editor_bind in Hrun.
    destruct (editor_for_each _ clients tr) as [[[]|e] tr1] eqn:Hloop;
      [|discriminate].
    apply send_loop_returned in Hloop. subst tr1.
    unfold editor_call in Hrun.
    destruct (rejects _ (executeCommand _)); [discriminate|].
    inversion Hrun; subst. rewrite <- app_assoc. split; [reflexivity|].
    unfold notified, executed. rewrite !flat_map_app.
    fold (notified (map sendNotification_ReportStats clients)).
    fold (executed (map sendNotification_ReportStats clients)).
    destruct (notified_sends clients) as [-> ->]. simpl.
    now rewrite app_nil_r.
  - intros Hquiet. unfold reportStats_callback, editor_bind.
    rewrite send_loop_quiet by (intros; apply Hquiet).
    unfold editor_call. rewrite Hquiet. now rewrite <- app_assoc.
  - intros cmd reg tr' Hrun. unfold register, editor_bind, editor_call in Hrun.
    destruct (rejects tr (registerCommand cmd)); [discriminate|].
    inversion Hrun; subst. auto.
Qed.

Lemma reportStats_notifies_every_client_then_toggles_witness :
  reportStats_callback (fun _ _ => None)
    [ClientHandle 0; ClientHandle 1] [] =
  (Returned tt,
   [sendNotification_ReportStats (ClientHandle 0);
    sendNotification_ReportStats (ClientHandle 1);
    executeCommand "workbench.action.output.toggleOutput"]).
Proof.
  apply (proj1 (proj2 (reportStats_notifies_every_client_then_toggles
                         (fun _ _ => None)
                         [ClientHandle 0; ClientHandle 1] []))).
  reflexivity.
Defined.

(** X2.  When a client rejects the notification, after the clients
    before it accepted theirs, the command throws that error: the clients
    after it are not notified and the output is not toggled. *)
Theorem reportStats_stops_at_rejecting_client
    rejects before client after e tr
    (Hquiet : forall pre c post,
       before = pre ++ c :: post ->
       rejects (tr ++ map sendNotification_ReportStats pre)
         (sendNotification_ReportStats c) = None)
    (Hrejects : rejects (tr ++ map sendNotification_ReportStats before)
                  (sendNotification_ReportStats client) = Some e) :
  reportStats_callback rejects (before ++ client :: after) tr =
    (Thrown e,
     tr ++ map sendNotification_ReportStats before ++
     [sendNotification_ReportStats client])
  /\ notified (snd (reportStats_callback rejects (before ++ client :: after) tr))
       = notified tr ++ before ++ [client]
  /\ executed (snd (reportStats_callback rejects (before ++ client :: after) tr))
       = executed tr.
Proof.
  assert (Hrun :
    reportStats_callback rejects (before ++ client :: after) tr =
    (Thrown e,
     tr ++ map sendNotification_ReportStats before ++
     [sendNotification_ReportStats client])).
  { unfold reportStats_callback, editor_bind.
    now rewrite (@send_loop_rejected rejects before client after e tr
                   Hquiet Hrejects). }
  split; [exact Hrun|]. rewrite Hrun. simpl.
  unfold notified, executed. rewrite !flat_map_app.
  fold (notified (map sendNotification_ReportStats before)).
  fold (executed (map sendNotification_ReportStats before)).
  destruct (notified_sends before) as [-> ->]. simpl.
  now rewrite app_nil_r.
Qed.

Lemma reportStats_stops_at_rejecting_client_witness :
  reportStats_callback second_client_rejects
    [ClientHandle 0; ClientHandle 1; ClientHandle 2] [] =
  (Thrown "client stopped"%string,
   [sendNotification_ReportStats (ClientHandle 0);
    sendNotification_ReportStats (ClientHandle 1)]).
Proof.
  refine (proj1 (@reportStats_stops_at_rejecting_client second_client_rejects
                   [ClientHandle 0] (ClientHandle 1) [ClientHandle 2]
                   "client stopped"%string [] _ _)).
  - intros [|c0 [|c1 pre]] c post H; inversion H; subst; reflexivity.
  - reflexivity.
Defined.

(** ** More on the [shutdown] handler *)

Lemma dispose_loop_rejects context before key after hosts e s :
  map snd before = map (@Resolved Workspace) hosts ->
  (forall pre h post,
     hosts = pre ++ h :: post ->
     throws context (st_trace s ++ map workspace_dispose pre)
       (workspace_dispose h) = None) ->
  for_each (dispose_workspace context) (before ++ (key, Rejected e) :: after) s
    = (Thrown e, log (map workspace_dispose hosts) s).
Proof.
  revert hosts s.
  induction before as [|[key0 p0] before IH]; intros hosts s Hall Hquiet.
  - destruct hosts; [|discriminate]. simpl.
    unfold bind at 1. unfold dispose_workspace at 1. simpl.
    now rewrite log_nil.
  - destruct hosts as [|w0 hosts]; [discriminate|].
    simpl in Hall. inversion Hall; subst. simpl.
    unfold bind at 1. unfold dispose_workspace at 1. simpl.
    unfold bind at 1, ret at 1, call.
    pose proof (Hquiet [] w0 hosts eq_refl) as Hw0. simpl in Hw0.
    rewrite app_nil_r in Hw0. rewrite Hw0.
    rewrite (IH hosts (log [workspace_dispose w0] s)); auto.
    + now rewrite log_log.
    + intros pre h post ->.
      specialize (Hquiet (w0 :: pre) h post eq_refl).
      simpl in *. now rewrite <- app_assoc.
Qed.

Lemma disposed_app a b : disposed (a ++ b) = disposed a ++ disposed b.
Proof. apply flat_map_app. Qed.

Lemma disposed_disposals hosts : disposed (map workspace_dispose hosts) = hosts.
Proof.
  unfold disposed. induction hosts as [|w hosts IH]; [reflexivity|].
  simpl. now rewrite IH.
Qed.

(** X3.  When the promise of a host of the registry is rejected, after
    the hosts before it were disposed, the shutdown handler throws the
    rejection: [dispose] is called neither on that host nor on any host
    after it. *)
Theorem rejected_host_ends_shutdown
    context s projects before key after hosts e
    (Hlive : st_projects s = Some projects)
    (Hregistry : workspaces projects = before ++ (key, Rejected e) :: after)
    (Hbefore : map snd before = map (@Resolved Workspace) hosts)
    (Hquiet : forall pre h post,
       hosts = pre ++ h :: post ->
       throws context (st_trace s ++ map workspace_dispose pre)
         (workspace_dispose h) = None) :
  onShutdown context s = (Thrown e, log (map workspace_dispose hosts) s)
  /\ disposed (st_trace (snd (onShutdown context s))) =
       disposed (st_trace s) ++ hosts.
Proof.
  assert (Hrun : onShutdown context s =
                 (Thrown e, log (map workspace_dispose hosts) s)).
  { rewrite (onShutdown_loop _ _ Hlive), Hregistry.
    now apply dispose_loop_rejects. }
  split; [exact Hrun|]. rewrite Hrun. simpl.
  now rewrite disposed_app, disposed_disposals.
Qed.

Lemma rejected_host_ends_shutdown_witness :
  onShutdown (quiet_context []) state_with_rejected_host =
    (Thrown "load failed"%string,
     log [workspace_dispose (WorkspaceHandle 0)] state_with_rejected_host).
Proof.
  refine (proj1 (@rejected_host_ends_shutdown (quiet_context [])
            state_with_rejected_host
            {| workspaces :=
                 [("file:///a"%string, Resolved (WorkspaceHandle 0));
                  ("file:///b"%string, Rejected "load failed"%string);
                  ("file:///c"%string, Resolved (WorkspaceHandle 2))] |}
            [("file:///a"%string, Resolved (WorkspaceHandle 0))]
            "file:///b"%string
            [("file:///c"%string, Resolved (WorkspaceHandle 2))]
            [WorkspaceHandle 0] "load failed"%string _ _ _ _)).
  - reflexivity.
  - reflexivity.
  - reflexivity.
  - intros pre h post H. reflexivity.
Defined.

(** The shutdown handler assigns no closure variable. *)
Lemma onShutdown_keeps_variables context s0 :
  preserves
    (fun s =>
       st_initParams s = st_initParams s0 /\ st_options s = st_options s0 /\
       st_roots s = st_roots s0 /\ st_fsHost s = st_fsHost s0 /\
       st_projects s = st_projects s0 /\
       st_configurationHost s = st_configurationHost s0 /\
       st_plugins s = st_plugins s0 /\
       st_foldersListeners s = st_foldersListeners s0)
    (onShutdown context).
Proof. unfold onShutdown, dispose_workspace. frame; auto. Qed.

(** X4.  The shutdown handler leaves every closure variable as it is,
    whether it returns or throws; in particular it does not empty the
    registry.  A second shutdown request therefore goes through the same
    hosts again: when every promise is resolved and no disposal throws,
    two requests call [dispose] on every host twice. *)
Theorem shutdown_keeps_the_registry context s :
  (st_initParams (snd (onShutdown context s)) = st_initParams s
   /\ st_options (snd (onShutdown context s)) = st_options s
   /\ st_roots (snd (onShutdown context s)) = st_roots s
   /\ st_fsHost (snd (onShutdown context s)) = st_fsHost s
   /\ st_projects (snd (onShutdown context s)) = st_projects s
   /\ st_configurationHost (snd (onShutdown context s)) =
        st_configurationHost s
   /\ st_plugins (snd (onShutdown context s)) = st_plugins s
   /\ st_foldersListeners (snd (onShutdown context s)) = st_foldersListeners s)
  /\ (forall projects hosts,
        st_projects s = Some projects ->
        map snd (workspaces projects) = map (@Resolved Workspace) hosts ->
        (forall tr w, throws context tr (workspace_dispose w) = None) ->
        st_trace (run context [Shutdown; Shutdown] s) =
          st_trace s ++ map workspace_dispose hosts ++
          map workspace_dispose hosts).
Proof.
  split.
  - apply (@onShutdown_keeps_variables context s s). repeat split.
  - intros projects hosts Hlive Hall Hquiet. unfold run. simpl.
    rewrite (onShutdown_loop _ _ Hlive).
    rewrite dispose_loop_quiet with (hosts := hosts); auto. simpl.
    rewrite (@onShutdown_loop context (log (map workspace_dispose hosts) s)
               projects Hlive).
    rewrite dispose_loop_quiet with (hosts := hosts); auto. simpl.
    now rewrite <- app_assoc.
Qed.

Lemma shutdown_keeps_the_registry_witness :
  let context := quiet_context [] in
  let s := run context [Initialize example_params] initial_state in
  disposed (st_trace (run context [Shutdown; Shutdown] s)) =
    [WorkspaceHandle 0; WorkspaceHandle 1;
     WorkspaceHandle 0; WorkspaceHandle 1].
Proof.
  intros context s.
  rewrite (proj2 (shutdown_keeps_the_registry context s)
             {| workspaces :=
                  [("file:///a"%string, Resolved (WorkspaceHandle 0));
                   ("file:///b"%string, Resolved (WorkspaceHandle 1))] |}
             [WorkspaceHandle 0; WorkspaceHandle 1]).
  - vm_compute. reflexivity.
  - vm_compute. reflexivity.
  - reflexivity.
  - reflexivity.
Defined.

(** ** More on workspace-folder notifications *)

Lemma didChangeWorkspaceFolders_keeps_variables context added removed s0 :
  preserves
    (fun s =>
       st_initParams s = st_initParams s0 /\ st_options s = st_options s0 /\
       st_roots s = st_roots s0 /\ st_fsHost s = st_fsHost s0 /\
       st_configurationHost s = st_configurationHost s0 /\
       st_plugins s = st_plugins s0 /\
       st_foldersListeners s = st_foldersListeners s0)
    (didChangeWorkspaceFolders context added removed).
Proof.
  unfold didChangeWorkspaceFolders, didChangeWorkspaceFolders_handler,
    registry_add, registry_remove.
  frame; auto.
Qed.

(** X5.  A workspace-folder notification, however many listeners run and
    whatever they throw, assigns no closure variable other than
    [projects]: in particular [roots] keeps the roots of the last
    handshake.  A later handshake whose request names no root therefore
    builds its registry from those roots again, and not from the folders
    the notification added or removed. *)
Theorem folder_changes_leave_roots context added removed s :
  (st_initParams (snd (didChangeWorkspaceFolders context added removed s)) =
     st_initParams s
   /\ st_options (snd (didChangeWorkspaceFolders context added removed s)) =
        st_options s
   /\ st_roots (snd (didChangeWorkspaceFolders context added removed s)) =
        st_roots s
   /\ st_fsHost (snd (didChangeWorkspaceFolders context added removed s)) =
        st_fsHost s
   /\ st_configurationHost
        (snd (didChangeWorkspaceFolders context added removed s)) =
        st_configurationHost s
   /\ st_plugins (snd (didChangeWorkspaceFolders context added removed s)) =
        st_plugins s
   /\ st_foldersListeners
        (snd (didChangeWorkspaceFolders context added removed s)) =
        st_foldersListeners s)
  /\ (forall _params r s',
        cap_workspaceFolders (capabilities _params)
        && is_some (workspaceFolders _params) = false ->
        truthy_string (rootUri _params) = false ->
        truthy_string (rootPath _params) = false ->
        onInitialize context _params
          (snd (didChangeWorkspaceFolders context added removed s)) =
          (Returned r, s') ->
        st_roots s' = st_roots s
        /\ st_projects s' =
             Some {| workspaces :=
                       registry_after_adds context (st_roots s)
                         (createWorkspaces_returns context) |}).
Proof.
  pose proof (@didChangeWorkspaceFolders_keeps_variables
                context added removed s s) as Hkeeps.
  assert (Hvariables := Hkeeps ltac:(repeat split)). clear Hkeeps.
  split; [exact Hvariables|].
  intros p r s' Hfolders Huri Hpath Hrun.
  destruct (onInitialize_returned _ _ _ Hrun) as [_ ->].
  unfold handshake_state. cbn [st_roots st_projects].
  destruct Hvariables as (_ & _ & Hroots & _). rewrite Hroots.
  assert (Hsame : initial_roots p (st_roots s) = st_roots s).
  { unfold initial_roots. now rewrite Hfolders, Huri, Hpath. }
  rewrite Hsame. split; reflexivity.
Qed.

Lemma folder_changes_leave_roots_witness :
  let context := quiet_context [] in
  let s := run context [Initialize example_params; Initialized] initial_state in
  let s1 :=
    snd (didChangeWorkspaceFolders context
           [{| uri := "file:///c"; name := "c" |}]
           [{| uri := "file:///a"; name := "a" |}] s) in
  st_projects (handshake_state context rootless_params s1) =
    Some {| workspaces :=
              [("file:///a"%string, Resolved (WorkspaceHandle 0));
               ("file:///b"%string, Resolved (WorkspaceHandle 1))] |}.
Proof.
  intros context s s1.
  rewrite (proj2 (proj2 (folder_changes_leave_roots context
                           [{| uri := "file:///c"; name := "c" |}]
                           [{| uri := "file:///a"; name := "a" |}] s)
                    rootless_params
                    (handshake_result context rootless_params s1)
                    (handshake_state context rootless_params s1)
                    eq_refl eq_refl eq_refl
                    ltac:(vm_compute; reflexivity))).
  vm_compute. reflexivity.
Defined.

(** X6.  A run of the workspace-folder handler that throws was aborted
    by one of its registry calls: the calls it made are the adds and
    removes of the notification up to and including the call that threw,
    and the folders after that one are neither added nor removed in this
    run.  The error does not reach the client: with the handler given to
    the connection once, the notification ends there and returns. *)
Theorem folder_handler_stops_at_failing_call
    context s projects added removed e s'
    (Hlive : st_projects s = Some projects)
    (Hrun : didChangeWorkspaceFolders_handler context added removed s =
              (Thrown e, s')) :
  (exists made failing skipped,
     map (fun folder => projects_add (URI_parse (uri folder))) added ++
     map (fun folder => projects_remove (URI_parse (uri folder))) removed =
       made ++ failing :: skipped
     /\ st_trace s' = st_trace s ++ made ++ [failing]
     /\ throws context (st_trace s ++ made) failing = Some e)
  /\ (st_foldersListeners s = 1 ->
      didChangeWorkspaceFolders context added removed s = (Returned tt, s')).
Proof.
  split.
  - pose proof (didChangeWorkspaceFolders_handler_triple
                  context added removed s Hlive) as Htriple.
    unfold triple in Htriple. rewrite Hrun in Htriple.
    destruct Htriple as (pre & ev & rest & Heq & Htrace & Hthrows & _).
    exists pre, ev, rest. auto.
  - intros Hone. rewrite didChangeWorkspaceFolders_fires, Hone.
    rewrite fire_S, Hrun. reflexivity.
Qed.

Lemma folder_handler_stops_at_failing_call_witness :
  let context := with_throws add_of_c_fails (quiet_context []) in
  let s := run context [Initialize example_params; Initialized] initial_state in
  exists s',
    didChangeWorkspaceFolders context
      [{| uri := "file:///c"; name := "c" |};
       {| uri := "file:///d"; name := "d" |}]
      [{| uri := "file:///a"; name := "a" |}] s = (Returned tt, s')
    /\ st_trace s' = st_trace s ++ [projects_add (URI_parse "file:///c")].
Proof.
  intros context s.
  exists (log [projects_add (URI_parse "file:///c")] s).
  split; [|reflexivity].
  refine (proj2 (@folder_handler_stops_at_failing_call context s
                   {| workspaces :=
                        [("file:///a"%string, Resolved (WorkspaceHandle 0));
                         ("file:///b"%string, Resolved (WorkspaceHandle 1))] |}
                   [{| uri := "file:///c"; name := "c" |};
                    {| uri := "file:///d"; name := "d" |}]
                   [{| uri := "file:///a"; name := "a" |}]
                   "add failed"%string _ _ _) _).
  - vm_compute. reflexivity.
  - vm_compute. reflexivity.
  - vm_compute. reflexivity.
Defined.

(** ** More on the legend *)

(** X7.  Contributions never move a standard entry: every standard token
    type (and modifier) keeps its position in the legend of every
    session, and the contributed ones follow at positions 23, 24, ...
    (modifiers: 10, 11, ...), so that the legend has 23 (10) entries more
    than were contributed. *)
Theorem legend_keeps_standard_positions
    (options : LanguageServerInitializationOptions) :
  (forall i t,
     nth_error (tokenTypes standardSemanticTokensLegend) i = Some t ->
     nth_error (tokenTypes (getSemanticTokensLegend options)) i = Some t)
  /\ (forall j,
        nth_error (tokenTypes (getSemanticTokensLegend options)) (23 + j) =
        nth_error (contributed_tokenTypes options) j)
  /\ (forall i m,
        nth_error (tokenModifiers standardSemanticTokensLegend) i = Some m ->
        nth_error (tokenModifiers (getSemanticTokensLegend options)) i = Some m)
  /\ (forall j,
        nth_error (tokenModifiers (getSemanticTokensLegend options)) (10 + j) =
        nth_error (contributed_tokenModifiers options) j)
  /\ List.length (tokenTypes (getSemanticTokensLegend options)) =
       23 + List.length (contributed_tokenTypes options)
  /\ List.length (tokenModifiers (getSemanticTokensLegend options)) =
       10 + List.length (contributed_tokenModifiers options).
Proof.
  assert (Htypes :
    tokenTypes (getSemanticTokensLegend options) =
    tokenTypes standardSemanticTokensLegend ++ contributed_tokenTypes options).
  { unfold getSemanticTokensLegend, contributed_tokenTypes.
    destruct (semanticTokensLegend options) as [extra|];
      [reflexivity|now rewrite app_nil_r]. }
  assert (Hmods :
    tokenModifiers (getSemanticTokensLegend options) =
    tokenModifiers standardSemanticTokensLegend ++
    contributed_tokenModifiers options).
  { unfold getSemanticTokensLegend, contributed_tokenModifiers.
    destruct (semanticTokensLegend options) as [extra|];
      [reflexivity|now rewrite app_nil_r]. }
  rewrite Htypes, Hmods. repeat split.
  - intros i t Hi. rewrite nth_error_app1; [exact Hi|].
    apply nth_error_Some. congruence.
  - intros i m Hi. rewrite nth_error_app1; [exact Hi|].
    apply nth_error_Some. congruence.
Qed.

Lemma legend_keeps_standard_positions_witness :
  nth_error
    (tokenTypes
       (getSemanticTokensLegend
          {| l10n := None; typescript := None; textDocumentSync := None;
             serverMode := None; disableFileWatcher := None;
             cancellationPipeName := None;
             semanticTokensLegend :=
               Some {| tokenTypes := ["foo"]; tokenModifiers := [] |} |}))
    13 = Some "function"%string.
Proof.
  apply (proj1 (legend_keeps_standard_positions _)). reflexivity.
Defined.

(** ** More on the handshake *)

Lemma trace_reading_none {A : Type} (f : Event -> list A) calls :
  (forall ev, In ev calls -> f ev = []) -> flat_map f calls = [].
Proof.
  induction calls as [|ev calls IH]; [reflexivity|]. intros Hnone.
  simpl. rewrite (Hnone ev) by now left.
  apply IH. intros ev' Hin. apply Hnone. now right.
Qed.

(** The calls of any run of the handler are calls of the handshake. *)
Lemma onInitialize_calls_in_handshake context _params s calls :
  st_trace (snd (onInitialize context _params s)) = st_trace s ++ calls ->
  exists rest, handshake_calls context _params (st_roots s) = calls ++ rest.
Proof.
  intros Htrace.
  destruct (onInitialize_calls_prefix context _params s) as [rest Hprefix].
  rewrite Htrace, <- app_assoc in Hprefix. apply app_inv_head in Hprefix.
  eauto.
Qed.

(** X8.  A client with workspace-folder support that sends an empty
    folder list gets no root at all: the handshake assigns the empty list
    to [roots] and makes no [projects.add], whatever [rootUri] and
    [rootPath] say and whatever [roots] held before. *)
Theorem empty_folder_list_adds_no_root context _params s r s'
    (Hrun : onInitialize context _params s = (Returned r, s'))
    (Hcap : cap_workspaceFolders (capabilities _params) = true)
    (Hfolders : workspaceFolders _params = Some []) :
  st_roots s' = []
  /\ exists calls, st_trace s' = st_trace s ++ calls /\ added_roots calls = [].
Proof.
  destruct (onInitialize_returned _ _ _ Hrun) as [_ ->].
  unfold handshake_state. cbn [st_roots st_trace].
  assert (Hroots : initial_roots _params (st_roots s) = []).
  { unfold initial_roots. now rewrite Hcap, Hfolders. }
  split; [exact Hroots|].
  exists (handshake_calls context _params (st_roots s)).
  split; [reflexivity|]. now rewrite added_roots_handshake.
Qed.

Lemma empty_folder_list_adds_no_root_witness :
  st_roots (handshake_state (quiet_context []) empty_folders_params
              initial_state) = [].
Proof.
  assert (Hrun :
    onInitialize (quiet_context []) empty_folders_params initial_state =
    (Returned (handshake_result (quiet_context []) empty_folders_params
                 initial_state),
     handshake_state (quiet_context []) empty_folders_params initial_state))
    by (vm_compute; reflexivity).
  exact (proj1 (@empty_folder_list_adds_no_root (quiet_context [])
                  empty_folders_params initial_state _ _ Hrun
                  eq_refl eq_refl)).
Defined.

(** X9.  A handshake whose request names no root keeps the roots of the
    handshake before it and adds them to the registry it builds; and
    computing the roots is idempotent, so a repeated request leaves
    [roots] as its first handling left it. *)
Theorem rootless_handshake_keeps_roots context _params s r s'
    (Hrun : onInitialize context _params s = (Returned r, s'))
    (Hfolders : cap_workspaceFolders (capabilities _params)
                && is_some (workspaceFolders _params) = false)
    (Huri : truthy_string (rootUri _params) = false)
    (Hpath : truthy_string (rootPath _params) = false) :
  st_roots s' = st_roots s
  /\ (exists calls,
        st_trace s' = st_trace s ++ calls /\ added_roots calls = st_roots s)
  /\ st_projects s' =
       Some {| workspaces :=
                 registry_after_adds context (st_roots s)
                   (createWorkspaces_returns context) |}
  /\ forall p roots,
       initial_roots p (initial_roots p roots) = initial_roots p roots.
Proof.
  destruct (onInitialize_returned _ _ _ Hrun) as [_ ->].
  unfold handshake_state. cbn [st_roots st_trace st_projects].
  assert (Hroots : initial_roots _params (st_roots s) = st_roots s).
  { unfold initial_roots. now rewrite Hfolders, Huri, Hpath. }
  rewrite Hroots. split; [reflexivity|]. split; [|split; [reflexivity|]].
  - exists (handshake_calls context _params (st_roots s)).
    split; [reflexivity|]. now rewrite added_roots_handshake.
  - intros p roots. unfold initial_roots.
    destruct (cap_workspaceFolders (capabilities p)
              && is_some (workspaceFolders p)); [reflexivity|].
    destruct (truthy_string (rootUri p)); [reflexivity|].
    destruct (truthy_string (rootPath p)); reflexivity.
Qed.

Lemma rootless_handshake_keeps_roots_witness :
  let context := quiet_context [] in
  let s := run context [Initialize plain_params] initial_state in
  st_roots (handshake_state context rootless_params s) =
    [URI_parse "file:///a"].
Proof.
  intros context s.
  assert (Hrun :
    onInitialize context rootless_params s =
    (Returned (handshake_result context rootless_params s),
     handshake_state context rootless_params s))
    by (vm_compute; reflexivity).
  rewrite (proj1 (@rootless_handshake_keeps_roots context rootless_params s
                    _ _ Hrun eq_refl eq_refl eq_refl)).
  vm_compute. reflexivity.
Defined.

(** X10.  No run of the [initialize] handler disposes a host or removes a
    root.  A handshake that returns leaves in [projects] the registry it
    built from what [createWorkspaces] returned and its own roots: a
    registry that was there before is dropped as it is, undisposed. *)
Theorem handshake_replaces_registry_without_disposal context _params s :
  (forall calls,
     st_trace (snd (onInitialize context _params s)) = st_trace s ++ calls ->
     disposed calls = [] /\ removed_roots calls = [])
  /\ (forall r s',
        onInitialize context _params s = (Returned r, s') ->
        st_projects s' =
          Some {| workspaces :=
                    registry_after_adds context (st_roots s')
                      (createWorkspaces_returns context) |}).
Proof.
  split.
  - intros calls Htrace.
    destruct (@onInitialize_calls_in_handshake context _params s calls Htrace)
      as [rest Hcalls].
    assert (Hkinds : forall ev, In ev calls ->
              (forall w, ev <> workspace_dispose w) /\
              (forall root, ev <> projects_remove root)).
    { intros ev Hin.
      assert (Hin' : In ev (handshake_calls context _params (st_roots s)))
        by (rewrite Hcalls, in_app_iff; now left).
      apply handshake_calls_kinds in Hin'.
      split_kinds Hin'; subst; split; intros; discriminate. }
    split; apply trace_reading_none; intros ev Hin;
      destruct (Hkinds ev Hin) as [Hd Hr]; destruct ev; try reflexivity.
    + now elim (Hd w).
    + now elim (Hr root).
  - intros r s' Hrun. destruct (onInitialize_returned _ _ _ Hrun) as [_ ->].
    reflexivity.
Qed.

Lemma handshake_replaces_registry_without_disposal_witness :
  let context := quiet_context [] in
  let s := run context [Initialize example_params] initial_state in
  st_projects (handshake_state context plain_params s) =
    Some {| workspaces :=
              [("file:///a"%string, Resolved (WorkspaceHandle 0))] |}.
Proof.
  intros context s.
  assert (Hrun :
    onInitialize context plain_params s =
    (Returned (handshake_result context plain_params s),
     handshake_state context plain_params s))
    by (vm_compute; reflexivity).
  rewrite (proj2 (handshake_replaces_registry_without_disposal
                    context plain_params s) _ _ Hrun).
  vm_compute. reflexivity.
Defined.

Lemma apply_hooks_without_hooks l r :
  (forall i p, In (i, p) l -> onInitialize_hook p = None) ->
  apply_hooks l r = r.
Proof.
  revert r. induction l as [|[i p] l IH]; intros r Hnone; [reflexivity|].
  unfold apply_hooks. simpl. rewrite (Hnone i p) by now left.
  apply IH. intros j q Hin. apply (Hnone j q). now right.
Qed.

(** X11.  When the package metadata loads, a handshake that returns hands
    the first hooks a result whose [serverInfo] is the name and version
    of the package.  With no plugin declaring the hook, the response is
    exactly the capabilities [setupCapabilities] left and that
    [serverInfo]; with hooks that leave [serverInfo] alone, the response
    carries it. *)
Theorem metadata_reaches_the_response context _params s r s'
    (Hrun : onInitialize context _params s = (Returned r, s'))
    (Hmeta : forall tr, throws context tr require_packageJson = None) :
  r = apply_hooks (indexed (session_plugins context _params))
        {| res_capabilities := negotiated_capabilities context _params;
           serverInfo := Some (packageJson context) |}
  /\ ((forall plugin, In plugin (session_plugins context _params) ->
                      onInitialize_hook plugin = None) ->
      r = {| res_capabilities := negotiated_capabilities context _params;
             serverInfo := Some (packageJson context) |})
  /\ ((forall plugin hook result,
         In plugin (session_plugins context _params) ->
         onInitialize_hook plugin = Some hook ->
         serverInfo (hook result) = serverInfo result) ->
      serverInfo r = Some (packageJson context)).
Proof.
  destruct (onInitialize_returned _ _ _ Hrun) as [-> _].
  assert (Hresult :
    handshake_result context _params s =
    apply_hooks (indexed (session_plugins context _params))
      {| res_capabilities := negotiated_capabilities context _params;
         serverInfo := Some (packageJson context) |}).
  { unfold handshake_result, serverInfo_after. now rewrite Hmeta. }
  rewrite Hresult. split; [reflexivity|]. split.
  - intros Hnone. apply apply_hooks_without_hooks.
    intros i p Hin. apply Hnone. apply in_indexed in Hin.
    eapply nth_error_In; eauto.
  - intros Hkeep.
    apply apply_hooks_invariant
      with (P := fun r => serverInfo r = Some (packageJson context));
      [reflexivity|].
    intros i p hook r' Hin Hhook Hr'. rewrite (Hkeep p hook r'); auto.
    apply in_indexed in Hin. eapply nth_error_In; eauto.
Qed.

Lemma metadata_reaches_the_response_witness :
  handshake_result (quiet_context [bare_plugin]) example_params initial_state =
  {| res_capabilities :=
       {| sc_textDocumentSync := Some 2%Z; sc_features := [] |};
     serverInfo :=
       Some {| si_name := "@volar/language-server";
               si_version := "1.0.0" |} |}.
Proof.
  assert (Hrun :
    onInitialize (quiet_context [bare_plugin]) example_params initial_state =
    (Returned (handshake_result (quiet_context [bare_plugin]) example_params
                 initial_state),
     handshake_state (quiet_context [bare_plugin]) example_params
       initial_state)) by (vm_compute; reflexivity).
  refine (proj1 (proj2 (@metadata_reaches_the_response
                          (quiet_context [bare_plugin]) example_params
                          initial_state _ _ Hrun _)) _).
  - reflexivity.
  - intros plugin [<-|[]]. reflexivity.
Defined.

(** The engine calls among the calls of a handshake. *)
Lemma engine_call_in_handshake context _params roots ev :
  (exists d, ev = loadTypescript d) \/ ev = createFileSystemHost \/
  (exists d l, ev = loadTypescriptLocalized d l) ->
  (In ev (handshake_calls context _params roots) <->
   In ev (engine_calls context (initializationOptions _params) _params
            (cap_configuration (capabilities _params)))).
Proof.
  intros Hkind. unfold handshake_calls, host_calls. rewrite !in_app_iff.
  split; [|tauto].
  intros [H|[[H|[H|[H|H]]]|[H|H]]]; [|exact H| | | | |]; exfalso.
  - apply negotiation_calls_kinds in H.
    split_kinds H; split_kinds Hkind; congruence.
  - apply in_map_iff in H. destruct H as (root & <- & _).
    split_kinds Hkind; discriminate.
  - destruct H as [<-|[<-|[]]]; split_kinds Hkind; discriminate.
  - apply in_onInitialized_calls in H. destruct H as (i & p & _ & _ & ->).
    split_kinds Hkind; discriminate.
  - destruct H as [<-|[]]. split_kinds Hkind; discriminate.
  - apply in_onInitialize_calls in H. destruct H as (i & p & _ & _ & ->).
    split_kinds Hkind; discriminate.
Qed.

(** X12.  In a handshake that returns: TypeScript is loaded exactly when
    the options name a [tsdk], from that [tsdk]; the file-system host is
    created, and kept in [fsHost], exactly when that load returned a
    module; and the localized messages are loaded exactly when the
    options name a [tsdk] and the request a non-empty locale. *)
Theorem engine_hosts_follow_the_options context _params s r s'
    (Hrun : onInitialize context _params s = (Returned r, s')) :
  (st_fsHost s' <> None <->
   exists t, typescript (initializationOptions _params) = Some t
             /\ loadTypescript_returns context (tsdk t) = true)
  /\ exists calls,
       st_trace s' = st_trace s ++ calls
       /\ (forall d,
             In (loadTypescript d) calls <->
             exists t, typescript (initializationOptions _params) = Some t
                       /\ tsdk t = d)
       /\ (In createFileSystemHost calls <->
           exists t, typescript (initializationOptions _params) = Some t
                     /\ loadTypescript_returns context (tsdk t) = true)
       /\ (forall d l,
             In (loadTypescriptLocalized d l) calls <->
             exists t, typescript (initializationOptions _params) = Some t
                       /\ tsdk t = d
                       /\ truthy_string (locale _params) = true
                       /\ l = value_of (locale _params)).
Proof.
  destruct (onInitialize_returned _ _ _ Hrun) as [_ ->].
  unfold handshake_state. cbn [st_fsHost st_trace].
  assert (Hloaded :
    typescript_loaded context (initializationOptions _params) = true <->
    exists t, typescript (initializationOptions _params) = Some t
              /\ loadTypescript_returns context (tsdk t) = true).
  { unfold typescript_loaded.
    destruct (typescript (initializationOptions _params)) as [t|].
    - split; [eauto|]. intros (t' & Ht & Hr). now inversion Ht; subst.
    - split; [discriminate|]. intros (t' & Ht & _). discriminate. }
  split.
  - rewrite <- Hloaded.
    destruct (typescript_loaded context (initializationOptions _params));
      split; congruence.
  - exists (handshake_calls context _params (st_roots s)).
    split; [reflexivity|]. split; [|split].
    + intros d. rewrite engine_call_in_handshake by eauto.
      unfold engine_calls. rewrite !in_app_iff.
      destruct (typescript (initializationOptions _params)) as [t|] eqn:Ht.
      * split.
        -- intros [H|[H|[H|H]]].
           ++ destruct H as [H|[]]. inversion H. eauto.
           ++ destruct (typescript_loaded _ _); [|contradiction].
              destruct H as [H|[]]. discriminate.
           ++ destruct (truthy_string (locale _params)); [|contradiction].
              destruct H as [H|[]]. discriminate.
           ++ destruct H as [H|[H|[]]]; discriminate.
        -- intros (t' & Ht' & <-). inversion Ht'; subst. left. now left.
      * split.
        -- intros [[]|[H|[[]|H]]].
           ++ destruct (typescript_loaded _ _); [|contradiction].
              destruct H as [H|[]]. discriminate.
           ++ destruct H as [H|[H|[]]]; discriminate.
        -- intros (t' & Ht' & _). discriminate.
    + rewrite engine_call_in_handshake by eauto.
      rewrite <- Hloaded. unfold engine_calls. rewrite !in_app_iff.
      split.
      * intros [H|[H|[H|H]]].
        -- destruct (typescript _); [|contradiction].
           destruct H as [H|[]]. discriminate.
        -- destruct (typescript_loaded _ _); [reflexivity|contradiction].
        -- destruct (typescript _); [|contradiction].
           destruct (truthy_string _); [|contradiction].
           destruct H as [H|[]]. discriminate.
        -- destruct H as [H|[H|[]]]; discriminate.
      * intros ->. right. left. now left.
    + intros d l. rewrite engine_call_in_handshake by eauto 6.
      unfold engine_calls. rewrite !in_app_iff.
      destruct (typescript (initializationOptions _params)) as [t|] eqn:Ht.
      * split.
        -- intros [H|[H|[H|H]]].
           ++ destruct H as [H|[]]. discriminate.
           ++ destruct (typescript_loaded _ _); [|contradiction].
              destruct H as [H|[]]. discriminate.
           ++ destruct (truthy_string (locale _params)) eqn:Hlocale;
                [|contradiction].
              destruct H as [H|[]]. inversion H. eauto 6.
           ++ destruct H as [H|[H|[]]]; discriminate.
        -- intros (t' & Ht' & <- & Hlocale & ->). inversion Ht'; subst.
           right. right. left. rewrite Hlocale. now left.
      * split.
        -- intros [[]|[H|[[]|H]]].
           ++ destruct (typescript_loaded _ _); [|contradiction].
              destruct H as [H|[]]. discriminate.
           ++ destruct H as [H|[H|[]]]; discriminate.
        -- intros (t' & Ht' & _). discriminate.
Qed.

Lemma engine_hosts_follow_the_options_witness :
  st_fsHost (handshake_state (quiet_context []) example_params initial_state)
    <> None.
Proof.
  assert (Hrun :
    onInitialize (quiet_context []) example_params initial_state =
    (Returned (handshake_result (quiet_context []) example_params
                 initial_state),
     handshake_state (quiet_context []) example_params initial_state))
    by (vm_compute; reflexivity).
  apply (proj1 (@engine_hosts_follow_the_options (quiet_context [])
                  example_params initial_state _ _ Hrun)).
  exists {| tsdk := "node_modules/typescript/lib" |}. split; reflexivity.
Defined.

(** X13.  When the load of the localisation bundle throws, the handshake
    throws that error at once: the request, its options and the plugin
    instances are stored already, and nothing else has happened --
    [roots], the registry and both hosts are as before, and no other
    call was made. *)
Theorem l10n_failure_aborts_handshake context _params s l e
    (Hl : l10n (initializationOptions _params) = Some l)
    (Hthrows : throws context (st_trace s) (l10n_config (location l)) = Some e) :
  exists s',
    onInitialize context _params s = (Thrown e, s')
    /\ st_trace s' = st_trace s ++ [l10n_config (location l)]
    /\ st_initParams s' = Some _params
    /\ st_options s' = Some (initializationOptions _params)
    /\ st_plugins s' = Some (session_plugins context _params)
    /\ st_roots s' = st_roots s
    /\ st_projects s' = st_projects s
    /\ st_configurationHost s' = st_configurationHost s
    /\ st_fsHost s' = st_fsHost s.
Proof.
  exists (log [l10n_config (location l)]
            (set_plugins (Some (session_plugins context _params))
               (set_options (Some (initializationOptions _params))
                  (set_initParams (Some _params) s)))).
  split; [|repeat split].
  unfold onInitialize.
  rewrite bind_run. unfold modify at 1. cbv beta iota zeta.
  rewrite bind_run. unfold modify at 1. cbv beta iota zeta.
  rewrite bind_run. unfold modify at 1. cbv beta iota zeta.
  rewrite bind_run. rewrite Hl. unfold call at 1.
  change (st_trace (set_plugins _ _)) with (st_trace s).
  rewrite Hthrows. reflexivity.
Qed.

Lemma l10n_failure_aborts_handshake_witness :
  exists s',
    onInitialize (with_throws l10n_fails (quiet_context [])) l10n_params
      initial_state = (Thrown "l10n failed"%string, s')
    /\ st_trace s' = [l10n_config "file:///l10n"]
    /\ st_projects s' = None.
Proof.
  destruct (@l10n_failure_aborts_handshake
              (with_throws l10n_fails (quiet_context [])) l10n_params
              initial_state {| location := "file:///l10n" |}
              "l10n failed"%string eq_refl eq_refl)
    as (s' & Hrun & Htrace & _ & _ & _ & _ & Hprojects & _).
  exists s'. auto.
Defined.

(** X14.  In every run of the [initialize] handler, returning or
    throwing, the features are registered only after the registry was
    built and every root of the handshake was added to it, in order; no
    root is added after that. *)
Theorem features_registered_after_roots context _params s before after
    (Htrace :
       st_trace (snd (onInitialize context _params s)) =
       st_trace s ++ before ++ register_customFeatures :: after) :
  added_roots before = initial_roots _params (st_roots s)
  /\ added_roots after = []
  /\ In (createWorkspaces
           (typescript_loaded context (initializationOptions _params))
           (cap_configuration (capabilities _params))) before.
Proof.
  destruct (@onInitialize_calls_in_handshake context _params s _ Htrace)
    as [rest Hcalls].
  set (roots := initial_roots _params (st_roots s)) in *.
  set (first :=
         negotiation_calls _params ++
         engine_calls context (initializationOptions _params) _params
           (cap_configuration (capabilities _params)) ++
         map projects_add roots).
  set (tail :=
         register_languageFeatures
           (getSemanticTokensLegend (initializationOptions _params)) ::
         onInitialized_calls (indexed (session_plugins context _params)) ++
         require_packageJson ::
         onInitialize_calls (indexed (session_plugins context _params))).
  assert (Hshape : handshake_calls context _params (st_roots s) =
                   first ++ register_customFeatures :: tail).
  { unfold handshake_calls, host_calls, first, tail. fold roots.
    rewrite <- !app_assoc. reflexivity. }
  assert (Htail : forall ev, In ev tail ->
            ev <> register_customFeatures /\
            forall root, ev <> projects_add root).
  { intros ev [<-|Hin]; [split; intros; discriminate|].
    rewrite in_app_iff in Hin. destruct Hin as [Hin|[<-|Hin]].
    - apply in_onInitialized_calls in Hin.
      destruct Hin as (i & p & _ & _ & ->). split; intros; discriminate.
    - split; intros; discriminate.
    - apply in_onInitialize_calls in Hin.
      destruct Hin as (i & p & _ & _ & ->). split; intros; discriminate. }
  assert (Hfirst : ~ In register_customFeatures first).
  { unfold first. rewrite !in_app_iff. intros [H|[H|H]].
    - apply negotiation_calls_kinds in H. split_kinds H; discriminate.
    - apply engine_calls_kinds in H. split_kinds H; discriminate.
    - apply in_map_iff in H. destruct H as (root & H & _). discriminate. }
  rewrite Hshape, <- app_assoc in Hcalls. simpl in Hcalls.
  apply split_after_absent in Hcalls; [|exact Hfirst].
  destruct Hcalls as (mid & -> & Hmid).
  destruct mid as [|ev mid].
  - simpl in Hmid. inversion Hmid as [Hafter]. rewrite app_nil_r.
    split; [|split].
    + unfold first. rewrite !added_roots_app, added_roots_adds.
      rewrite (added_roots_none (negotiation_calls _params)).
      2:{ intros root H. apply negotiation_calls_kinds in H.
          split_kinds H; discriminate. }
      rewrite (added_roots_none (engine_calls _ _ _ _)).
      2:{ intros root H. apply engine_calls_kinds in H.
          split_kinds H; discriminate. }
      reflexivity.
    + apply added_roots_none. intros root Hin.
      assert (Hin' : In (projects_add root) tail)
        by (rewrite Hafter, in_app_iff; now left).
      destruct (Htail _ Hin') as [_ Hno]. now elim (Hno root).
    + unfold first, engine_calls. rewrite !in_app_iff.
      right. left. do 3 right. right. now left.
  - simpl in Hmid. inversion Hmid as [[Hev Hrest]]. exfalso.
    assert (Hin : In register_customFeatures tail)
      by (rewrite Hrest, in_app_iff; right; now left).
    destruct (Htail _ Hin) as [Hno _]. now elim Hno.
Qed.

Lemma features_registered_after_roots_witness :
  added_roots
    [createConfigurationHost;
     setupCapabilities standardSemanticTokensLegend;
     loadTypescript "node_modules/typescript/lib";
     createFileSystemHost;
     createCancellationTokenHost None;
     createWorkspaces true true;
     projects_add (URI_parse "file:///a");
     projects_add (URI_parse "file:///b")] =
  initial_roots example_params (st_roots initial_state).
Proof.
  refine (proj1 (@features_registered_after_roots (quiet_context [vue_plugin])
                   example_params initial_state _
                   [register_languageFeatures standardSemanticTokensLegend;
                    plugin_onInitialized 0;
                    require_packageJson;
                    plugin_onInitialize 0] _)).
  vm_compute. reflexivity.
Defined.

(** ** More on the [initialized] handler *)

(** X15.  An [initialized] notification handled before any handshake
    request never returns: with [initParams] still [undefined] the
    handler throws, at the latest with the [TypeError] of reading it.
    It made no call except telling existing hosts that they are ready,
    it did not subscribe to workspace-folder changes and it registered no
    watcher.  At the start of a session it throws the [TypeError]
    without any call. *)
Theorem initialized_before_handshake_throws context s
    (Hnone : st_initParams s = None) :
  (exists e s', onInitialized context s = (Thrown e, s'))
  /\ st_foldersListeners (snd (onInitialized context s)) = st_foldersListeners s
  /\ (forall calls,
        st_trace (snd (onInitialized context s)) = st_trace s ++ calls ->
        forall ev, In ev calls ->
                   ev = fsHost_ready \/ ev = configurationHost_ready)
  /\ onInitialized context initial_state =
       (Thrown "TypeError"%string, initial_state).
Proof.
  split; [now apply onInitialized_throws_without_initParams|].
  split; [now apply onInitialized_without_initParams|].
  split; [|reflexivity].
  intros calls Htrace ev Hin.
  pose proof (onInitialized_emits context s) as Hprefix.
  apply emits_prefix in Hprefix. destruct Hprefix as [rest Hprefix].
  rewrite Htrace, <- app_assoc in Hprefix. apply app_inv_head in Hprefix.
  assert (Hin' : In ev (initialized_calls s))
    by (rewrite Hprefix, in_app_iff; now left).
  unfold initialized_calls in Hin'. rewrite Hnone in Hin'.
  rewrite !in_app_iff in Hin'. destruct Hin' as [H|[H|[]]].
  - destruct (is_some (st_fsHost s)); [|contradiction].
    destruct H as [<-|[]]. now left.
  - destruct (is_some (st_configurationHost s)); [|contradiction].
    destruct H as [<-|[]]. now right.
Qed.

Lemma initialized_before_handshake_throws_witness :
  st_foldersListeners (snd (onInitialized (quiet_context []) initial_state)) =
  0.
Proof.
  exact (proj1 (proj2 (@initialized_before_handshake_throws
                         (quiet_context []) initial_state eq_refl))).
Defined.

(** X16.  An [initialized] handler that returns has first told the
    file-system host and then the configuration host that they are
    ready, each exactly when it exists, before any other call; and it has
    subscribed to workspace-folder changes exactly when the client of
    the stored request advertises workspace-folder support. *)
Theorem initialized_tells_existing_hosts context s s'
    (Hrun : onInitialized context s = (Returned tt, s')) :
  exists rest,
    st_trace s' =
      st_trace s ++
      (if is_some (st_fsHost s) then [fsHost_ready] else []) ++
      (if is_some (st_configurationHost s)
       then [configurationHost_ready] else []) ++
      rest
    /\ ~ In fsHost_ready rest
    /\ ~ In configurationHost_ready rest
    /\ (In onDidChangeWorkspaceFolders rest <->
        exists p, st_initParams s = Some p
                  /\ cap_workspaceFolders (capabilities p) = true).
Proof.
  pose proof (onInitialized_emits context s) as Hemits.
  unfold emits in Hemits. rewrite Hrun in Hemits.
  destruct Hemits as [Htrace _]. unfold initialized_calls in Htrace.
  eexists. split; [exact Htrace|].
  destruct (st_initParams s) as [p|].
  - assert (Hwatch : forall ev,
      In ev match st_options s with
            | Some options =>
                if watcher_wanted options p
                then match st_plugins s with
                     | Some plugins =>
                         match watcher_exts plugins with
                         | [] => []
                         | _ :: _ =>
                             [client_register_DidChangeWatchedFiles
                                (watcher_glob (watcher_exts plugins))]
                         end
                     | None => []
                     end
                else []
            | None => []
            end ->
      exists glob, ev = client_register_DidChangeWatchedFiles glob).
    { intros ev Hin. destruct (st_options s) as [options|]; [|contradiction].
      destruct (watcher_wanted options p); [|contradiction].
      destruct (st_plugins s) as [plugins|]; [|contradiction].
      destruct (watcher_exts plugins); [contradiction|].
      destruct Hin as [<-|[]]. eauto. }
    rewrite !in_app_iff. repeat split.
    + intros [H|H].
      * destruct (cap_workspaceFolders (capabilities p)); [|contradiction].
        destruct H as [H|[]]. discriminate.
      * apply Hwatch in H. destruct H as [glob H]. discriminate.
    + intros [H|H].
      * destruct (cap_workspaceFolders (capabilities p)); [|contradiction].
        destruct H as [H|[]]. discriminate.
      * apply Hwatch in H. destruct H as [glob H]. discriminate.
    + intros [H|H].
      * destruct (cap_workspaceFolders (capabilities p)) eqn:Hcap;
          [eauto|contradiction].
      * apply Hwatch in H. destruct H as [glob H]. discriminate.
    + intros (p' & Hp' & Hcap). inversion Hp'; subst.
      left. rewrite Hcap. now left.
  - split; [intros []|]. split; [intros []|].
    split; [intros []|]. intros (p & Hp & _). discriminate.
Qed.

Lemma initialized_tells_existing_hosts_witness :
  exists rest,
    st_trace
      (snd (onInitialized (quiet_context [])
              (run (quiet_context []) [Initialize example_params]
                 initial_state))) =
      st_trace
        (run (quiet_context []) [Initialize example_params] initial_state) ++
      [fsHost_ready] ++ [configurationHost_ready] ++ rest
    /\ ~ In fsHost_ready rest.
Proof.
  destruct (@initialized_tells_existing_hosts (quiet_context [])
              (run (quiet_context []) [Initialize example_params]
                 initial_state)
              (snd (onInitialized (quiet_context [])
                      (run (quiet_context []) [Initialize example_params]
                         initial_state))))
    as (rest & Htrace & Hfs & _).
  - vm_compute. reflexivity.
  - exists rest. split; [exact Htrace|exact Hfs].
Defined.

(** *** Sessions of clients without workspace-folder support *)

(** X17.  In a session none of whose handshake requests advertises
    workspace-folder support, the server never subscribes to
    workspace-folder changes: whatever the messages and whatever throws,
    a workspace-folder notification changes nothing and reaches no
    registry. *)
Theorem folder_changes_need_the_capability context msgs
    (Hnever : forall p, In (Initialize p) msgs ->
                        cap_workspaceFolders (capabilities p) = false) :
  st_foldersListeners (run context msgs initial_state) = 0
  /\ forall added removed,
       didChangeWorkspaceFolders context added removed
         (run context msgs initial_state) =
       (Returned tt, run context msgs initial_state).
Proof.
  assert (Hoff : st_foldersListeners (run context msgs initial_state) = 0).
  { destruct (Nat.eq_dec (st_foldersListeners (run context msgs initial_state))
                0) as [Hoff|Hon]; [exact Hoff|].
    destruct (proj2 (session_invariant context msgs) Hon)
      as (m1 & p & m2 & m3 & Hmsgs & Hcap & _).
    rewrite (Hnever p) in Hcap; [discriminate|].
    rewrite Hmsgs. apply in_app_iff. right. now left. }
  split; [exact Hoff|]. intros added removed.
  now apply didChangeWorkspaceFolders_unregistered.
Qed.

Lemma folder_changes_need_the_capability_witness :
  didChangeWorkspaceFolders (quiet_context [])
    [{| uri := "file:///c"; name := "c" |}] []
    (run (quiet_context []) [Initialize plain_params; Initialized]
       initial_state) =
  (Returned tt,
   run (quiet_context []) [Initialize plain_params; Initialized]
     initial_state).
Proof.
  apply (@folder_changes_need_the_capability (quiet_context [])
           [Initialize plain_params; Initialized]).
  intros p [Heq|[Heq|[]]].
  - inversion Heq. reflexivity.
  - discriminate.
Defined.
